From Stdlib Require Import ZArith List String Ascii Bool Lia.
From Stdlib Require Import Floats.SpecFloat.
From stdpp Require Import gmap strings list sorting.

Open Scope Z_scope.
(** * Errors and results

    A Go function returning [(T, error)] returns a [result T]; one
    returning only [error] returns a [result unit]. *)
Module errors.

Inductive error :=
  | ErrNotExist                      (* os.ErrNotExist (ENOENT) *)
  | ErrExist                         (* os.ErrExist (EEXIST) *)
  | ErrPermission                    (* os.ErrPermission (EACCES) *)
  | EISDIR
  | ENOTDIR
  | ENOTEMPTY
  | EINVAL
  | EBUSY
  | KeySizeError (n : nat)           (* aes.KeySizeError *)
  | ErrOpen                          (* cipher: message authentication failed *)
  | ErrSyntax                        (* encoding/json: a syntax or type error *)
  | Canceled                         (* context.Canceled *)
  | ErrOffline                       (* net.ErrOffline *)
  | New (msg : string)               (* errors.New, fmt.Errorf without %w *)
  | Wrap (msg : string) (e : error)  (* fmt.Errorf("msg: %w", e) *)
  | Panic (msg : string).            (* a run-time panic: the call does not return *)

#[global] Instance error_eq_dec : EqDecision error.
Proof. solve_decision. Defined.

(** errors.Is: [target] is [err] or an error [err] wraps. *)
Fixpoint Is (err target : error) : bool :=
  bool_decide (err = target) ||
  match err with
  | Wrap _ e => Is e target
  | _ => false
  end.

(** os.IsNotExist looks at the error itself (it predates wrapping). *)
Definition IsNotExist (err : error) : bool := bool_decide (err = ErrNotExist).

Inductive result (A : Type) :=
  | Ok (a : A)
  | Err (e : error).
Arguments Ok {A} a.
Arguments Err {A} e.

#[global] Instance result_ret : MRet result := fun _ a => Ok a.
#[global] Instance result_bind : MBind result := fun _ _ k r =>
  match r with
  | Ok a => k a
  | Err e => Err e
  end.
#[global] Instance result_fmap : FMap result := fun _ _ f r =>
  match r with
  | Ok a => Ok (f a)
  | Err e => Err e
  end.

Definition is_ok {A} (r : result A) : bool :=
  match r with Ok _ => true | Err _ => false end.

End errors.
Export errors.
(** * Bytes, words and hexadecimal text

    A Go [byte] is a [Z] in [0, 256); a [[]byte] is a [list Z]; a Go
    [string] is a Rocq [string], read byte by byte. *)
Module bytes.

Definition of_string (s : string) : list Z :=
  map (fun a => Z.of_nat (nat_of_ascii a)) (list_ascii_of_string s).

Definition to_string (l : list Z) : string :=
  string_of_list_ascii (map (fun b => ascii_of_nat (Z.to_nat b)) l).

(** [be n x]: the [n] low bytes of [x], most significant first. *)
Fixpoint be (n : nat) (x : Z) : list Z :=
  match n with
  | O => []
  | S k => Z.land (Z.shiftr x (8 * Z.of_nat k)) 255 :: be k x
  end.

(** The number a byte string spells, most significant byte first. *)
Definition be_value (l : list Z) : Z :=
  fold_left (fun acc b => Z.lor (Z.shiftl acc 8) b) l 0.

(** Cut a list into pieces of [n] elements (the last may be shorter). *)
Fixpoint chunks_fuel {A} (fuel n : nat) (l : list A) : list (list A) :=
  match fuel, l with
  | O, _ | _, [] => []
  | S f, _ => take n l :: chunks_fuel f n (drop n l)
  end.
Definition chunks {A} (n : nat) (l : list A) : list (list A) :=
  chunks_fuel (length l) n l.

Definition xor_bytes (a b : list Z) : list Z := zip_with Z.lxor a b.

(** encoding/hex *)
Definition hex_digit (d : Z) : ascii :=
  nth (Z.to_nat d) (list_ascii_of_string "0123456789abcdef") "0"%char.

Definition hex_EncodeToString (l : list Z) : string :=
  string_of_list_ascii
    (flat_map (fun b => [hex_digit (Z.shiftr b 4); hex_digit (Z.land b 15)]) l).

Definition hex_value (c : ascii) : option Z :=
  let n := Z.of_nat (nat_of_ascii c) in
  if (48 <=? n) && (n <=? 57) then Some (n - 48)
  else if (97 <=? n) && (n <=? 102) then Some (n - 87)
  else if (65 <=? n) && (n <=? 70) then Some (n - 55)
  else None.

Fixpoint hex_decode (l : list ascii) : option (list Z) :=
  match l with
  | [] => Some []
  | hi :: lo :: rest =>
      match hex_value hi, hex_value lo, hex_decode rest with
      | Some h, Some l', Some r => Some (16 * h + l' :: r)
      | _, _, _ => None
      end
  | _ => None
  end.

(** 32-bit words with wrap-around. *)
Definition w32 (x : Z) : Z := Z.land x 0xffffffff.
Definition add32 (x y : Z) : Z := w32 (x + y).
Definition rotl32 (n x : Z) : Z :=
  w32 (Z.lor (Z.shiftl x n) (Z.shiftr x (32 - n))).
Definition rotr32 (n x : Z) : Z := rotl32 (32 - n) x.
Definition not32 (x : Z) : Z := Z.lxor x 0xffffffff.

(** Merkle-Damgard padding shared by SHA-1 and SHA-256: a 0x80 byte, zeros
    up to 56 mod 64, then the bit length on 8 bytes, big-endian. *)
Definition md_pad (msg : list Z) : list Z :=
  let n := Z.of_nat (length msg) in
  let zeros := Z.to_nat ((55 - n) mod 64) in
  msg ++ [128] ++ repeat 0 zeros ++ be 8 (8 * n).

Definition words_of_block (blk : list Z) : list Z :=
  map be_value (chunks 4 blk).

End bytes.

(** * crypto/sha256 (FIPS 180-4) *)
Module sha256.
Import bytes.

(** The round constants are the first 32 bits of the fractional parts of
    the cube roots of the first 64 primes; the initial state, those of the
    square roots of the first 8. *)
Definition is_prime (n : Z) : bool :=
  (1 <? n) && forallb (fun d => negb (n mod Z.of_nat d =? 0))
                      (seq 2 (Z.to_nat n - 2)).

Definition primes : list Z :=
  Eval vm_compute in
    take 64 (filter (fun n => is_prime n = true) (map Z.of_nat (seq 2 400))).

(** Integer cube root, found bit by bit from bit [n - 1] down. *)
Fixpoint cube_root (n : nat) (x acc : Z) : Z :=
  match n with
  | O => acc
  | S k =>
      let c := acc + Z.shiftl 1 (Z.of_nat k) in
      if c * c * c <=? x then cube_root k x c else cube_root k x acc
  end.

Definition K : list Z :=
  Eval vm_compute in
    map (fun p => w32 (cube_root 40 (Z.shiftl p 96) 0)) primes.

Definition init : list Z :=
  Eval vm_compute in
    map (fun p => w32 (Z.sqrt (Z.shiftl p 64))) (take 8 primes).

Definition ssig0 x := Z.lxor (Z.lxor (rotr32 7 x) (rotr32 18 x)) (Z.shiftr x 3).
Definition ssig1 x := Z.lxor (Z.lxor (rotr32 17 x) (rotr32 19 x)) (Z.shiftr x 10).
Definition bsig0 x := Z.lxor (Z.lxor (rotr32 2 x) (rotr32 13 x)) (rotr32 22 x).
Definition bsig1 x := Z.lxor (Z.lxor (rotr32 6 x) (rotr32 11 x)) (rotr32 25 x).
Definition ch x y z := Z.lxor (Z.land x y) (Z.land (not32 x) z).
Definition maj x y z := Z.lxor (Z.lxor (Z.land x y) (Z.land x z)) (Z.land y z).

(** The message schedule: [w] holds the words so far, newest first. *)
Fixpoint schedule (n : nat) (w : list Z) : list Z :=
  match n with
  | O => w
  | S k =>
      let at_ i := nth i w 0 in
      schedule k
        (add32 (add32 (ssig1 (at_ 1%nat)) (at_ 6%nat))
               (add32 (ssig0 (at_ 14%nat)) (at_ 15%nat)) :: w)
  end.

Definition round (st : list Z) (kw : Z * Z) : list Z :=
  match st with
  | [a; b; c; d; e; f; g; h] =>
      let t1 := add32 (add32 (add32 h (bsig1 e)) (add32 (ch e f g) (fst kw))) (snd kw) in
      let t2 := add32 (bsig0 a) (maj a b c) in
      [add32 t1 t2; a; b; c; add32 d t1; e; f; g]
  | _ => st
  end.

Definition compress (st blk : list Z) : list Z :=
  let w := rev (schedule 48 (rev (words_of_block blk))) in
  zip_with add32 st (fold_left round (zip K w) st).

Definition Sum256 (msg : list Z) : list Z :=
  flat_map (be 4) (fold_left compress (chunks 64 (md_pad msg)) init).

End sha256.

(** * crypto/sha1 (FIPS 180-4) *)
Module sha1.
Import bytes.

Definition init : list Z :=
  [ 0x67452301; 0xefcdab89; 0x98badcfe; 0x10325476; 0xc3d2e1f0 ].

Fixpoint schedule (n : nat) (w : list Z) : list Z :=
  match n with
  | O => w
  | S k =>
      let at_ i := nth i w 0 in
      schedule k
        (rotl32 1 (Z.lxor (Z.lxor (at_ 2%nat) (at_ 7%nat))
                          (Z.lxor (at_ 13%nat) (at_ 15%nat))) :: w)
  end.

Definition f (t : nat) (b c d : Z) : Z :=
  if (t <? 20)%nat then Z.lor (Z.land b c) (Z.land (not32 b) d)
  else if (t <? 40)%nat then Z.lxor (Z.lxor b c) d
  else if (t <? 60)%nat then
    Z.lor (Z.lor (Z.land b c) (Z.land b d)) (Z.land c d)
  else Z.lxor (Z.lxor b c) d.

Definition k (t : nat) : Z :=
  if (t <? 20)%nat then 0x5a827999
  else if (t <? 40)%nat then 0x6ed9eba1
  else if (t <? 60)%nat then 0x8f1bbcdc
  else 0xca62c1d6.

Definition round (st : list Z) (tw : nat * Z) : list Z :=
  match st with
  | [a; b; c; d; e] =>
      let t := fst tw in
      let tmp := add32 (add32 (rotl32 5 a) (f t b c d))
                       (add32 (add32 e (snd tw)) (k t)) in
      [tmp; a; rotl32 30 b; c; d]
  | _ => st
  end.

Definition compress (st blk : list Z) : list Z :=
  let w := rev (schedule 64 (rev (words_of_block blk))) in
  zip_with add32 st (fold_left round (zip (seq 0 80) w) st).

Definition Sum (msg : list Z) : list Z :=
  flat_map (be 4) (fold_left compress (chunks 64 (md_pad msg)) init).

End sha1.
(** * crypto/aes (FIPS 197) *)
Module aes.
Import bytes.

(** Multiplication by x in GF(2^8) modulo x^8 + x^4 + x^3 + x + 1. *)
Definition xtime (a : Z) : Z :=
  let d := Z.shiftl a 1 in
  if Z.testbit a 7 then Z.land (Z.lxor d 0x1b) 255 else d.

Fixpoint gmul_fuel (n : nat) (a b : Z) : Z :=
  match n with
  | O => 0
  | S k =>
      Z.lxor (if Z.testbit b 0 then a else 0)
             (gmul_fuel k (xtime a) (Z.shiftr b 1))
  end.
Definition gmul : Z -> Z -> Z := gmul_fuel 8.

(** The inverse in GF(2^8) is the 254th power (0 goes to 0). *)
Definition ginv (a : Z) : Z :=
  let a2 := gmul a a in
  let a4 := gmul a2 a2 in
  let a8 := gmul a4 a4 in
  let a16 := gmul a8 a8 in
  let a32 := gmul a16 a16 in
  let a64 := gmul a32 a32 in
  let a128 := gmul a64 a64 in
  gmul a128 (gmul a64 (gmul a32 (gmul a16 (gmul a8 (gmul a4 a2))))).

Definition rotl8 (n x : Z) : Z :=
  Z.land (Z.lor (Z.shiftl x n) (Z.shiftr x (8 - n))) 255.

Definition sbox_of (a : Z) : Z :=
  let b := ginv a in
  Z.lxor (Z.lxor (Z.lxor b (rotl8 1 b)) (Z.lxor (rotl8 2 b) (rotl8 3 b)))
         (Z.lxor (rotl8 4 b) 0x63).

Definition sbox_table : list Z :=
  Eval vm_compute in map (fun i => sbox_of (Z.of_nat i)) (seq 0 256).

Definition sbox (a : Z) : Z := nth (Z.to_nat a) sbox_table 0.

Definition SubWord (w : list Z) : list Z := map sbox w.
Definition RotWord (w : list Z) : list Z :=
  match w with
  | a :: rest => rest ++ [a]
  | [] => []
  end.

Fixpoint rcon (i : nat) : Z :=
  match i with
  | O => 0x8d
  | S k => xtime (rcon k)
  end.

(** Key expansion: [ws] holds the words so far, newest first; [i] is the
    index of the word to produce. *)
Fixpoint expand (n : nat) (nk i : nat) (ws : list (list Z)) : list (list Z) :=
  match n with
  | O => ws
  | S n' =>
      let prev := nth 0 ws [] in
      let back := nth (nk - 1) ws [] in
      let t :=
        if (i mod nk =? 0)%nat then
          xor_bytes (SubWord (RotWord prev)) [rcon (i / nk); 0; 0; 0]
        else if (6 <? nk)%nat && (i mod nk =? 4)%nat then SubWord prev
        else prev in
      expand n' nk (S i) (xor_bytes back t :: ws)
  end.

(** The round keys, one 16-byte list per round, first round first. *)
Definition KeyExpansion (key : list Z) : list (list Z) :=
  let nk := (length key / 4)%nat in
  let nr := (nk + 6)%nat in
  let ws := rev (expand (4 * (nr + 1) - nk) nk nk (rev (chunks 4 key))) in
  map (@concat Z) (chunks 4 ws).

Definition AddRoundKey (st rk : list Z) : list Z :=
  map (fun i => Z.lxor (nth i st 0) (nth i rk 0)) (seq 0 16).

Definition SubBytes (st : list Z) : list Z := map sbox st.

(** The state is held column by column: byte [r + 4c] is row [r], column [c]. *)
Definition ShiftRows (st : list Z) : list Z :=
  map (fun i => let r := (i mod 4)%nat in let c := (i / 4)%nat in
                nth (r + 4 * ((c + r) mod 4))%nat st 0) (seq 0 16).

Definition mix_column (col : list Z) : list Z :=
  match col with
  | [a; b; c; d] =>
      [ Z.lxor (Z.lxor (gmul 2 a) (gmul 3 b)) (Z.lxor c d);
        Z.lxor (Z.lxor a (gmul 2 b)) (Z.lxor (gmul 3 c) d);
        Z.lxor (Z.lxor a b) (Z.lxor (gmul 2 c) (gmul 3 d));
        Z.lxor (Z.lxor (gmul 3 a) b) (Z.lxor c (gmul 2 d)) ]
  | _ => col
  end.

Definition MixColumns (st : list Z) : list Z :=
  flat_map mix_column (chunks 4 st).

Definition full_round (st rk : list Z) : list Z :=
  AddRoundKey (MixColumns (ShiftRows (SubBytes st))) rk.

(** A cipher.Block: the expanded key. *)
Record Block := { roundKeys : list (list Z) }.

(** aes.NewCipher: a key of 16, 24 or 32 bytes, KeySizeError otherwise. *)
Definition NewCipher (key : list Z) : option Block :=
  let n := length key in
  if (n =? 16)%nat || (n =? 24)%nat || (n =? 32)%nat
  then Some {| roundKeys := KeyExpansion key |}
  else None.

(** Block.Encrypt on one 16-byte block. *)
Definition Encrypt (c : Block) (src : list Z) : list Z :=
  let rk0 := hd [] (roundKeys c) in
  let rks := tl (roundKeys c) in
  let st := fold_left full_round (removelast rks) (AddRoundKey src rk0) in
  AddRoundKey (ShiftRows (SubBytes st)) (List.last rks []).

End aes.
(** * crypto/cipher: Galois/Counter Mode (NIST SP 800-38D)

    [NewGCM] over an AES block: 12-byte nonce, 16-byte tag. *)
Module cipher.
Import bytes.

Definition gcmStandardNonceSize : nat := 12.
Definition gcmTagSize : nat := 16.

Record AEAD := { block : aes.Block }.

(** cipher.NewGCM fails only for a block size other than 16; AES has 16. *)
Definition NewGCM (b : aes.Block) : option AEAD := Some {| block := b |}.
Definition NonceSize (g : AEAD) : nat := gcmStandardNonceSize.

(** Multiplication in GF(2^128), blocks read as big-endian numbers whose
    leftmost bit is the coefficient of x^0. *)
Definition gf_R : Z := Z.shiftl 0xe1 120.

Fixpoint gf_mul_loop (n : nat) (x z v : Z) : Z :=
  match n with
  | O => z
  | S k =>
      let z' := if Z.testbit x (Z.of_nat k) then Z.lxor z v else z in
      let v' := if Z.testbit v 0 then Z.lxor (Z.shiftr v 1) gf_R
                else Z.shiftr v 1 in
      gf_mul_loop k x z' v'
  end.
Definition gf_mul (x y : Z) : Z := gf_mul_loop 128 x 0 y.

Definition pad16 (l : list Z) : list Z :=
  l ++ repeat 0 (Z.to_nat ((- Z.of_nat (length l)) mod 16)).

Definition ghash (h : Z) (aad ct : list Z) : Z :=
  let input := pad16 aad ++ pad16 ct
               ++ be 8 (8 * Z.of_nat (length aad))
               ++ be 8 (8 * Z.of_nat (length ct)) in
  fold_left (fun y blk => gf_mul (Z.lxor y (be_value blk)) h)
            (chunks 16 input) 0.

(** The counter block with counter value [i] (J0 has i = 1). *)
Definition counter_block (nonce : list Z) (i : Z) : list Z :=
  nonce ++ be 4 i.

(** [n] bytes of key stream, from counter value 2 on. *)
Definition keystream (g : AEAD) (nonce : list Z) (n : nat) : list Z :=
  take n (flat_map
            (fun i => aes.Encrypt (block g) (counter_block nonce (Z.of_nat i + 2)))
            (seq 0 ((n + 15) / 16))).

Definition counterCrypt (g : AEAD) (nonce data : list Z) : list Z :=
  xor_bytes data (keystream g nonce (length data)).

Definition auth (g : AEAD) (nonce ct aad : list Z) : list Z :=
  let h := be_value (aes.Encrypt (block g) (repeat 0 16)) in
  let mask := be_value (aes.Encrypt (block g) (counter_block nonce 1)) in
  be gcmTagSize (Z.lxor (ghash h aad ct) mask).

(** AEAD.Seal: [dst] followed by the ciphertext and the tag.  The nonce is
    [NonceSize] bytes long at every call of this program (Go panics on
    another length). *)
Definition Seal (g : AEAD) (dst nonce plaintext data : list Z) : list Z :=
  let ct := counterCrypt g nonce plaintext in
  dst ++ ct ++ auth g nonce ct data.

(** AEAD.Open: [None] is the error "cipher: message authentication failed". *)
Definition Open (g : AEAD) (dst nonce ciphertext data : list Z) : option (list Z) :=
  if (length ciphertext <? gcmTagSize)%nat then None
  else
    let n := (length ciphertext - gcmTagSize)%nat in
    let ct := take n ciphertext in
    let tag := drop n ciphertext in
    if decide (auth g nonce ct data = tag)
    then Some (dst ++ counterCrypt g nonce ct)
    else None.

End cipher.
(** * path/filepath and path, as built for a Unix target

    The separator is '/', there are no volume names, and [FromSlash] is
    the identity. *)
Module filepath.

Definition Separator : ascii := "/"%char.
Definition is_sep (c : ascii) : bool := Ascii.eqb c Separator.
Definition is_dot (c : ascii) : bool := Ascii.eqb c "."%char.

(** True at the end of the path or before a separator. *)
Definition at_element_end (rest : list ascii) : bool :=
  match rest with
  | [] => true
  | c :: _ => is_sep c
  end.

(** A path element: the bytes before the next separator, and what is left
    from that separator on. *)
Fixpoint element (l : list ascii) : list ascii :=
  match l with
  | [] => []
  | c :: rest => if is_sep c then [] else c :: element rest
  end.
Fixpoint after_element (l : list ascii) : list ascii :=
  match l with
  | [] => []
  | c :: rest => if is_sep c then l else after_element rest
  end.
Fixpoint skip_seps (l : list ascii) : list ascii :=
  match l with
  | [] => []
  | c :: rest => if is_sep c then skip_seps rest else l
  end.

(** The output buffer of [Clean] is kept reversed, so that its write index
    [w] is its length.  Removing the last element: [w] goes down by one,
    and on while it is above [dotdot] and the byte at [w] is no separator. *)
Fixpoint backtrack (out : list ascii) (dotdot : nat) : list ascii :=
  match out with
  | [] => []
  | c :: out' =>
      if is_sep c || (length out' <=? dotdot)%nat then out'
      else backtrack out' dotdot
  end.

Fixpoint clean_loop (fuel : nat) (rooted : bool) (rest out : list ascii)
    (dotdot : nat) : list ascii :=
  match fuel, rest with
  | O, _ | _, [] => out
  | S fuel', c :: rest1 =>
      if is_sep c then
        (* empty path element *)
        clean_loop fuel' rooted rest1 out dotdot
      else if is_dot c && at_element_end rest1 then
        (* . element *)
        clean_loop fuel' rooted rest1 out dotdot
      else if is_dot c && is_dot (hd "/"%char rest1)
              && at_element_end (tl rest1) then
        (* .. element: remove to last separator *)
        let rest2 := tl rest1 in
        if (dotdot <? length out)%nat then
          clean_loop fuel' rooted rest2 (backtrack out dotdot) dotdot
        else if negb rooted then
          let out1 := if (0 <? length out)%nat then Separator :: out else out in
          let out2 := "."%char :: "."%char :: out1 in
          clean_loop fuel' rooted rest2 out2 (length out2)
        else
          clean_loop fuel' rooted rest2 out dotdot
      else
        (* real path element: add slash if needed, copy element *)
        let w := length out in
        let out1 :=
          if (rooted && negb (w =? 1)%nat) || (negb rooted && negb (w =? 0)%nat)
          then Separator :: out else out in
        clean_loop fuel' rooted (after_element rest)
                   (rev (element rest) ++ out1) dotdot
  end.

Definition clean_list (path : list ascii) : list ascii :=
  match path with
  | [] => ["."%char]
  | c :: rest =>
      let rooted := is_sep c in
      let out :=
        if rooted then clean_loop (length path) true rest [Separator] 1
        else clean_loop (length path) false path [] 0 in
      match out with
      | [] => ["."%char]
      | _ => rev out
      end
  end.

Definition Clean (path : string) : string :=
  string_of_list_ascii (clean_list (list_ascii_of_string path)).

(** [Join] of two elements: empty ones are ignored, the rest is joined by
    the separator and cleaned; all empty gives the empty string. *)
Definition Join (a b : string) : string :=
  if String.eqb a "" then
    if String.eqb b "" then "" else Clean b
  else Clean (a +:+ String Separator b).

Fixpoint Join_list (elems : list string) : string :=
  match elems with
  | [] => ""
  | e :: rest =>
      if String.eqb e "" then Join_list rest
      else Clean (fold_left (fun acc x => acc +:+ String Separator x) rest e)
  end.

(** The part of [l] up to and including its last separator. *)
Definition through_last_sep (l : list ascii) : list ascii :=
  rev (after_element (rev l)).

(** The part of [l] after its last separator. *)
Definition after_last_sep (l : list ascii) : list ascii :=
  rev (element (rev l)).

Definition Dir (path : string) : string :=
  string_of_list_ascii
    (clean_list (through_last_sep (list_ascii_of_string path))).

(** [Ext]: the suffix from the last dot of the last element, or empty. *)
Fixpoint ext_rev (rl acc : list ascii) : list ascii :=
  match rl with
  | [] => []
  | c :: rest =>
      if is_sep c then []
      else if is_dot c then c :: acc
      else ext_rev rest (c :: acc)
  end.
Definition Ext (path : string) : string :=
  string_of_list_ascii (ext_rev (rev (list_ascii_of_string path)) []).

(** path.Base: the last element, trailing slashes removed. *)
Definition Base (path : string) : string :=
  match list_ascii_of_string path with
  | [] => "."
  | l =>
      let stripped := rev (skip_seps (rev l)) in
      match after_last_sep stripped with
      | [] => "/"
      | e => string_of_list_ascii e
      end
  end.

(** IsAbs: the path starts at the root. *)
Definition IsAbs (path : string) : bool := String.prefix "/" path.

(** Abs, in the working directory [wd]. *)
Definition Abs (wd path : string) : string :=
  if IsAbs path then Clean path else Join wd path.

(** strings.HasPrefix *)
Definition HasPrefix (s pre : string) : bool := String.prefix pre s.

End filepath.
(** * The file system seen through package os

    A file system maps cleaned path spellings to nodes.  [Locked] stands
    for an entry the process may not touch: every call on it fails with a
    permission error.  The directories "/" and "." always exist.

    Spellings are not resolved against a working directory: a rooted and
    a relative spelling, or one that climbs with "..", are different
    keys even where a process would reach the same entry through them. *)
Module os.

Inductive node :=
  | Dir
  | File (data : list Z)
  | Locked.

#[global] Instance node_eq_dec : EqDecision node.
Proof. solve_decision. Defined.

Abbreviation FS := (gmap string node).

Definition key (path : string) : string := filepath.Clean path.

Definition root_like (k : string) : bool :=
  String.eqb k "/" || String.eqb k ".".

Definition node_at (fs : FS) (k : string) : option node :=
  if root_like k then Some Dir else fs !! k.

(** What a path names; the empty path names nothing. *)
Definition named (fs : FS) (path : string) : option node :=
  if String.eqb path "" then None else node_at fs (key path).

(** A relative spelling that leaves the directory it starts in. *)
Definition climbs (k : string) : bool :=
  String.eqb k ".." || String.prefix "../" k.

(** [under d k]: [k] is [d] or spelled below it.  Every rooted spelling
    is below "/", and every relative one that does not climb is below
    ".". *)
Definition under (d k : string) : bool :=
  String.eqb k d ||
  (if String.eqb d "/" then String.prefix "/" k
   else if String.eqb d "." then negb (String.prefix "/" k || climbs k)
   else String.prefix (d +:+ "/") k).

Record FileInfo := { IsDir : bool; Size : nat }.

Definition Stat (fs : FS) (path : string) : result FileInfo :=
  match named fs path with
  | None => Err ErrNotExist
  | Some Locked => Err ErrPermission
  | Some Dir => Ok {| IsDir := true; Size := 0 |}
  | Some (File d) => Ok {| IsDir := false; Size := length d |}
  end.

Definition ReadFile (fs : FS) (path : string) : result (list Z) :=
  match named fs path with
  | None => Err ErrNotExist
  | Some Locked => Err ErrPermission
  | Some Dir => Err EISDIR
  | Some (File d) => Ok d
  end.

(** Creating an entry needs its parent directory. *)
Definition parent_ready (fs : FS) (k : string) : result unit :=
  match node_at fs (filepath.Dir k) with
  | Some Dir => Ok tt
  | Some (File _) => Err ENOTDIR
  | Some Locked => Err ErrPermission
  | None => Err ErrNotExist
  end.

(** os.WriteFile, and os.OpenFile with O_WRONLY|O_CREATE|O_TRUNC followed
    by writing [data]: the file is created or replaced. *)
Definition WriteFile (fs : FS) (path : string) (data : list Z) : result FS :=
  let k := key path in
  match named fs path with
  | Some Dir => Err EISDIR
  | Some Locked => Err ErrPermission
  | Some (File _) => Ok (<[k := File data]> fs)
  | None =>
      if String.eqb path "" then Err ErrNotExist
      else _ ← parent_ready fs k; Ok (<[k := File data]> fs)
  end.

(** File.Write on an open file: the bytes go to its end. *)
Definition Append (fs : FS) (path : string) (data : list Z) : result FS :=
  let k := key path in
  match node_at fs k with
  | Some (File old) => Ok (<[k := File (old ++ data)]> fs)
  | Some Dir => Err EISDIR
  | Some Locked => Err ErrPermission
  | None => Err ErrNotExist
  end.

Definition has_children (fs : FS) (k : string) : bool :=
  bool_decide (filter (fun kv => String.prefix (k +:+ "/") kv.1 = true) fs ≠ ∅).

(** os.Remove: a file, or a directory that is empty; "/" and "." cannot
    be removed. *)
Definition Remove (fs : FS) (path : string) : result FS :=
  let k := key path in
  match named fs path with
  | None => Err ErrNotExist
  | Some Locked => Err ErrPermission
  | Some (File _) => Ok (delete k fs)
  | Some Dir =>
      if String.eqb k "/" then Err EBUSY
      else if String.eqb k "." then Err EINVAL
      else if has_children fs k then Err ENOTEMPTY
      else Ok (delete k fs)
  end.

(** endsWithDot of removeall_at.go. *)
Definition endsWithDot (path : string) : bool :=
  String.eqb path "." ||
  match rev (list_ascii_of_string path) with
  | c :: c' :: _ => Ascii.eqb c "."%char && filepath.is_sep c'
  | _ => false
  end.

(** What RemoveAll cannot take away: a [Locked] entry, what lies below
    one, and the directories that lead to one (they are not empty). *)
Definition stuck (fs : FS) (p : string) : bool :=
  bool_decide
    (filter (fun kv => kv.2 = Locked /\
                       (under kv.1 p = true \/ under p kv.1 = true)) fs ≠ ∅).

(** os.RemoveAll: the entry and everything below it.  The empty path and
    a missing path are no error; a path ending in a dot is refused.  It
    removes what it can and returns the first error: what is [stuck]
    stays, with a permission error.  Of "/" and "." the content goes but
    the directory itself cannot, which is an error too. *)
Definition RemoveAll (fs : FS) (path : string) : result unit * FS :=
  if String.eqb path "" then (Ok tt, fs)
  else if endsWithDot path then (Err EINVAL, fs)
  else
    let k := key path in
    let kept := filter (fun kv => under k kv.1 = false \/ stuck fs kv.1 = true) fs in
    if bool_decide (filter (fun kv => under k kv.1 = true) kept ≠ ∅)
    then (Err ErrPermission, kept)
    else if String.eqb k "/" then (Err EBUSY, kept)
    else if String.eqb k "." then (Err EINVAL, kept)
    else (Ok tt, kept).

(** The path and its parents, the path first, up to the root. *)
Fixpoint lineage (fuel : nat) (k : string) : list string :=
  match fuel with
  | O => []
  | S n => if root_like k then [] else k :: lineage n (filepath.Dir k)
  end.

Definition mkdir_step (acc : result FS) (k : string) : result FS :=
  fs ← acc;
  match fs !! k with
  | Some Dir => Ok fs
  | Some (File _) => Err ENOTDIR
  | Some Locked => Err ErrPermission
  | None => Ok (<[k := Dir]> fs)
  end.

(** os.MkdirAll: the directory and every missing parent.  The empty path
    names nothing. *)
Definition MkdirAll (fs : FS) (path : string) : result FS :=
  if String.eqb path "" then Err ErrNotExist
  else
    let k := key path in
    fold_left mkdir_step (rev (lineage (S (String.length k)) k)) (Ok fs).

Definition contains_sep (s : string) : bool :=
  existsb filepath.is_sep (list_ascii_of_string s).

(** The pattern of CreateTemp around its last star. *)
Definition split_pattern (pattern : string) : string * string :=
  let l := list_ascii_of_string pattern in
  let is_star := fun c => Ascii.eqb c "*"%char in
  if existsb is_star l then
    let fix before_last (l : list ascii) : list ascii :=
      match l with
      | [] => []
      | c :: rest => if existsb is_star rest then c :: before_last rest
                     else if is_star c then [] else c :: before_last rest
      end in
    let fix after_last (l : list ascii) : list ascii :=
      match l with
      | [] => []
      | c :: rest => if existsb is_star rest then after_last rest
                     else if is_star c then rest else after_last rest
      end in
    (string_of_list_ascii (before_last l), string_of_list_ascii (after_last l))
  else (pattern, "").

(** os.TempDir when TMPDIR is not set. *)
Definition TempDir : string := "/tmp".

Definition ends_with_sep (s : string) : bool :=
  match rev (list_ascii_of_string s) with
  | c :: _ => filepath.is_sep c
  | [] => false
  end.

(** joinPath of tempfile.go: no cleaning, one separator unless [dir] ends
    with one. *)
Definition joinPath (dir name : string) : string :=
  if ends_with_sep dir then dir +:+ name else dir +:+ "/" +:+ name.

(** os.CreateTemp: a new empty file in [dir] (the temporary directory for
    an empty [dir]) named by the pattern with its last star replaced by
    [rnd], the digits the runtime drew.  The path returned is spelled as
    joinPath built it.  The name is taken once (the retry on a name in use
    is left out). *)
Definition CreateTemp (fs : FS) (dir pattern rnd : string) : result (FS * string) :=
  if contains_sep pattern then Err (New "pattern contains path separator")
  else
    let dir := if String.eqb dir "" then TempDir else dir in
    let '(prefix, suffix) := split_pattern pattern in
    let name := joinPath dir prefix +:+ rnd +:+ suffix in
    match node_at fs (key name) with
    | Some _ => Err ErrExist
    | None =>
        _ ← parent_ready fs (key name);
        Ok (<[key name := File []]> fs, name)
    end.

End os.
(** * strconv, net/url and net/http, as far as the launcher's requests
      need them *)
Module strconv.

(** Quote (the verb %q) on ASCII text: the text between double quotes,
    with the quote and the backslash escaped, the usual control characters
    by letter and the others by \x and two digits.  Bytes from 0x80 on are
    copied as they are. *)
Definition escape (c : ascii) : list ascii :=
  let n := nat_of_ascii c in
  let bs := ascii_of_nat 92 in
  if (n =? 34)%nat then [bs; c]
  else if (n =? 92)%nat then [bs; bs]
  else if (n =? 7)%nat then [bs; "a"%char]
  else if (n =? 8)%nat then [bs; "b"%char]
  else if (n =? 12)%nat then [bs; "f"%char]
  else if (n =? 10)%nat then [bs; "n"%char]
  else if (n =? 13)%nat then [bs; "r"%char]
  else if (n =? 9)%nat then [bs; "t"%char]
  else if (n =? 11)%nat then [bs; "v"%char]
  else if (n <? 32)%nat || (n =? 127)%nat then
    [bs; "x"%char; bytes.hex_digit (Z.of_nat (n / 16)); bytes.hex_digit (Z.of_nat (n mod 16))]
  else [c].

Definition Quote (s : string) : string :=
  let q := ascii_of_nat 34 in
  string_of_list_ascii (q :: flat_map escape (list_ascii_of_string s) ++ [q]).

End strconv.

Module url.

(** Values: the values of each key. *)
Definition Values := gmap string (list string).

Definition unreserved (c : ascii) : bool :=
  let n := nat_of_ascii c in
  (48 <=? n)%nat && (n <=? 57)%nat || (65 <=? n)%nat && (n <=? 90)%nat
  || (97 <=? n)%nat && (n <=? 122)%nat
  || (n =? 45)%nat || (n =? 95)%nat || (n =? 46)%nat || (n =? 126)%nat.

Definition upper_hex (d : nat) : ascii :=
  nth d (list_ascii_of_string "0123456789ABCDEF") "0"%char.

Definition QueryEscape (s : string) : string :=
  string_of_list_ascii
    (flat_map (fun c =>
       if unreserved c then [c]
       else if Ascii.eqb c " "%char then ["+"%char]
       else let n := nat_of_ascii c in
            ["%"%char; upper_hex (n / 16); upper_hex (n mod 16)])
       (list_ascii_of_string s)).

Fixpoint join (sep : string) (parts : list string) : string :=
  match parts with
  | [] => ""
  | [p] => p
  | p :: rest => p +:+ sep +:+ join sep rest
  end.

(** Values.Encode: key=value pairs, the keys in sorted order. *)
Definition Encode (v : Values) : string :=
  join "&"
    (flat_map (fun kv => map (fun x => QueryEscape kv.1 +:+ "=" +:+ QueryEscape x) kv.2)
       (merge_sort (fun a b => Is_true (String.leb a.1 b.1)) (map_to_list v))).

End url.

Module http.

Definition MethodGet : string := "GET".
Definition StatusOK : Z := 200.
Definition StatusNotFound : Z := 404.

(** Header: the values of each key, the keys in canonical form. *)
Abbreviation Header := (gmap string (list string)).

Record Request := {
  Method : string;
  URL : string;
  Header' : Header
}.

(** A response: its status, and what reading its body gives: the chunks
    of the successive reads, then the end of the body ([None]) or an
    error. *)
Record Response := {
  StatusCode : Z;
  Status : string;
  Body : list (list Z);
  bodyError : option error
}.

(** A client is what its Do answers to a request. *)
Definition Client := Request -> result Response.

Definition token_char (c : ascii) : bool :=
  let n := nat_of_ascii c in
  (48 <=? n)%nat && (n <=? 57)%nat || (65 <=? n)%nat && (n <=? 90)%nat
  || (97 <=? n)%nat && (n <=? 122)%nat
  || existsb (Ascii.eqb c) (list_ascii_of_string "!#$%&'*+-.^_`|~").

Fixpoint canonical (upper : bool) (l : list ascii) : list ascii :=
  match l with
  | [] => []
  | c :: rest =>
      let n := nat_of_ascii c in
      let c' := if upper && (97 <=? n)%nat && (n <=? 122)%nat then ascii_of_nat (n - 32)
                else if negb upper && (65 <=? n)%nat && (n <=? 90)%nat
                     then ascii_of_nat (n + 32)
                else c in
      c' :: canonical (Ascii.eqb c "-"%char) rest
  end.

(** textproto.CanonicalMIMEHeaderKey *)
Definition CanonicalHeaderKey (s : string) : string :=
  let l := list_ascii_of_string s in
  if forallb token_char l then string_of_list_ascii (canonical true l) else s.

Definition Set' (h : Header) (key value : string) : Header :=
  <[CanonicalHeaderKey key := [value]]> h.

Definition Get (h : Header) (key : string) : string :=
  match h !! CanonicalHeaderKey key with
  | Some (v :: _) => v
  | _ => ""
  end.

(** Everything outside the program that its requests depend on: whether
    the launcher is in offline mode, the offline override of development
    builds (build.OfflineMode), the texts that net/url refuses as URLs,
    and the default client. *)
Record Net := {
  offline : bool;
  offlineOverride : bool;
  urlError : string -> option error;
  DefaultClient : Client
}.

(** NewRequest and NewRequestWithContext: the method is one of the
    package's constants at every call. *)
Definition NewRequest (n : Net) (method url : string) : result Request :=
  match urlError n url with
  | Some err => Err err
  | None => Ok {| Method := method; URL := url; Header' := ∅ |}
  end.

(** Client.Do, with the requests handed to clients so far. *)
Definition Do (c : Client) (req : Request) (sent : list Request)
  : result Response * list Request :=
  (c req, sent ++ [req]).

End http.
(** * internal/throttle: ProgressGate *)
Module throttle.

(** Go's [float64] is IEEE 754 binary64: [spec_float] at precision 53 and
    maximal exponent 1024, with round-to-nearest-even arithmetic. *)
Definition float64 := spec_float.
Definition f64_sub : float64 -> float64 -> float64 := SFsub 53 1024.
Definition f64_ltb : float64 -> float64 -> bool := SFltb.
Definition f64_leb : float64 -> float64 -> bool := SFleb.
Definition f64_valid : float64 -> bool := valid_binary 53 1024.

(** [f64_of m e] is the binary64 value nearest to [m * 2^e]. *)
Definition f64_of (m e : Z) : float64 := binary_normalize 53 1024 m e false.

(** The constants of the source, as the compiler rounds them to binary64:
    0.01 = 0x1.47ae147ae147bp-7 and 0.99 = 0x1.fae147ae147aep-1. *)
Definition c_0_01 : float64 := S754_finite false 5764607523034235 (-59).
Definition c_0_99 : float64 := S754_finite false 8917127262193582 (-53).
Definition f64_zero : float64 := S754_zero false.
Definition f64_one : float64 := S754_finite false 4503599627370496 (-52).

Record ProgressGate := { last : float64 }.

(** The zero value of the struct: [last] is 0. *)
Definition zeroGate : ProgressGate := {| last := f64_zero |}.

(** [Update] returns the gate after the call and the boolean result. *)
Definition Update (g : ProgressGate) (progress : float64) : ProgressGate * bool :=
  if f64_ltb progress c_0_01 || f64_leb c_0_99 progress then
    ({| last := progress |}, true)
  else if f64_ltb (f64_sub progress (last g)) c_0_01 then
    (g, false)
  else
    ({| last := progress |}, true).

(** Feeding a sequence of raw values to one gate: the values for which
    [Update] returned true, in order. *)
Fixpoint emitted (g : ProgressGate) (raw : list float64) : list float64 :=
  match raw with
  | [] => []
  | v :: rest =>
      let '(g', ok) := Update g v in
      if ok then v :: emitted g' rest else emitted g' rest
  end.

(** The gate after a whole sequence. *)
Fixpoint feed (g : ProgressGate) (raw : list float64) : ProgressGate :=
  match raw with
  | [] => g
  | v :: rest => feed (fst (Update g v)) rest
  end.

Definition in_unit (v : float64) : bool :=
  f64_valid v && f64_leb f64_zero v && f64_leb v f64_one.

Definition boundary (v : float64) : bool :=
  f64_ltb v c_0_01 || f64_leb c_0_99 v.

(** [nondecreasing l]: every element is [<=] every later one. *)
Fixpoint nondecreasing (l : list float64) : Prop :=
  match l with
  | [] => True
  | v :: rest => Forall (fun w => f64_leb v w = true) rest /\ nondecreasing rest
  end.

(** Consecutive emissions [prev, v]: [steps_ok prev l] holds when every
    element of [l] is a boundary value or lies at least 0.01 (in binary64
    subtraction) above the element before it, [prev] standing before the
    first. *)
Fixpoint steps_ok (prev : float64) (l : list float64) : Prop :=
  match l with
  | [] => True
  | v :: rest =>
      (boundary v = true \/ f64_ltb (f64_sub v prev) c_0_01 = false)
      /\ steps_ok v rest
  end.

#[global] Instance spec_float_eq_dec : EqDecision spec_float.
Proof. solve_decision. Defined.

End throttle.
(** * internal/build and the process environment

    What the build and the environment fix for one run of the launcher:
    the ldflags variables [Release] and [Version], the target [GOOS] and
    [GOARCH], the storage and data directories of package hytale (whose
    functions StorageDir and DataDir are not among the sources), and
    whether HYTALE_LAUNCHER_ENABLE_KEYRING is set. *)
Module build.

Record Env := {
  Release : string;
  Version : string;
  GOOS : string;
  GOARCH : string;
  StorageDir : string;
  DataDir : string;
  EnableKeyring : bool
}.

Definition isDevMode (env : Env) : bool := String.eqb (Release env) "dev".

Definition UserAgent (env : Env) : string :=
  if String.eqb (Release env) "release" then
    "hytale-launcher/" +:+ Version env
  else
    "hytale-launcher/" +:+ Release env +:+ "/" +:+ Version env.

Record Platform := { OS : string; Arch : string }.

#[global] Instance Platform_eq_dec : EqDecision Platform.
Proof. solve_decision. Defined.

Definition Platform_String (p : Platform) : string := OS p +:+ "-" +:+ Arch p.

Definition GetPlatform (env : Env) : Platform :=
  {| OS := GOOS env; Arch := GOARCH env |}.

End build.

(** * internal/hytale: paths *)
Module hytale.

Definition ChannelDir (env : build.Env) (channel : string) : string :=
  filepath.Join (build.StorageDir env) channel.

Definition PackageDir (env : build.Env) (pkgID channel version : string) : string :=
  filepath.Join_list [ChannelDir env channel; "package"; pkgID; version].

(** SetUserAgent: the launcher's three headers on a request. *)
Definition SetUserAgent (env : build.Env) (req : http.Request) : http.Request :=
  let h := http.Set' (http.Header' req) "User-Agent" (build.UserAgent env) in
  let h := http.Set' h "X-Hytale-Launcher-Version" (build.Version env) in
  let h := http.Set' h "X-Hytale-Launcher-Branch" (build.Release env) in
  {| http.Method := http.Method req; http.URL := http.URL req; http.Header' := h |}.

End hytale.

(** * internal/net: the offline check *)
Module net.

(** OfflineError: the override of development builds first (its pause of
    two seconds is not modelled), then the current mode. *)
Definition OfflineError (n : http.Net) : option error :=
  if http.offlineOverride n then None
  else if http.offline n then Some ErrOffline
  else None.

End net.

(** * internal/keyring *)
Module keyring.

Definition ServiceName : string := "com.hypixel.hytale-launcher".

(** The credential store of the operating system, as go-keyring reaches
    it: the secrets by service and key, or an error every call meets.
    (The base64 transport form of a secret is not modelled: a stored value
    is read back as the bytes that were set.) *)
Record Credentials := {
  secrets : gmap (string * string) (list Z);
  failure : option error
}.

(** The keyStore interface. *)
Record keyStore := {
  get : Credentials -> string -> string -> result (option (list Z));
  set : Credentials -> string -> string -> list Z -> result Credentials
}.

Definition native_get (c : Credentials) (service key : string)
  : result (option (list Z)) :=
  match failure c with
  | Some e => Err e
  | None => Ok (secrets c !! (service, key))
  end.

Definition native_set (c : Credentials) (service key : string) (value : list Z)
  : result Credentials :=
  match failure c with
  | Some e => Err e
  | None => Ok {| secrets := <[(service, key) := value]> (secrets c);
                  failure := None |}
  end.

(** darwinKeyStore and windowsKeyStore. *)
Definition nativeKeyStore : keyStore :=
  {| get := native_get; set := native_set |}.

(** linuxKeyStore: inert unless enabled by the environment. *)
Definition linuxKeyStore (enabled : bool) : keyStore :=
  {| get := fun c service key =>
              if negb enabled then Ok None else native_get c service key;
     set := fun c service key value =>
              if negb enabled then Ok c else native_set c service key value |}.

Definition newKeyStore (env : build.Env) : keyStore :=
  if String.eqb (build.GOOS env) "linux"
  then linuxKeyStore (build.EnableKeyring env)
  else nativeKeyStore.

(** [GetOrGenKey]: [rnd] is what crypto/rand delivers if a key is drawn. *)
Definition GetOrGenKey (store : keyStore) (c : Credentials) (rnd : nat -> Z)
    (key : string) : result (list Z) * Credentials :=
  match get store c ServiceName key with
  | Err err => (Err (Wrap ("failed to retrieve key '" +:+ key +:+ "'") err), c)
  | Ok (Some existingKey) => (Ok existingKey, c)
  | Ok None =>
      let newKey := map rnd (seq 0 32) in
      match set store c ServiceName key newKey with
      | Err err => (Err (Wrap ("failed to store key '" +:+ key +:+ "'") err), c)
      | Ok c' => (Ok newKey, c')
      end
  end.

End keyring.

(** * internal/crypto *)
Module crypto.

Definition marker : Z := 69. (* 'E' *)

Definition Decrypt (data key : list Z) : result (list Z) :=
  match data with
  | [] => Ok data
  | b :: rest =>
      if negb (b =? marker) then Ok data
      else
        match aes.NewCipher key with
        | None => Err (KeySizeError (length key))
        | Some block =>
            match cipher.NewGCM block with
            | None => Err (New "cipher: NewGCM requires 128-bit block cipher")
            | Some gcm =>
                let nonceSize := cipher.NonceSize gcm in
                if (length rest <? nonceSize)%nat then
                  Err (New "ciphertext too short")
                else
                  match cipher.Open gcm [] (take nonceSize rest)
                                    (drop nonceSize rest) [] with
                  | None => Err ErrOpen
                  | Some plain => Ok plain
                  end
            end
        end
  end.

(** [Encrypt]: [rnd] is what crypto/rand delivers for the nonce. *)
Definition Encrypt (env : build.Env) (rnd : nat -> Z) (data key : list Z)
  : result (list Z) :=
  if String.eqb (build.Release env) "dev" then Ok data
  else
    match aes.NewCipher key with
    | None => Err (KeySizeError (length key))
    | Some block =>
        match cipher.NewGCM block with
        | None => Err (New "cipher: NewGCM requires 128-bit block cipher")
        | Some gcm =>
            let nonce := map rnd (seq 0 (cipher.NonceSize gcm)) in
            let ciphertext := cipher.Seal gcm nonce nonce data [] in
            Ok (marker :: ciphertext)
        end
    end.

(** What a call works on: the files, the credential store, and the
    records handed to slog (each a message and its attributes). *)
Record World := {
  fs : os.FS;
  creds : keyring.Credentials;
  journal : list (string * list (string * string))
}.

Definition with_fs (w : World) (fs' : os.FS) : World :=
  {| fs := fs'; creds := creds w; journal := journal w |}.
Definition with_creds (w : World) (c : keyring.Credentials) : World :=
  {| fs := fs w; creds := c; journal := journal w |}.
Definition slog (w : World) (msg : string) (attrs : list (string * string)) : World :=
  {| fs := fs w; creds := creds w; journal := journal w ++ [(msg, attrs)] |}.

(** [ReadFile] and [WriteFile]: [rnd] feeds a key drawn by the keyring,
    [rnd'] the nonce. *)
Definition ReadFile (env : build.Env) (w : World) (rnd : nat -> Z)
    (path keyName : string) : result (list Z) * World :=
  match os.ReadFile (fs w) path with
  | Err err => (Err err, w)
  | Ok data =>
      let '(k, c) := keyring.GetOrGenKey (keyring.newKeyStore env) (creds w) rnd keyName in
      match k with
      | Err err =>
          (Err (Wrap ("could not get encryption key " +:+ strconv.Quote keyName) err), with_creds w c)
      | Ok key => (Decrypt data key, with_creds w c)
      end
  end.

Definition WriteFile (env : build.Env) (w : World) (rnd rnd' : nat -> Z)
    (path keyName : string) (data : list Z) : result unit * World :=
  let '(k, c) := keyring.GetOrGenKey (keyring.newKeyStore env) (creds w) rnd keyName in
  let w1 := with_creds w c in
  match k with
  | Err err => (Err (Wrap ("could not get encryption key " +:+ strconv.Quote keyName) err), w1)
  | Ok key =>
      match Encrypt env rnd' data key with
      | Err err => (Err (Wrap ("could not encrypt data for " +:+ strconv.Quote path) err), w1)
      | Ok encrypted =>
          match os.WriteFile (fs w1) path encrypted with
          | Err err => (Err err, w1)
          | Ok fs' => (Ok tt, with_fs w1 fs')
          end
      end
  end.

(** [DatFile]: the .json file when it exists and is no directory. *)
Definition DatFile (fs : os.FS) (path : string) : string :=
  let jsonPath := path +:+ ".json" in
  match os.Stat fs jsonPath with
  | Ok info => if negb (os.IsDir info) then jsonPath else path +:+ ".dat"
  | Err _ => path +:+ ".dat"
  end.

End crypto.
(** * encoding/json, for the documents this program reads and writes

    Objects, arrays, strings, integers, booleans and null.  Numbers with a
    fraction or an exponent are not read (none of the modelled structs has
    a float field). *)
Module json.

#[local] Unset Elimination Schemes.
Inductive value :=
  | Null
  | Bool (b : bool)
  | Number (n : Z)
  | Str (s : string)
  | Array (items : list value)
  | Object (fields : list (string * value)).
#[local] Set Elimination Schemes.

Definition quote_char : ascii := ascii_of_nat 34.
Definition backslash : ascii := ascii_of_nat 92.

Fixpoint digits (fuel : nat) (n : Z) (acc : list ascii) : list ascii :=
  match fuel with
  | O => acc
  | S f =>
      let d := ascii_of_nat (48 + Z.to_nat (n mod 10)) in
      if n <? 10 then d :: acc else digits f (n / 10) (d :: acc)
  end.

(** strconv.Itoa *)
Definition itoa (n : Z) : list ascii :=
  if n <? 0 then "-"%char :: digits (Z.to_nat (Z.log2 (- n)) + 1) (- n) []
  else digits (Z.to_nat (Z.log2 n) + 1) n [].

Definition hex4 (n : nat) : list ascii :=
  map (fun k => bytes.hex_digit (Z.land (Z.shiftr (Z.of_nat n) (4 * Z.of_nat k)) 15))
      [3; 2; 1; 0]%nat.

(** One byte of a string as Marshal writes it. *)
Definition escape (c : ascii) : list ascii :=
  let n := nat_of_ascii c in
  if Ascii.eqb c quote_char then [backslash; quote_char]
  else if Ascii.eqb c backslash then [backslash; backslash]
  else if (n =? 10)%nat then [backslash; "n"%char]
  else if (n =? 13)%nat then [backslash; "r"%char]
  else if (n =? 9)%nat then [backslash; "t"%char]
  else if (n <? 32)%nat || (n =? 60)%nat || (n =? 62)%nat || (n =? 38)%nat then
    backslash :: "u"%char :: hex4 n
  else [c].

Definition quoted (s : string) : list ascii :=
  quote_char :: flat_map escape (list_ascii_of_string s) ++ [quote_char].

Fixpoint join (sep : list ascii) (parts : list (list ascii)) : list ascii :=
  match parts with
  | [] => []
  | [p] => p
  | p :: rest => p ++ sep ++ join sep rest
  end.

(** The compact text of Marshal. *)
Fixpoint render (v : value) : list ascii :=
  match v with
  | Null => list_ascii_of_string "null"
  | Bool true => list_ascii_of_string "true"
  | Bool false => list_ascii_of_string "false"
  | Number n => itoa n
  | Str s => quoted s
  | Array items => "["%char :: join [","%char] (map render items) ++ ["]"%char]
  | Object fields =>
      "{"%char
      :: join [","%char]
           (map (fun kv => quoted (fst kv) ++ ":"%char :: render (snd kv)) fields)
      ++ ["}"%char]
  end.

Definition newline : ascii := ascii_of_nat 10.
Definition indent (depth : nat) : list ascii :=
  newline :: concat (repeat [" "%char; " "%char] depth).

(** The text of MarshalIndent with an empty prefix and two spaces. *)
Fixpoint render_indent (depth : nat) (v : value) : list ascii :=
  match v with
  | Array [] => list_ascii_of_string "[]"
  | Object [] => list_ascii_of_string "{}"
  | Array items =>
      "["%char :: indent (S depth)
      ++ join (","%char :: indent (S depth)) (map (render_indent (S depth)) items)
      ++ indent depth ++ ["]"%char]
  | Object fields =>
      "{"%char :: indent (S depth)
      ++ join (","%char :: indent (S depth))
           (map (fun kv => quoted (fst kv) ++ ":"%char :: " "%char
                           :: render_indent (S depth) (snd kv)) fields)
      ++ indent depth ++ ["}"%char]
  | _ => render v
  end.

Definition Marshal (v : value) : list Z :=
  bytes.of_string (string_of_list_ascii (render v)).
Definition MarshalIndent (v : value) : list Z :=
  bytes.of_string (string_of_list_ascii (render_indent 0 v)).

(** ** Reading *)

Definition is_space (c : ascii) : bool :=
  let n := nat_of_ascii c in
  (n =? 32)%nat || (n =? 9)%nat || (n =? 10)%nat || (n =? 13)%nat.

Fixpoint skip_space (l : list ascii) : list ascii :=
  match l with
  | c :: rest => if is_space c then skip_space rest else l
  | [] => []
  end.

Definition is_digit (c : ascii) : bool :=
  let n := nat_of_ascii c in (48 <=? n)%nat && (n <=? 57)%nat.

Fixpoint read_digits (l : list ascii) (acc : Z) : Z * list ascii :=
  match l with
  | c :: rest =>
      if is_digit c then read_digits rest (10 * acc + Z.of_nat (nat_of_ascii c) - 48)
      else (acc, l)
  | [] => (acc, [])
  end.

(** A code point as UTF-8 (the basic plane). *)
Definition utf8 (cp : Z) : list ascii :=
  let a := fun z => ascii_of_nat (Z.to_nat z) in
  if cp <? 128 then [a cp]
  else if cp <? 2048 then
    [a (Z.lor 192 (Z.shiftr cp 6)); a (Z.lor 128 (Z.land cp 63))]
  else
    [a (Z.lor 224 (Z.shiftr cp 12)); a (Z.lor 128 (Z.land (Z.shiftr cp 6) 63));
     a (Z.lor 128 (Z.land cp 63))].

(** The inside of a string literal, up to its closing quote. *)
Fixpoint read_string (fuel : nat) (l acc : list ascii)
  : option (string * list ascii) :=
  match fuel, l with
  | S f, c :: rest =>
      if Ascii.eqb c quote_char then Some (string_of_list_ascii (rev acc), rest)
      else if Ascii.eqb c backslash then
        match rest with
        | e :: rest' =>
            let plain := fun x => read_string f rest' (x :: acc) in
            if Ascii.eqb e quote_char then plain quote_char
            else if Ascii.eqb e backslash then plain backslash
            else if Ascii.eqb e "/"%char then plain "/"%char
            else if Ascii.eqb e "n"%char then plain newline
            else if Ascii.eqb e "r"%char then plain (ascii_of_nat 13)
            else if Ascii.eqb e "t"%char then plain (ascii_of_nat 9)
            else if Ascii.eqb e "b"%char then plain (ascii_of_nat 8)
            else if Ascii.eqb e "f"%char then plain (ascii_of_nat 12)
            else if Ascii.eqb e "u"%char then
              match bytes.hex_decode (take 4 rest') with
              | Some [hi; lo] =>
                  if (length rest' <? 4)%nat then None
                  else read_string f (drop 4 rest') (rev (utf8 (256 * hi + lo)) ++ acc)
              | _ => None
              end
            else None
        | [] => None
        end
      else if (nat_of_ascii c <? 32)%nat then None
      else read_string f rest (c :: acc)
  | _, _ => None
  end.

Definition expect (word : string) (v : value) (l : list ascii)
  : option (value * list ascii) :=
  let w := list_ascii_of_string word in
  if bool_decide (take (length w) l = w) then Some (v, drop (length w) l) else None.

Fixpoint read_value (fuel : nat) (l : list ascii) : option (value * list ascii) :=
  match fuel with
  | O => None
  | S f =>
      match skip_space l with
      | [] => None
      | c :: rest =>
          if Ascii.eqb c "n"%char then expect "null" Null (c :: rest)
          else if Ascii.eqb c "t"%char then expect "true" (Bool true) (c :: rest)
          else if Ascii.eqb c "f"%char then expect "false" (Bool false) (c :: rest)
          else if Ascii.eqb c quote_char then
            '(s, rest') ← read_string (length rest) rest [];
            Some (Str s, rest')
          else if Ascii.eqb c "-"%char then
            match rest with
            | d :: _ =>
                if is_digit d then
                  let '(n, rest') := read_digits rest 0 in Some (Number (- n), rest')
                else None
            | [] => None
            end
          else if is_digit c then
            let '(n, rest') := read_digits (c :: rest) 0 in Some (Number n, rest')
          else if Ascii.eqb c "["%char then
            match skip_space rest with
            | d :: rest' =>
                if Ascii.eqb d "]"%char then Some (Array [], rest')
                else
                  '(items, rest'') ← read_items f rest [];
                  Some (Array items, rest'')
            | [] => None
            end
          else if Ascii.eqb c "{"%char then
            match skip_space rest with
            | d :: rest' =>
                if Ascii.eqb d "}"%char then Some (Object [], rest')
                else
                  '(fields, rest'') ← read_fields f rest [];
                  Some (Object fields, rest'')
            | [] => None
            end
          else None
      end
  end
with read_items (fuel : nat) (l : list ascii) (acc : list value)
  : option (list value * list ascii) :=
  match fuel with
  | O => None
  | S f =>
      '(v, rest) ← read_value f l;
      match skip_space rest with
      | c :: rest' =>
          if Ascii.eqb c ","%char then read_items f rest' (v :: acc)
          else if Ascii.eqb c "]"%char then Some (rev (v :: acc), rest')
          else None
      | [] => None
      end
  end
with read_fields (fuel : nat) (l : list ascii) (acc : list (string * value))
  : option (list (string * value) * list ascii) :=
  match fuel with
  | O => None
  | S f =>
      match skip_space l with
      | q :: rest =>
          if Ascii.eqb q quote_char then
            '(k, rest1) ← read_string (length rest) rest [];
            match skip_space rest1 with
            | c :: rest2 =>
                if Ascii.eqb c ":"%char then
                  '(v, rest3) ← read_value f rest2;
                  match skip_space rest3 with
                  | d :: rest4 =>
                      if Ascii.eqb d ","%char then
                        read_fields f rest4 ((k, v) :: acc)
                      else if Ascii.eqb d "}"%char then
                        Some (rev ((k, v) :: acc), rest4)
                      else None
                  | [] => None
                  end
                else None
            | [] => None
            end
          else None
      | [] => None
      end
  end.

(** A whole document: one value, then nothing but white space. *)
Definition parse (data : list Z) : result value :=
  let l := list_ascii_of_string (bytes.to_string data) in
  match read_value (2 * length l + 2) l with
  | Some (v, rest) =>
      match skip_space rest with
      | [] => Ok v
      | _ => Err ErrSyntax
      end
  | None => Err ErrSyntax
  end.

(** Decoder.Decode on a stream: the first value; what follows it is not
    looked at. *)
Definition decode_first (data : list Z) : result value :=
  let l := list_ascii_of_string (bytes.to_string data) in
  match read_value (2 * length l + 2) l with
  | Some (v, _) => Ok v
  | None => Err ErrSyntax
  end.

(** Matching a key of the document with a field name: exactly, or folding
    the case of ASCII letters. *)
Definition lower (c : ascii) : ascii :=
  let n := nat_of_ascii c in
  if (65 <=? n)%nat && (n <=? 90)%nat then ascii_of_nat (n + 32) else c.
Definition fold_eq (a b : string) : bool :=
  bool_decide (map lower (list_ascii_of_string a) = map lower (list_ascii_of_string b)).

(** Decoding into fields of the basic kinds; null leaves a field as it is. *)
Definition into_string (v : value) (old : string) : result string :=
  match v with Str s => Ok s | Null => Ok old | _ => Err ErrSyntax end.
Definition into_int (v : value) (old : Z) : result Z :=
  match v with Number n => Ok n | Null => Ok old | _ => Err ErrSyntax end.
Definition into_bool (v : value) (old : bool) : result bool :=
  match v with Bool b => Ok b | Null => Ok old | _ => Err ErrSyntax end.

(** Keys of a Go map are written in sorted order. *)
Definition sorted_entries {A} (m : gmap string A) : list (string * A) :=
  merge_sort (fun a b => Is_true (String.leb a.1 b.1)) (map_to_list m).

End json.
(** * internal/appstate *)
Module appstate.

Definition encryptionKeyName : string := "B7F94324-4365-4EB7-A3FC-7FADAA2EEA2F".

(** Modelled from the spec: the declarations of [Dep] and [State] (and the
    JSON names of their fields) are not among the sources; the fields are
    those of section 3 of the specification and of the uses in the code
    ([Channel], [IsNew], [Platform] as a pointer, [Dependencies],
    [OfflineReady]; [Name], [Version], [BuildID], [Path]).  [IsNew] is
    not serialized.  A nil map of dependencies and an empty one are one
    value here; both are written as null and read back as such. *)
Record Dep := {
  Name : string;
  Version : string;
  BuildID : Z;
  Path : string
}.

Record State := {
  Channel : string;
  IsNew : bool;
  Platform : option build.Platform;
  Dependencies : gmap string Dep;
  OfflineReady : bool
}.

#[global] Instance Dep_eq_dec : EqDecision Dep.
Proof. solve_decision. Defined.
#[global] Instance State_eq_dec : EqDecision State.
Proof. solve_decision. Defined.

Definition Dep_to_json (d : Dep) : json.value :=
  json.Object [("name", json.Str (Name d));
               ("version", json.Str (Version d));
               ("build_id", json.Number (BuildID d));
               ("path", json.Str (Path d))].

Definition Platform_to_json (p : option build.Platform) : json.value :=
  match p with
  | None => json.Null
  | Some p => json.Object [("OS", json.Str (build.OS p));
                           ("Arch", json.Str (build.Arch p))]
  end.

Definition State_to_json (s : State) : json.value :=
  json.Object
    [("channel", json.Str (Channel s));
     ("platform", Platform_to_json (Platform s));
     ("dependencies",
      if bool_decide (Dependencies s = ∅) then json.Null
      else json.Object (map (fun kv => (kv.1, Dep_to_json kv.2))
                            (json.sorted_entries (Dependencies s))));
     ("offline_ready", json.Bool (OfflineReady s))].

(** json.Marshal on a State. *)
Definition Marshal (s : State) : result (list Z) :=
  Ok (json.Marshal (State_to_json s)).

Definition Dep_field (d : Dep) (kv : string * json.value) : result Dep :=
  let '(k, v) := kv in
  if json.fold_eq k "name" then
    x ← json.into_string v (Name d);
    Ok {| Name := x; Version := Version d; BuildID := BuildID d; Path := Path d |}
  else if json.fold_eq k "version" then
    x ← json.into_string v (Version d);
    Ok {| Name := Name d; Version := x; BuildID := BuildID d; Path := Path d |}
  else if json.fold_eq k "build_id" then
    x ← json.into_int v (BuildID d);
    Ok {| Name := Name d; Version := Version d; BuildID := x; Path := Path d |}
  else if json.fold_eq k "path" then
    x ← json.into_string v (Path d);
    Ok {| Name := Name d; Version := Version d; BuildID := BuildID d; Path := x |}
  else Ok d.

Definition Dep_of_json (v : json.value) (old : Dep) : result Dep :=
  match v with
  | json.Object fields =>
      fold_left (fun acc kv => d ← acc; Dep_field d kv) fields (Ok old)
  | json.Null => Ok old
  | _ => Err ErrSyntax
  end.

Definition Platform_field (p : build.Platform) (kv : string * json.value)
  : result build.Platform :=
  let '(k, v) := kv in
  if json.fold_eq k "OS" then
    x ← json.into_string v (build.OS p);
    Ok {| build.OS := x; build.Arch := build.Arch p |}
  else if json.fold_eq k "Arch" then
    x ← json.into_string v (build.Arch p);
    Ok {| build.OS := build.OS p; build.Arch := x |}
  else Ok p.

Definition Platform_of_json (v : json.value) (old : option build.Platform)
  : result (option build.Platform) :=
  match v with
  | json.Null => Ok None
  | json.Object fields =>
      let start := default {| build.OS := ""; build.Arch := "" |} old in
      p ← fold_left (fun acc kv => p ← acc; Platform_field p kv) fields (Ok start);
      Ok (Some p)
  | _ => Err ErrSyntax
  end.

Definition Dependencies_of_json (v : json.value) (old : gmap string Dep)
  : result (gmap string Dep) :=
  match v with
  | json.Null => Ok old
  | json.Object fields =>
      fold_left
        (fun acc kv =>
           m ← acc;
           d ← Dep_of_json kv.2 {| Name := ""; Version := ""; BuildID := 0; Path := "" |};
           Ok (<[kv.1 := d]> m))
        fields (Ok old)
  | _ => Err ErrSyntax
  end.

Definition State_field (s : State) (kv : string * json.value) : result State :=
  let '(k, v) := kv in
  if json.fold_eq k "channel" then
    x ← json.into_string v (Channel s);
    Ok {| Channel := x; IsNew := IsNew s; Platform := Platform s;
          Dependencies := Dependencies s; OfflineReady := OfflineReady s |}
  else if json.fold_eq k "platform" then
    x ← Platform_of_json v (Platform s);
    Ok {| Channel := Channel s; IsNew := IsNew s; Platform := x;
          Dependencies := Dependencies s; OfflineReady := OfflineReady s |}
  else if json.fold_eq k "dependencies" then
    x ← Dependencies_of_json v (Dependencies s);
    Ok {| Channel := Channel s; IsNew := IsNew s; Platform := Platform s;
          Dependencies := x; OfflineReady := OfflineReady s |}
  else if json.fold_eq k "offline_ready" then
    x ← json.into_bool v (OfflineReady s);
    Ok {| Channel := Channel s; IsNew := IsNew s; Platform := Platform s;
          Dependencies := Dependencies s; OfflineReady := x |}
  else Ok s.

(** json.Unmarshal into an existing State. *)
Definition Unmarshal (data : list Z) (s : State) : result State :=
  v ← json.parse data;
  match v with
  | json.Object fields =>
      fold_left (fun acc kv => s' ← acc; State_field s' kv) fields (Ok s)
  | json.Null => Ok s
  | _ => Err ErrSyntax
  end.

Definition envFile (env : build.Env) (fs : os.FS) (s : State) : string :=
  crypto.DatFile fs (filepath.Join (hytale.ChannelDir env (Channel s)) "env").

Definition writeFile (env : build.Env) (w : crypto.World) (rnd rnd' : nat -> Z)
    (s : State) : result unit * crypto.World :=
  match Marshal s with
  | Err err => (Err (Wrap "error marshaling launcher state for write" err), w)
  | Ok data =>
      crypto.WriteFile env w rnd rnd' (envFile env (crypto.fs w) s)
                       encryptionKeyName data
  end.

(** The debug record [Save] starts with. *)
Definition announce (w : crypto.World) (s : State) (cause : string) : crypto.World :=
  crypto.slog w "requesting launcher state save"
              [("channel", Channel s); ("cause", cause)].

(** [Save] returns nothing: a failure is logged and reported, no more. *)
Definition Save (env : build.Env) (w : crypto.World) (rnd rnd' : nat -> Z)
    (s : State) (cause : string) : crypto.World :=
  let w0 := announce w s cause in
  match writeFile env w0 rnd rnd' s with
  | (Err err, w1) =>
      crypto.slog w1 "error saving launcher state" [("channel", Channel s)]
  | (Ok _, w1) => w1
  end.

Definition mismatch (saved current : build.Platform) : error :=
  New ("platform mismatch: saved platform " +:+ build.Platform_String saved
       +:+ " does not match current platform " +:+ build.Platform_String current).

Definition validatePlatform (env : build.Env) (s : State) : result unit :=
  match Platform s with
  | None => Ok tt
  | Some saved =>
      let current := build.GetPlatform env in
      if bool_decide (saved = current) then Ok tt
      else Err (mismatch saved current)
  end.

Definition New (env : build.Env) (channel : string) : State :=
  {| Channel := channel; IsNew := true;
     Platform := Some (build.GetPlatform env);
     Dependencies := ∅; OfflineReady := false |}.

Definition ErrNotFound : error := errors.New "state not found".

(** [&State{Channel: channel}] *)
Definition blank (channel : string) : State :=
  {| Channel := channel; IsNew := false; Platform := None;
     Dependencies := ∅; OfflineReady := false |}.

Definition Load (env : build.Env) (w : crypto.World) (rnd : nat -> Z)
    (channel : string) : result State * crypto.World :=
  let s := blank channel in
  match crypto.ReadFile env w rnd (envFile env (crypto.fs w) s) encryptionKeyName with
  | (Err err, w1) =>
      if errors.Is err ErrNotExist then (Err ErrNotFound, w1) else (Err err, w1)
  | (Ok data, w1) =>
      match Unmarshal data s with
      | Err err => (Err err, w1)
      | Ok s' =>
          match validatePlatform env s' with
          | Err err => (Err err, w1)
          | Ok _ => (Ok s', w1)
          end
      end
  end.

End appstate.
(** * internal/selfupdate *)
Module selfupdate.

Section WithKeyName.
(** The keyring name of the note's key, a constant of the package whose
    declaration is not among the sources. *)
Variable cleanupNoteKeyName : string.

Definition cleanupNoteFile (env : build.Env) (fs : os.FS) : string :=
  crypto.DatFile fs (filepath.Join (build.DataDir env) "selfupdate").

Record cleanupNote := {
  Channel : string;   (* json:"channel" *)
  Version : string    (* json:"version" *)
}.

Definition to_json (n : cleanupNote) : json.value :=
  json.Object [("channel", json.Str (Channel n)); ("version", json.Str (Version n))].

Definition field (n : cleanupNote) (kv : string * json.value) : result cleanupNote :=
  let '(k, v) := kv in
  if json.fold_eq k "channel" then
    x ← json.into_string v (Channel n);
    Ok {| Channel := x; Version := Version n |}
  else if json.fold_eq k "version" then
    x ← json.into_string v (Version n);
    Ok {| Channel := Channel n; Version := x |}
  else Ok n.

(** json.Unmarshal into a cleanupNote. *)
Definition Unmarshal (data : list Z) (n : cleanupNote) : result cleanupNote :=
  v ← json.parse data;
  match v with
  | json.Object fields => fold_left (fun acc kv => n' ← acc; field n' kv) fields (Ok n)
  | json.Null => Ok n
  | _ => Err ErrSyntax
  end.

Definition WriteFile (env : build.Env) (w : crypto.World) (rnd rnd' : nat -> Z)
    (n : cleanupNote) : result unit * crypto.World :=
  crypto.WriteFile env w rnd rnd' (cleanupNoteFile env (crypto.fs w))
                   cleanupNoteKeyName (json.Marshal (to_json n)).

(** The body of [consumeCleanupNote], before its deferred call runs. *)
Definition readNote (env : build.Env) (w : crypto.World) (rnd : nat -> Z)
  : result (option cleanupNote) * crypto.World :=
  match crypto.ReadFile env w rnd (cleanupNoteFile env (crypto.fs w))
                        cleanupNoteKeyName with
  | (Err err, w1) =>
      if errors.Is err ErrNotExist then (Ok None, w1) else (Err err, w1)
  | (Ok data, w1) =>
      match Unmarshal data {| Channel := ""; Version := "" |} with
      | Err err => (Err err, w1)
      | Ok note => (Ok (Some note), w1)
      end
  end.

(** The deferred [os.Remove(cleanupNoteFile())]: its error is dropped. *)
Definition removeNote (env : build.Env) (w : crypto.World) : crypto.World :=
  match os.Remove (crypto.fs w) (cleanupNoteFile env (crypto.fs w)) with
  | Ok fs' => crypto.with_fs w fs'
  | Err _ => w
  end.

Definition consumeCleanupNote (env : build.Env) (w : crypto.World) (rnd : nat -> Z)
  : result (option cleanupNote) * crypto.World :=
  let '(r, w1) := readNote env w rnd in
  (r, removeNote env w1).

Definition CleanupOldLauncher (env : build.Env) (w : crypto.World) (rnd : nat -> Z)
  : result unit * crypto.World :=
  match consumeCleanupNote env w rnd with
  | (Err err, w1) => (Err err, w1)
  | (Ok None, w1) => (Ok tt, w1)
  | (Ok (Some note), w1) =>
      let dir := hytale.PackageDir env "launcher" (Channel note) (Version note) in
      let w2 := crypto.slog w1 "cleaning up old launcher" [("dir", dir)] in
      match os.RemoveAll (crypto.fs w2) dir with
      | (Err err, fs') =>
          (Err (Wrap "error removing old launcher directory" err),
           crypto.with_fs w2 fs')
      | (Ok _, fs') => (Ok tt, crypto.with_fs w2 fs')
      end
  end.

End WithKeyName.

End selfupdate.
(** * golang.org/x/oauth2: the token *)
Module oauth2.

(** [Expiry] is a time.Time, here an instant in nanoseconds. *)
Record Token := {
  AccessToken : string;
  RefreshToken : string;
  Expiry : Z
}.

End oauth2.

(** * internal/account *)
Module account.

(** Modelled from the spec: the declarations of [Token], [Profile] and
    [Account] are not among the sources; the fields are those of section
    3 of the specification and of the uses in package auth
    ([CurrentProfile] is a pointer to a Profile, here the Profile it
    points to). *)
Record Token := {
  AccessToken : string;
  RefreshToken : string;
  Expiry : Z
}.

Record Profile := {
  UUID : string;
  Username : string;
  Token' : Token;
  Entitlements : list string
}.

Record Account := {
  Profiles : list Profile;
  CurrentProfile : option Profile;
  SelectedChannel : string;
  filePath : string
}.

Section WithCodec.
(** The keyring name of the account key and json.Marshal on an Account:
    a constant and a struct declaration that are not among the sources. *)
Variable keyName : string.
Variable marshal : Account -> result (list Z).

Definition Write (env : build.Env) (w : crypto.World) (rnd rnd' : nat -> Z)
    (a : Account) (path : string) : result unit * crypto.World :=
  match marshal a with
  | Err err => (Err (Wrap "could not marshal account data" err), w)
  | Ok data => crypto.WriteFile env w rnd rnd' path keyName data
  end.

Definition SaveFile (env : build.Env) (w : crypto.World) (rnd rnd' : nat -> Z)
    (a : Account) : result unit * crypto.World :=
  match Write env w rnd rnd' a (filePath a) with
  | (Err err, w') => (Err (Wrap "error writing account file" err), w')
  | (Ok _, w') => (Ok tt, w')
  end.

End WithCodec.

Section WithDecoder.
(** The keyring name of the account key, json.Unmarshal into an Account
    and newAccount: a constant, a struct declaration and a function that
    are not among the sources. *)
Variable keyName : string.
Variable unmarshal : list Z -> Account -> result Account.
Variable newAccount : string -> Account.

Definition ReadFile (env : build.Env) (w : crypto.World) (rnd : nat -> Z)
    (filePath : string) : result Account * crypto.World :=
  match crypto.ReadFile env w rnd filePath keyName with
  | (Err err, w') => (Err err, w')
  | (Ok data, w') =>
      match unmarshal data (newAccount filePath) with
      | Err err => (Err (Wrap "could not unmarshal account data" err), w')
      | Ok acct => (Ok acct, w')
      end
  end.

End WithDecoder.

End account.

(** * internal/auth *)
Module auth.

(** [tokenEqual] on two token pointers. *)
Definition tokenEqual (a b : option oauth2.Token) : bool :=
  match a, b with
  | Some x, Some y =>
      String.eqb (oauth2.AccessToken x) (oauth2.AccessToken y)
      && String.eqb (oauth2.RefreshToken x) (oauth2.RefreshToken y)
      && (oauth2.Expiry x =? oauth2.Expiry y)
  | None, None => true
  | _, _ => false
  end.

(** watchTokenSource: the token seen last.  Its source and its callback
    are the arguments of [Token]. *)
Record watchTokenSource := { prev : option oauth2.Token }.

(** The controller: the account, and whether an HTTP client is set. *)
Record Controller := {
  Account : option account.Account;
  client : option watchTokenSource
}.

Definition IsLoggedIn (c : Controller) : bool :=
  match Account c, client c with
  | Some _, Some _ => true
  | _, _ => false
  end.

Section WithCodec.
Variable keyName : string.
Variable marshal : account.Account -> result (list Z).
Variable env : build.Env.

Definition saveAccountLocked (c : Controller) (w : crypto.World)
    (rnd rnd' : nat -> Z) (cause : string) : crypto.World :=
  match Account c with
  | None => w
  | Some acct =>
      let w0 := crypto.slog w "requesting account save" [("cause", cause)] in
      match account.SaveFile keyName marshal env w0 rnd rnd' acct with
      | (Err err, w1) => crypto.slog w1 "unable to save account file" []
      | (Ok _, w1) => w1
      end
  end.

Definition withToken (acct : account.Account) (p : account.Profile)
    (t : account.Token) : account.Account :=
  {| account.Profiles := account.Profiles acct;
     account.CurrentProfile :=
       Some {| account.UUID := account.UUID p;
               account.Username := account.Username p;
               account.Token' := t;
               account.Entitlements := account.Entitlements p |};
     account.SelectedChannel := account.SelectedChannel acct;
     account.filePath := account.filePath acct |}.

Definition tokenChanged (c : Controller) (w : crypto.World)
    (rnd rnd' : nat -> Z) (newToken : oauth2.Token) : Controller * crypto.World :=
  match Account c with
  | None => (c, w)
  | Some acct =>
      match account.CurrentProfile acct with
      | None => (c, w)
      | Some p =>
          let oldToken := account.Token' p in
          if String.eqb (account.AccessToken oldToken) (oauth2.AccessToken newToken)
             && String.eqb (account.RefreshToken oldToken) (oauth2.RefreshToken newToken)
          then (c, w)
          else
            let w0 := crypto.slog w "oauth token(s) changed" [] in
            let c' :=
              {| Account :=
                   Some (withToken acct p
                           {| account.AccessToken := oauth2.AccessToken newToken;
                              account.RefreshToken := oauth2.RefreshToken newToken;
                              account.Expiry := oauth2.Expiry newToken |});
                 client := client c |} in
            (c', saveAccountLocked c' w0 rnd rnd' "token_changed")
      end
  end.

(** watchTokenSource.Token, with the controller's [tokenChanged] as its
    callback: [fromSource] is what the wrapped source answers. *)
Definition Token (s : watchTokenSource) (fromSource : result oauth2.Token)
    (c : Controller) (w : crypto.World) (rnd rnd' : nat -> Z)
  : result oauth2.Token * watchTokenSource * (Controller * crypto.World) :=
  match fromSource with
  | Err err => (Err err, s, (c, w))
  | Ok token =>
      if negb (tokenEqual (prev s) (Some token)) then
        (Ok token, {| prev := Some token |}, tokenChanged c w rnd rnd' token)
      else (Ok token, s, (c, w))
  end.

End WithCodec.

Section WithStorage.
Variable keyName : string.
Variable unmarshal : list Z -> account.Account -> result account.Account.
Variable newAccount : string -> account.Account.
Variable env : build.Env.
(** The package variable [storageDir]: [None] while SetStorageDir has not
    been called, else what the function it holds returns. *)
Variable storageDir : option string.

Definition getAccountFilePath (fs : os.FS) : string :=
  match storageDir with
  | None => ""
  | Some dir => crypto.DatFile fs (filepath.Join dir "account")
  end.

(** restore: the client is the watching token source, which starts from
    the token of the current profile, else of the first profile, else
    from the zero token. *)
Definition restore (c : Controller) (acct : account.Account) : Controller :=
  let profileToken :=
    match account.CurrentProfile acct with
    | Some p => account.Token' p
    | None =>
        match account.Profiles acct with
        | p :: _ => account.Token' p
        | [] => {| account.AccessToken := ""; account.RefreshToken := "";
                   account.Expiry := 0 |}
        end
    end in
  let token := {| oauth2.AccessToken := account.AccessToken profileToken;
                  oauth2.RefreshToken := account.RefreshToken profileToken;
                  oauth2.Expiry := account.Expiry profileToken |} in
  {| Account := Some acct; client := Some {| prev := Some token |} |}.

(** Init: what it returns, the controller and the world afterwards. *)
Definition Init (c : Controller) (w : crypto.World) (rnd : nat -> Z)
  : result unit * Controller * crypto.World :=
  let filePath := getAccountFilePath (crypto.fs w) in
  if String.eqb filePath "" then (Ok tt, c, w)
  else
    match account.ReadFile keyName unmarshal newAccount env w rnd filePath with
    | (Err err, w1) =>
        if Is err ErrNotExist then (Ok tt, c, w1)
        else
          let w2 := crypto.slog w1 "unable to read account file"
                      [("file", filePath)] in
          match os.Remove (crypto.fs w2) filePath with
          | Err _ =>
              (Ok tt, c,
               crypto.slog w2 "failed to remove invalid account file"
                 [("file", filePath)])
          | Ok fs' => (Ok tt, c, crypto.with_fs w2 fs')
          end
    | (Ok acct, w1) => (Ok tt, restore c acct, w1)
    end.

Definition Logout (c : Controller) (w : crypto.World)
  : result unit * Controller * crypto.World :=
  let c' := {| Account := None; client := None |} in
  let filePath := getAccountFilePath (crypto.fs w) in
  if String.eqb filePath "" then (Ok tt, c', w)
  else
    match os.Remove (crypto.fs w) filePath with
    | Err err =>
        if negb (Is err ErrNotExist) then (Err err, c', w)
        else (Ok tt, c', crypto.slog w "logged out successfully" [])
    | Ok fs' =>
        (Ok tt, c', crypto.slog (crypto.with_fs w fs') "logged out successfully" [])
    end.

End WithStorage.

End auth.
(** * github.com/google/uuid, as far as internal/playerprofile uses it *)
Module uuid.

(** A UUID is an array of 16 bytes. *)
Definition UUID := list Z.

(** The positions of the sixteen byte pairs in the 36-character form. *)
Definition offsets : list nat := [0; 2; 4; 6; 9; 11; 14; 16; 19; 21; 24; 26; 28; 30; 32; 34]%nat.

Definition xtob (l : list ascii) (x : nat) : option Z :=
  hi ← l !! x ≫= bytes.hex_value;
  lo ← l !! S x ≫= bytes.hex_value;
  Some (16 * hi + lo).

(** Parse, for the 36-character form xxxxxxxx-xxxx-xxxx-xxxx-xxxxxxxxxxxx
    (the only one this program hands it). *)
Definition Parse (s : string) : result UUID :=
  let l := list_ascii_of_string s in
  if negb (length l =? 36)%nat then Err (New "invalid UUID length")
  else if negb (forallb (fun i => bool_decide (l !! i = Some "-"%char))
                  [8; 13; 18; 23]%nat)
  then Err (New "invalid UUID format")
  else match mapM (xtob l) offsets with
       | Some u => Ok u
       | None => Err (New "invalid UUID format")
       end.

(** MustParse panics where Parse fails. *)
Definition MustParse (s : string) : result UUID :=
  match Parse s with
  | Ok u => Ok u
  | Err _ => Err (Panic ("uuid: Parse(" +:+ s +:+ ")"))
  end.

(** NewHash: the first 16 bytes of the digest of the name space followed
    by the data, with the version and the RFC 4122 variant written in. *)
Definition NewHash (h : list Z -> list Z) (space : UUID) (data : list Z)
    (version : Z) : UUID :=
  let s := h (space ++ data) in
  let u := take 16 (s ++ repeat 0 16) in
  let u6 := Z.lor (Z.land (u !!! 6%nat) 0x0f)
                  (Z.land (Z.shiftl (Z.land version 0xf) 4) 0xff) in
  let u := <[6%nat := u6]> u in
  let u8 := Z.lor (Z.land (u !!! 8%nat) 0x3f) 0x80 in
  <[8%nat := u8]> u.

Definition NewSHA1 (space : UUID) (data : list Z) : UUID :=
  NewHash sha1.Sum space data 5.

(** String: the 36-character form, in lower case. *)
Definition String (u : UUID) : string :=
  let hex a b := bytes.hex_EncodeToString (take (b - a) (drop a u)) in
  hex 0%nat 4%nat +:+ "-" +:+ hex 4%nat 6%nat +:+ "-" +:+ hex 6%nat 8%nat
  +:+ "-" +:+ hex 8%nat 10%nat +:+ "-" +:+ hex 10%nat 16%nat.

(** The name space for fully qualified domain names (RFC 4122, appendix C). *)
Definition NameSpaceDNS : UUID :=
  [0x6b; 0xa7; 0xb8; 0x10; 0x9d; 0xad; 0x11; 0xd1;
   0x80; 0xb4; 0x00; 0xc0; 0x4f; 0xd4; 0x30; 0xc8].

End uuid.

(** * internal/playerprofile *)
Module playerprofile.

Record PlayerProfile := {
  Name : string;
  UUID : string;
  CreatedAt : string
}.

(** The manager: a map from names to profile pointers ([None] as a value
    is a nil pointer; [None] for the map is the nil map), and the path of
    the file. *)
Record Manager := {
  profiles : option (gmap string (option PlayerProfile));
  filePath : string
}.

Definition New (filePath : string) : Manager :=
  {| profiles := Some ∅; filePath := filePath |}.

Definition PlayerProfile_field (p : PlayerProfile) (kv : string * json.value)
  : result PlayerProfile :=
  let '(k, v) := kv in
  if json.fold_eq k "name" then
    x ← json.into_string v (Name p);
    Ok {| Name := x; UUID := UUID p; CreatedAt := CreatedAt p |}
  else if json.fold_eq k "uuid" then
    x ← json.into_string v (UUID p);
    Ok {| Name := Name p; UUID := x; CreatedAt := CreatedAt p |}
  else if json.fold_eq k "created_at" then
    x ← json.into_string v (CreatedAt p);
    Ok {| Name := Name p; UUID := UUID p; CreatedAt := x |}
  else Ok p.

Definition PlayerProfile_of_json (v : json.value) : result (option PlayerProfile) :=
  match v with
  | json.Null => Ok None
  | json.Object fields =>
      p ← fold_left (fun acc kv => p ← acc; PlayerProfile_field p kv) fields
            (Ok {| Name := ""; UUID := ""; CreatedAt := "" |});
      Ok (Some p)
  | _ => Err ErrSyntax
  end.

(** json.Unmarshal into a nil map of profile pointers. *)
Definition Unmarshal (data : list Z)
  : result (option (gmap string (option PlayerProfile))) :=
  v ← json.parse data;
  match v with
  | json.Null => Ok None
  | json.Object fields =>
      ps ← fold_left
             (fun acc kv =>
                ps ← acc; p ← PlayerProfile_of_json kv.2; Ok (<[kv.1 := p]> ps))
             fields (Ok ∅);
      Ok (Some ps)
  | _ => Err ErrSyntax
  end.

Definition Load (m : Manager) (fs : os.FS) : result unit * Manager :=
  match os.ReadFile fs (filePath m) with
  | Err err =>
      if Is err ErrNotExist then (Ok tt, m)
      else (Err (Wrap "failed to read player profiles" err), m)
  | Ok data =>
      match Unmarshal data with
      | Err err => (Err (Wrap "failed to unmarshal player profiles" err), m)
      | Ok ps => (Ok tt, {| profiles := ps; filePath := filePath m |})
      end
  end.

Definition PlayerProfile_to_json (p : option PlayerProfile) : json.value :=
  match p with
  | None => json.Null
  | Some p => json.Object [("name", json.Str (Name p)); ("uuid", json.Str (UUID p));
                           ("created_at", json.Str (CreatedAt p))]
  end.

Definition profiles_to_json (ps : option (gmap string (option PlayerProfile)))
  : json.value :=
  match ps with
  | None => json.Null
  | Some ps =>
      json.Object (map (fun kv => (kv.1, PlayerProfile_to_json kv.2))
                       (json.sorted_entries ps))
  end.

(** saveLocked: the error, and the files afterwards. *)
Definition saveLocked (m : Manager) (fs : os.FS) : result unit * os.FS :=
  let dir := filepath.Dir (filePath m) in
  match os.MkdirAll fs dir with
  | Err err => (Err (Wrap "failed to create directory" err), fs)
  | Ok fs1 =>
      let data := json.MarshalIndent (profiles_to_json (profiles m)) in
      match os.WriteFile fs1 (filePath m) data with
      | Err err => (Err (Wrap "failed to write player profiles" err), fs1)
      | Ok fs2 => (Ok tt, fs2)
      end
  end.

Definition getTodayISO8601 : string := "2026-01-15T00:00:00Z".

(** GetOrCreateProfile: what it returns, the manager and the files
    afterwards. *)
Definition GetOrCreateProfile (m : Manager) (fs : os.FS) (playerName : string)
  : result (option PlayerProfile) * Manager * os.FS :=
  match profiles m ≫= (fun ps => ps !! playerName) with
  | Some profile => (Ok profile, m, fs)
  | None =>
      match uuid.MustParse "6ba7b810-9dad-11d1-80b4-00c04fd430c8" with
      | Err e => (Err e, m, fs)
      | Ok hytaleNamespace =>
          let playerUUID := uuid.NewSHA1 hytaleNamespace (bytes.of_string playerName) in
          let profile := {| Name := playerName; UUID := uuid.String playerUUID;
                            CreatedAt := getTodayISO8601 |} in
          match profiles m with
          | None => (Err (Panic "assignment to entry in nil map"), m, fs)
          | Some ps =>
              let m' := {| profiles := Some (<[playerName := Some profile]> ps);
                           filePath := filePath m |} in
              match saveLocked m' fs with
              | (Err err, fs') => (Err err, m', fs')
              | (Ok _, fs') => (Ok (Some profile), m', fs')
              end
          end
      end
  end.

Definition GetUUID (m : Manager) (fs : os.FS) (playerName : string)
  : result string * Manager * os.FS :=
  match GetOrCreateProfile m fs playerName with
  | (Err err, m', fs') => (Err err, m', fs')
  | (Ok None, m', fs') =>
      (Err (Panic "invalid memory address or nil pointer dereference"), m', fs')
  | (Ok (Some profile), m', fs') => (Ok (UUID profile), m', fs')
  end.

(** Save: the body of saveLocked under the read lock. *)
Definition Save (m : Manager) (fs : os.FS) : result unit * os.FS := saveLocked m fs.

(** GetProfile: the pointer the map holds for the name, nil when it holds
    none. *)
Definition GetProfile (m : Manager) (playerName : string) : option PlayerProfile :=
  match profiles m ≫= (fun ps => ps !! playerName) with
  | Some profile => profile
  | None => None
  end.

(** DeleteProfile: delete on a nil map does nothing. *)
Definition DeleteProfile (m : Manager) (fs : os.FS) (playerName : string)
  : result unit * Manager * os.FS :=
  let m' := {| profiles := delete playerName <$> profiles m;
               filePath := filePath m |} in
  let '(r, fs') := saveLocked m' fs in
  (r, m', fs').

End playerprofile.
(** * internal/ioutil: VerifySHA256 *)
Module ioutil.
Import bytes.

Definition VerifySHA256 (fs : os.FS) (path expectedHash : string) : result unit :=
  match os.named fs path with
  | None => Err (Wrap "error opening file for hashing" ErrNotExist)
  | Some os.Locked => Err (Wrap "error opening file for hashing" ErrPermission)
  | Some os.Dir => Err (Wrap "error hashing file" EISDIR)
  | Some (os.File data) =>
      let actualHash := hex_EncodeToString (sha256.Sum256 data) in
      if String.eqb actualHash expectedHash then Ok tt
      else Err (New ("checksum mismatch: expected " +:+ expectedHash
                     +:+ ", got " +:+ actualHash))
  end.

(** Reading a response body to its end. *)
Definition read_all (resp : http.Response) : result (list Z) :=
  match http.bodyError resp with
  | None => Ok (concat (http.Body resp))
  | Some err => Err err
  end.

(** Get[T]: [decode] is the decoding of a JSON value into a T; the
    result comes with the requests handed to clients so far. *)
Definition Get {T} (decode : json.value -> result T) (n : http.Net)
    (client : option http.Client) (urlStr : string)
    (params : gmap string (list string))
    (sent : list http.Request) : result T * list http.Request :=
  let client := default (http.DefaultClient n) client in
  let urlStr := if (0 <? size params)%nat
                then urlStr +:+ "?" +:+ url.Encode params else urlStr in
  match http.NewRequest n http.MethodGet urlStr with
  | Err err => (Err (Wrap "failed to create request" err), sent)
  | Ok req =>
      match http.Do client req sent with
      | (Err err, sent') => (Err (Wrap "failed to perform request" err), sent')
      | (Ok resp, sent') =>
          if negb (http.StatusCode resp =? http.StatusOK) then
            (Err (New ("unexpected status code: "
                       +:+ string_of_list_ascii (json.itoa (http.StatusCode resp)))),
             sent')
          else
            match (data ← read_all resp; v ← json.decode_first data; decode v) with
            | Err err => (Err (Wrap "failed to decode response" err), sent')
            | Ok x => (Ok x, sent')
            end
      end
  end.

(** MkdirAll and EmptyDir work on the files and the log of a world. *)
Definition MkdirAll (w : crypto.World) (path : string) : result unit * crypto.World :=
  match os.MkdirAll (crypto.fs w) path with
  | Ok fs' => (Ok tt, crypto.with_fs w fs')
  | Err err =>
      if Is err ErrExist then
        (Ok tt, crypto.slog w "directory already exists" [("path", path)])
      else (Err (Wrap "failed to create directory" err), w)
  end.

Definition EmptyDir (w : crypto.World) (path : string) : result unit * crypto.World :=
  match os.RemoveAll (crypto.fs w) path with
  | (Err err, fs') =>
      (Err (Wrap "failed to remove directory" err), crypto.with_fs w fs')
  | (Ok _, fs') =>
      match MkdirAll (crypto.with_fs w fs') path with
      | (Err err, w') => (Err (Wrap "failed to create directory" err), w')
      | (Ok _, w') => (Ok tt, w')
      end
  end.

End ioutil.

(** * internal/repair: Verify *)
Module repair.

(** [type FileStatus int] with its three constants. *)
Definition FileStatus := Z.
Definition FileStatusOK : FileStatus := 0.
Definition FileStatusMissing : FileStatus := 1.
Definition FileStatusCorrupted : FileStatus := 2.

Record FileResult := {
  Path : string;
  Status : FileStatus;
  ExpectedHash : string;
  ActualHash : string;
  Error : option error
}.

Record Result := {
  TotalFiles : nat;
  OKFiles : nat;
  MissingFiles : list FileResult;
  CorruptedFiles : list FileResult;
  Errors : list FileResult
}.

Definition IsHealthy (r : Result) : bool :=
  (length (MissingFiles r) =? 0)%nat && (length (CorruptedFiles r) =? 0)%nat
  && (length (Errors r) =? 0)%nat.

Definition NeedsRepair (r : Result) : bool :=
  (0 <? length (MissingFiles r))%nat || (0 <? length (CorruptedFiles r))%nat.

Definition verifyFile (fs : os.FS) (fullPath relativePath expectedHash : string)
  : FileResult :=
  let result := {| Path := relativePath; Status := FileStatusOK;
                   ExpectedHash := expectedHash; ActualHash := "";
                   Error := None |} in
  match os.Stat fs fullPath with
  | Err err =>
      if IsNotExist err then
        {| Path := relativePath; Status := FileStatusMissing;
           ExpectedHash := expectedHash; ActualHash := ""; Error := None |}
      else
        {| Path := relativePath; Status := FileStatusCorrupted;
           ExpectedHash := expectedHash; ActualHash := ""; Error := Some err |}
  | Ok info =>
      if os.IsDir info then result
      else
        match ioutil.VerifySHA256 fs fullPath expectedHash with
        | Err err =>
            {| Path := relativePath; Status := FileStatusCorrupted;
               ExpectedHash := expectedHash; ActualHash := ""; Error := Some err |}
        | Ok _ => result
        end
  end.

(** One turn of the loop of [Verify] over an entry of the map. *)
Definition verifyStep (fs : os.FS) (installDir : string) (result : Result)
    (entry : string * string) : Result :=
  let '(relativePath, expectedHash) := entry in
  let fullPath := filepath.Join installDir relativePath in
  let fileResult := verifyFile fs fullPath relativePath expectedHash in
  if Status fileResult =? FileStatusOK then
    {| TotalFiles := TotalFiles result; OKFiles := S (OKFiles result);
       MissingFiles := MissingFiles result;
       CorruptedFiles := CorruptedFiles result; Errors := Errors result |}
  else if Status fileResult =? FileStatusMissing then
    {| TotalFiles := TotalFiles result; OKFiles := OKFiles result;
       MissingFiles := MissingFiles result ++ [fileResult];
       CorruptedFiles := CorruptedFiles result; Errors := Errors result |}
  else if Status fileResult =? FileStatusCorrupted then
    {| TotalFiles := TotalFiles result; OKFiles := OKFiles result;
       MissingFiles := MissingFiles result;
       CorruptedFiles := CorruptedFiles result ++ [fileResult];
       Errors := Errors result |}
  else
    match Error fileResult with
    | Some _ =>
        {| TotalFiles := TotalFiles result; OKFiles := OKFiles result;
           MissingFiles := MissingFiles result;
           CorruptedFiles := CorruptedFiles result;
           Errors := Errors result ++ [fileResult] |}
    | None => result
    end.

(** [Verify].  Go ranges over a map in an order of its own choosing:
    [order] is the order of this run, any enumeration of [checksums].  The
    reporter is called once per entry and changes nothing; its calls are
    the second component. *)
Definition Verify (fs : os.FS) (installDir : string)
    (checksums : gmap string string) (order : list (string * string))
  : result Result * list (nat * nat * string) :=
  if (size checksums =? 0)%nat then
    (Err (New "no checksums provided for verification"), [])
  else
    let start := {| TotalFiles := size checksums; OKFiles := 0;
                    MissingFiles := []; CorruptedFiles := []; Errors := [] |} in
    (Ok (fold_left (verifyStep fs installDir) order start),
     imap (fun i e => (S i, size checksums, e.1)) order).

Definition VerifyDirectory := Verify.

End repair.
(** * internal/download: DownloadTemp *)
Module download.

(** strings.Cut at the first question mark: what comes before it. *)
Fixpoint before_query (l : list ascii) : list ascii :=
  match l with
  | [] => []
  | c :: rest => if Ascii.eqb c "?"%char then [] else c :: before_query rest
  end.

Definition base (url : string) : string :=
  filepath.Base (string_of_list_ascii (before_query (list_ascii_of_string url))).

Definition checkOffline (n : http.Net) : option error := net.OfflineError n.

Definition verifySHA256 (fs : os.FS) (path expectedHash : string) : result unit :=
  ioutil.VerifySHA256 fs path expectedHash.

(** The read loop of [downloadFile].  [ctx i] is the error of the context
    at the i-th turn, if it is done by then; [chunks] and [tail] are what
    the reads of the body give.  The progress reports, paced by the clock,
    touch neither the file nor the result and are left out. *)
Fixpoint copy_body (ctx : nat -> option error) (i : nat) (chunks : list (list Z))
    (tail : option error) (fs : os.FS) (file : string) : option error * os.FS :=
  match ctx i with
  | Some err => (Some err, fs)
  | None =>
      match chunks with
      | [] => (tail, fs)
      | c :: rest =>
          if (0 <? length c)%nat then
            match os.Append fs file c with
            | Err writeErr => (Some writeErr, fs)
            | Ok fs' => copy_body ctx (S i) rest tail fs' file
            end
          else copy_body ctx (S i) rest tail fs file
      end
  end.

(** downloadFile: its error, the files and the requests afterwards. *)
Definition downloadFile (n : http.Net) (ctx : nat -> option error)
    (client : http.Client) (url : string) (fs : os.FS) (file : string)
    (sent : list http.Request) : option error * os.FS * list http.Request :=
  match checkOffline n with
  | Some err => (Some err, fs, sent)
  | None =>
      match http.NewRequest n http.MethodGet url with
      | Err err => (Some err, fs, sent)
      | Ok req =>
          match http.Do client req sent with
          | (Err err, sent') => (Some err, fs, sent')
          | (Ok resp, sent') =>
              if http.StatusCode resp =? http.StatusNotFound then (None, fs, sent')
              else if negb (http.StatusCode resp =? http.StatusOK) then
                (Some (New ("bad status: " +:+ http.Status resp)), fs, sent')
              else
                let '(err, fs') :=
                  copy_body ctx 0 (http.Body resp) (http.bodyError resp) fs file in
                (err, fs', sent')
          end
      end
  end.

(** The deferred clean-up of DownloadTemp when it did not succeed: the
    temporary file is removed, and the outcome of that is ignored. *)
Definition discard (fs : os.FS) (name : string) : os.FS :=
  match os.Remove fs name with
  | Ok fs' => fs'
  | Err _ => fs
  end.

(** DownloadTemp: [rnd] is what CreateTemp draws for the name. *)
Definition DownloadTemp (n : http.Net) (ctx : nat -> option error)
    (client : http.Client) (fs : os.FS) (rnd : string) (sent : list http.Request)
    (dir url sha256 : string) : result string * os.FS * list http.Request :=
  match os.MkdirAll fs dir with
  | Err err => (Err err, fs, sent)
  | Ok fs1 =>
      let pattern := "dl-*-" +:+ base url in
      match os.CreateTemp fs1 dir pattern rnd with
      | Err err => (Err err, fs1, sent)
      | Ok (fs2, name) =>
          match downloadFile n ctx client url fs2 name sent with
          | (Some err, fs3, sent') =>
              if Is err Canceled then (Err Canceled, discard fs3 name, sent')
              else (Err (Wrap ("error downloading file from " +:+ strconv.Quote url) err),
                    discard fs3 name, sent')
          | (None, fs3, sent') =>
              if negb (String.eqb sha256 "") then
                match verifySHA256 fs3 name sha256 with
                | Err err => (Err err, discard fs3 name, sent')
                | Ok _ => (Ok name, fs3, sent')
                end
              else (Ok name, fs3, sent')
          end
      end
  end.

(** DownloadTempSimple: the default client, no checksum; [cacheDir] is
    the cache directory that hytale.InStorageDir names. *)
Definition DownloadTempSimple (cacheDir : string) (n : http.Net)
    (ctx : nat -> option error) (fs : os.FS) (rnd : string)
    (sent : list http.Request) (url : string)
  : result string * os.FS * list http.Request :=
  match os.MkdirAll fs cacheDir with
  | Err err => (Err err, fs, sent)
  | Ok fs1 => DownloadTemp n ctx (http.DefaultClient n) fs1 rnd sent cacheDir url ""
  end.

(** shouldReportProgress of reporter.go, on binary64 values. *)
Definition shouldReportProgress (lastProgress currentProgress : throttle.float64)
  : bool :=
  if throttle.f64_ltb currentProgress throttle.c_0_01 then true
  else if throttle.f64_leb throttle.c_0_99 currentProgress then true
  else throttle.f64_leb throttle.c_0_01
         (throttle.f64_sub currentProgress lastProgress).

End download.
(** * internal/extract *)
Module extract.

(** strings.Index(path, "/") and the slice after it. *)
Fixpoint after_first_slash (l : list ascii) : option (list ascii) :=
  match l with
  | [] => None
  | c :: rest => if Ascii.eqb c "/"%char then Some rest else after_first_slash rest
  end.

Definition StripRootDir (path : string) : string :=
  match after_first_slash (list_ascii_of_string path) with
  | None => ""
  | Some rest => string_of_list_ascii rest
  end.

Definition illegal (name : string) : error :=
  New ("illegal file path in archive: " +:+ name).

Definition safePath (destDir name : string) : result string :=
  let fullPath := filepath.Join destDir name in
  let cleanDest := filepath.Clean destDir +:+ String filepath.Separator "" in
  let cleanFull := filepath.Clean fullPath in
  if filepath.HasPrefix cleanFull cleanDest
     || String.eqb cleanFull (filepath.Clean destDir)
  then Ok fullPath
  else Err (illegal name).

(** A NameTransformerFunc, or nil. *)
Definition NameTransformerFunc := option (string -> string).

Definition transform (t : NameTransformerFunc) (name : string) : string :=
  match t with
  | Some f => f name
  | None => name
  end.

(** A member of a zip archive: its name, whether its mode says directory,
    and what opening and reading it gives. *)
Record ZipFile := {
  zName : string;
  zIsDir : bool;
  zBody : result (list Z)
}.

(** What zip.OpenReader gives on the archive. *)
Definition ZipArchive := result (list ZipFile).

(** tar type flags (bytes). *)
Definition TypeReg : Z := 48.
Definition TypeDir : Z := 53.

Record TarEntry := {
  tName : string;
  Typeflag : Z;
  tBody : list Z
}.

(** What reading a .tar.gz gives: the error of os.Open or of the gzip
    header if any, the entries the tar reader yields, and the error that
    ends them (none: io.EOF). *)
Record TarGzArchive := {
  openError : option error;
  gzipError : option error;
  entries : list TarEntry;
  readError : option error
}.

(** The progress function is called after each file written and has no
    part in the result; what its presence changes, the counting pass of
    [extractTarGz], is what is kept of it. *)

Definition extractZipFile (fs : os.FS) (f : ZipFile) (destDir : string)
    (nameTransformer : NameTransformerFunc) : result os.FS :=
  let name := transform nameTransformer (zName f) in
  if String.eqb name "" then Ok fs
  else
    destPath ← safePath destDir name;
    if zIsDir f then os.MkdirAll fs destPath
    else
      fs1 ← os.MkdirAll fs (filepath.Dir destPath);
      body ← zBody f;
      os.WriteFile fs1 destPath body.

Fixpoint extractZip_loop (fs : os.FS) (files : list ZipFile) (destDir : string)
    (nameTransformer : NameTransformerFunc) : result unit * os.FS :=
  match files with
  | [] => (Ok tt, fs)
  | f :: rest =>
      match extractZipFile fs f destDir nameTransformer with
      | Err err => (Err err, fs)
      | Ok fs' => extractZip_loop fs' rest destDir nameTransformer
      end
  end.

Definition extractZip (fs : os.FS) (archive : ZipArchive) (destDir : string)
    (nameTransformer : NameTransformerFunc) : result unit * os.FS :=
  match archive with
  | Err err => (Err err, fs)
  | Ok files =>
      match os.MkdirAll fs destDir with
      | Err err => (Err err, fs)
      | Ok fs1 => extractZip_loop fs1 files destDir nameTransformer
      end
  end.

Definition countTarGzFiles (archive : TarGzArchive) : result nat :=
  match gzipError archive, readError archive with
  | Some err, _ => Err err
  | None, Some err => Err err
  | None, None =>
      Ok (length (filter (fun e => Typeflag e = TypeReg) (entries archive)))
  end.

(** One entry of the loop of [extractTarGz]. *)
Definition extractTarEntry (fs : os.FS) (e : TarEntry) (destDir : string)
    (nameTransformer : NameTransformerFunc) : result os.FS :=
  let name := transform nameTransformer (tName e) in
  if String.eqb name "" then Ok fs
  else
    destPath ← safePath destDir name;
    if Typeflag e =? TypeDir then os.MkdirAll fs destPath
    else if Typeflag e =? TypeReg then
      fs1 ← os.MkdirAll fs (filepath.Dir destPath);
      os.WriteFile fs1 destPath (tBody e)
    else Ok fs.

Fixpoint extractTarGz_loop (fs : os.FS) (es : list TarEntry)
    (readErr : option error) (destDir : string)
    (nameTransformer : NameTransformerFunc) : result unit * os.FS :=
  match es with
  | [] =>
      match readErr with
      | None => (Ok tt, fs)
      | Some err => (Err err, fs)
      end
  | e :: rest =>
      match extractTarEntry fs e destDir nameTransformer with
      | Err err => (Err err, fs)
      | Ok fs' => extractTarGz_loop fs' rest readErr destDir nameTransformer
      end
  end.

(** [extractTarGz]; [progress] tells whether a progress function is given
    (then the entries are counted first, and a count that fails ends the
    extraction). *)
Definition extractTarGz (fs : os.FS) (archive : TarGzArchive) (destDir : string)
    (progress : bool) (nameTransformer : NameTransformerFunc)
  : result unit * os.FS :=
  match openError archive with
  | Some err => (Err err, fs)
  | None =>
      match os.MkdirAll fs destDir with
      | Err err => (Err err, fs)
      | Ok fs1 =>
          match (if progress then countTarGzFiles archive else Ok 0%nat) with
          | Err err => (Err err, fs1)
          | Ok _ =>
              match gzipError archive with
              | Some err => (Err err, fs1)
              | None =>
                  extractTarGz_loop fs1 (entries archive) (readError archive)
                                    destDir nameTransformer
              end
          end
      end
  end.

(** The archive file at a path, as each reader sees it. *)
Record ArchiveFile := {
  asZip : ZipArchive;
  asTarGz : TarGzArchive
}.

Definition lower (c : ascii) : ascii :=
  let n := nat_of_ascii c in
  if (65 <=? n)%nat && (n <=? 90)%nat then ascii_of_nat (n + 32) else c.
Definition ToLower (s : string) : string :=
  string_of_list_ascii (map lower (list_ascii_of_string s)).

Definition dispatch (fs : os.FS) (archivePath : string) (archive : ArchiveFile)
    (destDir : string) (progress : bool) (nameTransformer : NameTransformerFunc)
  : result unit * os.FS :=
  let ext := ToLower (filepath.Ext archivePath) in
  if String.eqb ext ".zip" then
    extractZip fs (asZip archive) destDir nameTransformer
  else if String.eqb ext ".gz" || String.eqb ext ".tgz" then
    extractTarGz fs (asTarGz archive) destDir progress nameTransformer
  else (Err (New ("unsupported archive format: " +:+ ext)), fs).

Definition ArchiveWithoutCleanup (fs : os.FS) (archivePath : string)
    (archive : ArchiveFile) (destDir : string) (progress : bool)
    (nameTransformer : NameTransformerFunc) : result unit * os.FS :=
  match os.MkdirAll fs destDir with
  | Err err => (Err (Wrap "failed to create destination directory" err), fs)
  | Ok fs1 => dispatch fs1 archivePath archive destDir progress nameTransformer
  end.

Definition Archive (fs : os.FS) (archivePath : string)
    (archive : ArchiveFile) (destDir : string) (progress : bool)
    (nameTransformer : NameTransformerFunc) : result unit * os.FS :=
  match os.RemoveAll fs destDir with
  | (Err err, fs1) => (Err (Wrap "failed to remove existing directory" err), fs1)
  | (Ok _, fs1) => dispatch fs1 archivePath archive destDir progress nameTransformer
  end.

(** [inside destDir p]: what safePath tests.  The cleaned path [p] is the
    cleaned [destDir] or starts with it followed by the separator, as
    spelled: nothing is resolved against a working directory. *)
Definition inside (destDir p : string) : bool :=
  String.eqb p (filepath.Clean destDir)
  || String.prefix (filepath.Clean destDir +:+ "/") p.

(** [settled destDir fs fs']: but at or below [destDir], [fs'] is [fs]
    with directories created where nothing was. *)
Definition settled (destDir : string) (fs fs' : os.FS) : Prop :=
  forall p, os.under (os.key destDir) p = false ->
    fs' !! p = fs !! p \/ (fs !! p = None /\ fs' !! p = Some os.Dir).

End extract.
(** * internal/helper: signature files *)
Module helper.

Definition sigFilePath (env : build.Env) (state : appstate.State) (version : string)
  : string :=
  filepath.Join (hytale.PackageDir env "game" (appstate.Channel state) "")
                (version +:+ ".sig").

Definition RemoveSig (env : build.Env) (w : crypto.World) (state : appstate.State)
    (version : string) : result unit * crypto.World :=
  let sigPath := sigFilePath env state version in
  let w0 := crypto.slog w "removing signature file" [("path", sigPath)] in
  match os.Remove (crypto.fs w0) sigPath with
  | Err err =>
      if IsNotExist err then
        (Ok tt, crypto.slog w0 "signature file does not exist" [("path", sigPath)])
      else (Err (Wrap "failed to remove signature file" err), w0)
  | Ok fs' =>
      (Ok tt,
       crypto.slog (crypto.with_fs w0 fs') "signature file removed" [("path", sigPath)])
  end.

Definition SaveSig (env : build.Env) (w : crypto.World) (state : appstate.State)
    (version : string) (signature : list Z) : result unit * crypto.World :=
  let sigPath := sigFilePath env state version in
  let dir := filepath.Dir sigPath in
  match os.MkdirAll (crypto.fs w) dir with
  | Err err => (Err (Wrap "failed to create signature directory" err), w)
  | Ok fs1 =>
      let w1 := crypto.slog (crypto.with_fs w fs1) "saving signature file"
                  [("path", sigPath)] in
      match os.WriteFile (crypto.fs w1) sigPath signature with
      | Err err => (Err (Wrap "failed to write signature file" err), w1)
      | Ok fs2 =>
          (Ok tt,
           crypto.slog (crypto.with_fs w1 fs2) "signature file saved"
             [("path", sigPath)])
      end
  end.

(** LoadSig: [None] is the nil slice returned for a missing file. *)
Definition LoadSig (env : build.Env) (w : crypto.World) (state : appstate.State)
    (version : string) : result (option (list Z)) * crypto.World :=
  let sigPath := sigFilePath env state version in
  let w0 := crypto.slog w "loading signature file" [("path", sigPath)] in
  match os.ReadFile (crypto.fs w0) sigPath with
  | Err err =>
      if IsNotExist err then (Ok None, w0)
      else (Err (Wrap "failed to read signature file" err), w0)
  | Ok data => (Ok (Some data), w0)
  end.

End helper.

(** * internal/legalfiles *)
Module legalfiles.

Definition alreadyExists (w : crypto.World) (path : string) (expectedSize : nat)
  : bool * crypto.World :=
  match os.Stat (crypto.fs w) path with
  | Err err =>
      if Is err ErrNotExist then (false, w)
      else (false, crypto.slog w "error checking if legal file exists"
                     [("path", path)])
  | Ok info =>
      if negb (os.Size info =? expectedSize)%nat then
        (false, crypto.slog w "legal file exists but size does not match expected"
                  [("path", path)])
      else (true, w)
  end.

Definition Extract (w : crypto.World) (path : string) (data : list Z)
  : result unit * crypto.World :=
  match alreadyExists w path (length data) with
  | (true, w1) =>
      (Ok tt, crypto.slog w1 "legal file already exists with expected size"
                [("path", path)])
  | (false, w1) =>
      let w2 := crypto.slog w1 "creating legal file" [("path", path)] in
      match os.WriteFile (crypto.fs w2) path data with
      | Err err =>
          (Err (Wrap ("could not create legal file " +:+ strconv.Quote path) err), w2)
      | Ok fs' => (Ok tt, crypto.with_fs w2 fs')
      end
  end.

End legalfiles.

(** * internal/update: the list of updates *)
Module update.

Record Item := {
  Name : string;
  Version : string;
  CurrentVersion : string;
  IsBlocking : bool;
  Size : Z;
  Description : string
}.

Record List := {
  Updates : list Item;
  HasBlockingUpdate : bool
}.

Definition IsEmpty (l : List) : bool := (length (Updates l) =? 0)%nat.

Definition Add (l : List) (item : Item) : List :=
  {| Updates := Updates l ++ [item];
     HasBlockingUpdate := if IsBlocking item then true else HasBlockingUpdate l |}.

Definition Clear (l : List) : List :=
  {| Updates := []; HasBlockingUpdate := false |}.

End update.

(** * internal/app: validating the game files *)
Module app.

(** What ValidateGameFiles emits to the frontend. *)
Inductive Event :=
  | ValidateProgress (current total : nat) (progress : throttle.float64)
                     (path : string)
  | ValidateFailed (missing corrupted : nat)
  | ValidateSuccess.

(** float64(n) for an int. *)
Definition f64_of_int (n : nat) : throttle.float64 :=
  throttle.f64_of (Z.of_nat n) 0.

(** The reporter closure of ValidateGameFiles on one call. *)
Definition reporter (call : nat * nat * string) : Event :=
  let '(current, total, path) := call in
  ValidateProgress current total
    (SFdiv 53 1024 (f64_of_int current) (f64_of_int total)) path.

Section WithState.
(** State.GetDependency is not among the sources. *)
Variable GetDependency : appstate.State -> string -> option appstate.Dep.

(** ValidateGameFiles: [State] is the state field of the App, [order] the
    order in which this run ranges over the checksum map. *)
Definition ValidateGameFiles (State : option appstate.State) (w : crypto.World)
    (order : list (string * string)) : result unit * crypto.World * list Event :=
  match State with
  | None => (Err (New "no channel selected"), w, [])
  | Some s =>
      match GetDependency s "game" with
      | None => (Err (New "game not installed"), w, [])
      | Some gameDep =>
          let w1 := crypto.slog w "validating game files"
                      [("channel", appstate.Channel s);
                       ("version", appstate.Version gameDep)] in
          let checksums : gmap string string := ∅ in
          match repair.Verify (crypto.fs w1) (appstate.Path gameDep) checksums order with
          | (Err err, calls) => (Err err, w1, map reporter calls)
          | (Ok result, calls) =>
              if negb (repair.IsHealthy result) then
                (Ok tt, w1,
                 map reporter calls
                 ++ [ValidateFailed (length (repair.MissingFiles result))
                                    (length (repair.CorruptedFiles result))])
              else (Ok tt, w1, map reporter calls ++ [ValidateSuccess])
          end
      end
  end.

End WithState.

End app.
(** * Sample environments used by the examples *)
Module samples.

Definition releaseEnv : build.Env :=
  {| build.Release := "release"; build.Version := "2026-01-10-c3879fa";
     build.GOOS := "linux"; build.GOARCH := "amd64";
     build.StorageDir := "/home/u/.local/share/hytale";
     build.DataDir := "/home/u/.local/share/hytale";
     build.EnableKeyring := true |}.

Definition devEnv : build.Env :=
  {| build.Release := "dev"; build.Version := "2026-01-10-c3879fa";
     build.GOOS := "linux"; build.GOARCH := "amd64";
     build.StorageDir := "/home/u/.local/share/hytale";
     build.DataDir := "/home/u/.local/share/hytale";
     build.EnableKeyring := true |}.

Definition arm64Env : build.Env :=
  {| build.Release := "release"; build.Version := "2026-01-10-c3879fa";
     build.GOOS := "linux"; build.GOARCH := "arm64";
     build.StorageDir := "/home/u/.local/share/hytale";
     build.DataDir := "/home/u/.local/share/hytale";
     build.EnableKeyring := true |}.

(** A release build on Linux where HYTALE_LAUNCHER_ENABLE_KEYRING is not
    set, and one on macOS. *)
Definition plainLinuxEnv : build.Env :=
  {| build.Release := "release"; build.Version := "2026-01-10-c3879fa";
     build.GOOS := "linux"; build.GOARCH := "amd64";
     build.StorageDir := "/home/u/.local/share/hytale";
     build.DataDir := "/home/u/.local/share/hytale";
     build.EnableKeyring := false |}.

Definition darwinEnv : build.Env :=
  {| build.Release := "release"; build.Version := "2026-01-10-c3879fa";
     build.GOOS := "darwin"; build.GOARCH := "arm64";
     build.StorageDir := "/Users/u/Library/Application Support/Hytale";
     build.DataDir := "/Users/u/Library/Application Support/Hytale";
     build.EnableKeyring := false |}.

(** A source of "random" bytes and a 32-byte key. *)
Definition rnd (i : nat) : Z := (Z.of_nat i * 37 + 11) mod 256.
Definition key32 : list Z := map (fun i => Z.of_nat i) (seq 0 32).

Definition unhex (s : string) : list Z :=
  default [] (bytes.hex_decode (list_ascii_of_string s)).

(** A credential store that works and holds nothing. *)
Definition noCreds : keyring.Credentials :=
  {| keyring.secrets := ∅; keyring.failure := None |}.

(** A credential store holding [key32] for every key name in use, and a
    file system with the storage directory and the release channel. *)
Definition creds : keyring.Credentials :=
  {| keyring.secrets :=
       {[ (keyring.ServiceName, "B7F94324-4365-4EB7-A3FC-7FADAA2EEA2F") := key32 ]};
     keyring.failure := None |}.

Definition disk : os.FS :=
  {[ "/home" := os.Dir; "/home/u" := os.Dir; "/home/u/.local" := os.Dir;
     "/home/u/.local/share" := os.Dir;
     "/home/u/.local/share/hytale" := os.Dir;
     "/home/u/.local/share/hytale/release" := os.Dir ]}.

Definition world : crypto.World :=
  {| crypto.fs := disk; crypto.creds := creds; crypto.journal := [] |}.

(** A state of the release channel installed on linux-amd64, and one
    that records no platform. *)
Definition installed : appstate.State :=
  {| appstate.Channel := "release"; appstate.IsNew := false;
     appstate.Platform := Some {| build.OS := "linux"; build.Arch := "amd64" |};
     appstate.Dependencies :=
       {[ "game" := {| appstate.Name := "game"; appstate.Version := "build-42";
                       appstate.BuildID := 42;
                       appstate.Path := "/home/u/.local/share/hytale/release/package/game/latest" |};
          "jre" := {| appstate.Name := "jre"; appstate.Version := "17.0.9";
                      appstate.BuildID := 3;
                      appstate.Path := "/home/u/.local/share/hytale/release/package/jre/latest" |} ]};
     appstate.OfflineReady := true |}.


(** An account with one profile, and a JSON form for accounts. *)
Definition Token_to_json (t : account.Token) : json.value :=
  json.Object [("access_token", json.Str (account.AccessToken t));
               ("refresh_token", json.Str (account.RefreshToken t));
               ("expiry", json.Number (account.Expiry t))].

Definition Profile_to_json (p : account.Profile) : json.value :=
  json.Object [("uuid", json.Str (account.UUID p));
               ("username", json.Str (account.Username p));
               ("token", Token_to_json (account.Token' p));
               ("entitlements", json.Array (map json.Str (account.Entitlements p)))].

Definition marshalAccount (a : account.Account) : result (list Z) :=
  Ok (json.Marshal
        (json.Object
           [("profiles", json.Array (map Profile_to_json (account.Profiles a)));
            ("current_profile",
             from_option Profile_to_json json.Null (account.CurrentProfile a));
            ("selected_channel", json.Str (account.SelectedChannel a))])).

Definition steve : account.Profile :=
  {| account.UUID := "0b7b1d5c-6f0e-4c42-8a67-2d0d8d3c1a11";
     account.Username := "steve";
     account.Token' := {| account.AccessToken := "access-1";
                          account.RefreshToken := "refresh-1";
                          account.Expiry := 1767225600 |};
     account.Entitlements := ["patchline:release"] |}.

Definition steves : account.Account :=
  {| account.Profiles := [steve]; account.CurrentProfile := Some steve;
     account.SelectedChannel := "release";
     account.filePath := "/home/u/.local/share/hytale/account.dat" |}.

Definition controller : auth.Controller :=
  {| auth.Account := Some steves;
     auth.client := Some {| auth.prev :=
       Some {| oauth2.AccessToken := "access-1"; oauth2.RefreshToken := "refresh-1";
               oauth2.Expiry := 1767225600 |} |} |}.

Definition rotated : oauth2.Token :=
  {| oauth2.AccessToken := "access-2"; oauth2.RefreshToken := "refresh-2";
     oauth2.Expiry := 1767229200 |}.

(** The network: a patch server that has no patch from build 42 to 43,
    and a news feed. *)
Definition patchURL : string :=
  "https://game-patches.hytale.com/patches/linux/amd64/release/42/43.pwr?sig=9f2c".
Definition feedURL : string := "https://launcher.hytale.com/launcher-feed/release/feed.json".

(** A bare file system, once /tmp is made, and once a download into it
    has its temporary file. *)
Definition bare : os.FS := ∅.
Definition withTmp : os.FS := {[ "/tmp" := os.Dir ]}.
Definition withTemp : os.FS := <["/tmp/dl-4021-43.pwr" := os.File []]> withTmp.
Definition patchRequest : http.Request :=
  {| http.Method := "GET"; http.URL := patchURL; http.Header' := ∅ |}.
Definition noPatch : http.Response :=
  {| http.StatusCode := 404; http.Status := "404 Not Found";
     http.Body := [bytes.of_string "no such patch"]; http.bodyError := None |}.

Definition answer (req : http.Request) : result http.Response :=
  if String.eqb (http.URL req) patchURL then Ok noPatch
  else if String.eqb (http.URL req) feedURL then
    Ok {| http.StatusCode := 200; http.Status := "200 OK";
          http.Body := [bytes.of_string "{ }"]; http.bodyError := None |}
  else
    Ok {| http.StatusCode := 503; http.Status := "503 Service Unavailable";
          http.Body := []; http.bodyError := None |}.

Definition online : http.Net :=
  {| http.offline := false; http.offlineOverride := false;
     http.urlError := fun _ => None; http.DefaultClient := answer |}.

(** A context that is never done. *)
Definition background : nat -> option error := fun _ => None.

Definition cacheDir : string := "/home/u/.local/share/hytale/cache".

(** The request for the feed and its answer, and the file system once a
    download of the feed into /tmp has its temporary file. *)
Definition feedRequest : http.Request :=
  {| http.Method := "GET"; http.URL := feedURL; http.Header' := ∅ |}.
Definition feedAnswer : http.Response :=
  {| http.StatusCode := 200; http.Status := "200 OK";
     http.Body := [bytes.of_string "{ }"]; http.bodyError := None |}.
Definition withFeedTemp : os.FS := <["/tmp/dl-4021-feed.json" := os.File []]> withTmp.


(** A small launcher archive, as a .tar.gz and as a .zip. *)
Definition tarRun : extract.TarEntry :=
  {| extract.tName := "launcher/bin/run"; extract.Typeflag := extract.TypeReg;
     extract.tBody := [35; 33; 47; 98; 105; 110] |}.
Definition tarball : extract.TarGzArchive :=
  {| extract.openError := None; extract.gzipError := None;
     extract.readError := None;
     extract.entries :=
       [ {| extract.tName := "launcher/"; extract.Typeflag := extract.TypeDir;
            extract.tBody := [] |};
         tarRun;
         {| extract.tName := "launcher/README"; extract.Typeflag := extract.TypeReg;
            extract.tBody := [72; 105] |} ] |}.

Definition zipRun : extract.ZipFile :=
  {| extract.zName := "launcher/bin/run"; extract.zIsDir := false;
     extract.zBody := Ok [35; 33; 47; 98; 105; 110] |}.
Definition zipball : list extract.ZipFile :=
  [ {| extract.zName := "launcher/"; extract.zIsDir := true; extract.zBody := Ok [] |};
    zipRun;
    {| extract.zName := "launcher/README"; extract.zIsDir := false;
       extract.zBody := Ok [72; 105] |} ].

End samples.
(** * Notions used in the statements *)

(** [dirs_added fs fs']: [fs'] is [fs] with directories created where
    nothing was. *)
Definition dirs_added (fs fs' : os.FS) : Prop :=
  forall p, fs' !! p = fs !! p \/ (fs !! p = None /\ fs' !! p = Some os.Dir).

(** [escapes d t name]: the member name, once transformed, is not empty
    and its cleaned destination is outside [d]. *)
Definition escapes (d : string) (t : extract.NameTransformerFunc) (name : string)
  : Prop :=
  extract.transform t name <> "" /\
  extract.inside d (filepath.Clean (filepath.Join d (extract.transform t name)))
  = false.



(** The version 5 UUID of a name in the DNS name space, as text. *)
Definition v5 (n : string) : string :=
  uuid.String (uuid.NewSHA1 uuid.NameSpaceDNS (bytes.of_string n)).

(** The map of the manager holds no entry for the name (and is not the
    nil map). *)
Definition no_profile (m : playerprofile.Manager) (n : string) : Prop :=
  exists ps, playerprofile.profiles m = Some ps /\ ps !! n = None.

(** The manager once the profile of a new name is in its map. *)
Definition created (m : playerprofile.Manager) (n : string) : playerprofile.Manager :=
  {| playerprofile.profiles :=
       (fun ps => <[n := Some {| playerprofile.Name := n; playerprofile.UUID := v5 n;
                                 playerprofile.CreatedAt := playerprofile.getTodayISO8601 |}]> ps)
       <$> playerprofile.profiles m;
     playerprofile.filePath := playerprofile.filePath m |}.

(** The file system [fs] is [base] with a regular file at the key of
    [name], which [base] does not have. *)
Definition holds_temp (base : os.FS) (name : string) (fs : os.FS) : Prop :=
  String.eqb name "" = false /\ os.root_like (os.key name) = false /\
  base !! os.key name = None /\
  exists d, fs = <[os.key name := os.File d]> base.

(** The checksum of a file without content, as VerifySHA256 writes it. *)
Definition emptyHash : string := bytes.hex_EncodeToString (sha256.Sum256 []).

(** A request as NewRequest makes it: no header at all. *)
Definition headerless (req : http.Request) : Prop := http.Header' req = ∅.

(** The requests handed to clients by a call: those after [sent]. *)
Definition handed (sent after : list http.Request) : list http.Request :=
  drop (length sent) after.

(** The key lengths that aes.NewCipher accepts. *)
Definition key_size_ok (k : list Z) : bool :=
  let n := length k in (n =? 16)%nat || (n =? 24)%nat || (n =? 32)%nat.

(** The name has no slash in it. *)
Definition no_slash (s : string) : bool :=
  forallb (fun c => negb (Ascii.eqb c "/"%char)) (list_ascii_of_string s).

(** The extension of an archive path, as the dispatch on it reads it, is
    one of those it knows. *)
Definition known_format (archivePath : string) : bool :=
  let ext := extract.ToLower (filepath.Ext archivePath) in
  String.eqb ext ".zip" || String.eqb ext ".gz" || String.eqb ext ".tgz".

(** Where a member goes, and whether the extraction writes a file for it:
    a regular tar entry, or a zip member that is no directory, with a name
    that is not empty once transformed. *)
Definition tarDest (d : string) (t : extract.NameTransformerFunc)
    (e : extract.TarEntry) : string :=
  filepath.Join d (extract.transform t (extract.tName e)).
Definition tarWrites (t : extract.NameTransformerFunc) (e : extract.TarEntry) : bool :=
  (extract.Typeflag e =? extract.TypeReg)
  && negb (String.eqb (extract.transform t (extract.tName e)) "").
Definition zipDest (d : string) (t : extract.NameTransformerFunc)
    (f : extract.ZipFile) : string :=
  filepath.Join d (extract.transform t (extract.zName f)).
Definition zipWrites (t : extract.NameTransformerFunc) (f : extract.ZipFile) : bool :=
  negb (extract.zIsDir f)
  && negb (String.eqb (extract.transform t (extract.zName f)) "").

(** The text has no star, no question mark in it. *)
Definition no_star (s : string) : bool :=
  forallb (fun c => negb (Ascii.eqb c "*"%char)) (list_ascii_of_string s).
Definition no_query (s : string) : bool :=
  forallb (fun c => negb (Ascii.eqb c "?"%char)) (list_ascii_of_string s).

(** The result of verifying one entry of the checksum map, and whether a
    file result has a given status. *)
Definition fileResult (fs : os.FS) (installDir : string) (e : string * string)
  : repair.FileResult :=
  repair.verifyFile fs (filepath.Join installDir e.1) e.1 e.2.
Definition has_status (s : repair.FileStatus) (r : repair.FileResult) : bool :=
  repair.Status r =? s.

(** What passes verification at a path: a directory, or a regular file
    whose SHA-256 in lower-case hex is the expected text. *)
Definition intact (fs : os.FS) (path expectedHash : string) : bool :=
  match os.named fs path with
  | Some os.Dir => true
  | Some (os.File data) =>
      String.eqb (bytes.hex_EncodeToString (sha256.Sum256 data)) expectedHash
  | _ => false
  end.

(** A call on an update list, and the list after a sequence of calls. *)
Inductive list_call :=
  | CallAdd (item : update.Item)
  | CallClear.
Definition list_step (l : update.List) (c : list_call) : update.List :=
  match c with
  | CallAdd item => update.Add l item
  | CallClear => update.Clear l
  end.
(** The zero value of the struct. *)
Definition zeroList : update.List :=
  {| update.Updates := []; update.HasBlockingUpdate := false |}.
(** The items added since the last Clear. *)
Fixpoint since_clear (acc : list update.Item) (cs : list list_call)
  : list update.Item :=
  match cs with
  | [] => acc
  | CallAdd item :: rest => since_clear (acc ++ [item]) rest
  | CallClear :: rest => since_clear [] rest
  end.

(** [reads d cost v]: the indented text of [v] at depth [d], whatever
    follows it, is read back as [v] with [cost] units of fuel. *)
Definition reads (d cost : nat) (v : json.value) : Prop :=
  forall f rest, (cost <= f)%nat ->
    json.read_value f (json.render_indent d v ++ rest) = Some (v, rest).

(** The text of one field of an object at depth [d]. *)
Definition field_text (d : nat) (kv : string * json.value) : list ascii :=
  json.quoted kv.1 ++ ":"%char :: " "%char :: json.render_indent d kv.2.

(** Text in ASCII: whatever encoding/json does to bytes that are not valid
    UTF-8 does not arise. *)
Definition ascii_text (s : string) : bool :=
  forallb (fun c => (nat_of_ascii c <? 128)%nat) (list_ascii_of_string s).
Definition ascii_profile (p : option playerprofile.PlayerProfile) : bool :=
  match p with
  | None => true
  | Some p =>
      ascii_text (playerprofile.Name p) && ascii_text (playerprofile.UUID p)
      && ascii_text (playerprofile.CreatedAt p)
  end.






(* ===================================================================== *)
(** * Theorems *)
(* ===================================================================== *)

(** * The primitives against published test vectors *)
Section Vectors.
Import bytes samples.

(** The derived SHA-256 constants begin and end as FIPS 180-4 lists them. *)
Example sha256_constants :
  (hd 0 sha256.K, List.last sha256.K 0, hd 0 sha256.init, List.last sha256.init 0,
   length sha256.K)
  = (0x428a2f98, 0xc67178f2, 0x6a09e667, 0x5be0cd19, 64%nat).
Proof. vm_compute. reflexivity. Qed.

(** FIPS 180-4: SHA-256 and SHA-1 of "abc". *)
Example sha256_abc :
  hex_EncodeToString (sha256.Sum256 (of_string "abc"))
  = "ba7816bf8f01cfea414140de5dae2223b00361a396177a9cb410ff61f20015ad".
Proof. vm_compute. reflexivity. Qed.

Example sha1_abc :
  hex_EncodeToString (sha1.Sum (of_string "abc"))
  = "a9993e364706816aba3e25717850c26c9cd0d89d".
Proof. vm_compute. reflexivity. Qed.

(** FIPS 197, appendix C.3: AES-256. *)
Example aes256_fips197 :
  (fun c => hex_EncodeToString (aes.Encrypt c (unhex "00112233445566778899aabbccddeeff")))
    <$> aes.NewCipher key32
  = Some "8ea2b7ca516745bfeafc49904b496089".
Proof. vm_compute. reflexivity. Qed.

(** The GCM specification, test case 15: a 64-byte plaintext under a
    256-bit key, ciphertext then tag. *)
Example gcm_test_case_15 :
  (fun c => hex_EncodeToString
     (cipher.Seal {| cipher.block := c |} [] (unhex "cafebabefacedbaddecaf888")
        (unhex ("d9313225f88406e5a55909c5aff5269a86a7a9531534f7da2e4c303d8a318a72"
                +:+ "1c3c0c95956809532fcf0e2449a6b525b16aedf5aa0de657ba637b391aafd255"))
        []))
    <$> aes.NewCipher
          (unhex "feffe9928665731c6d6a8f9467308308feffe9928665731c6d6a8f9467308308")
  = Some ("522dc1f099567d07f47f37a32a84427d643a8cdcbfe5c0c97598a2bd2555d1aa"
          +:+ "8cb08e48590dbb3da7b08b1056828838c5f61e6393ba7a0abcc9f662898015ad"
          +:+ "b094dac5d93471bdec1a502270e3cc6c").
Proof. vm_compute. reflexivity. Qed.

(** Go's own examples for filepath.Clean and filepath.Dir. *)
Example Clean_examples :
  map filepath.Clean
    ["a/c"; "a//c"; "a/c/."; "a/c/b/.."; "/../a/c"; "/../a/b/../././/c"; "";
     "abc/def/../../.."; "/abc/def/../../.."; "../../abc"]
  = ["a/c"; "a/c"; "a/c"; "a/c"; "/a/c"; "/a/c"; ".";
     ".."; "/"; "../../abc"].
Proof. vm_compute. reflexivity. Qed.

Example Dir_examples :
  map filepath.Dir
    ["/foo/bar/baz.js"; "/foo/bar/baz"; "/foo/bar/baz/"; "/dirty//path///";
     "dev.txt"; "../todo.txt"; ".."; "."; "/"; ""]
  = ["/foo/bar"; "/foo/bar"; "/foo/bar/baz"; "/dirty/path";
     "."; ".."; "."; "."; "/"; "."].
Proof. vm_compute. reflexivity. Qed.

End Vectors.
(** * Proofs: path/filepath *)
Section FilepathProofs.
Import filepath.

Lemma element_after_element l : element l ++ after_element l = l.
Proof.
  induction l as [|c l IH]; simpl; [reflexivity|].
  destruct (is_sep c); simpl; [reflexivity|]. now rewrite IH.
Qed.

Lemma after_element_head l :
  match after_element l with
  | [] => True
  | c :: _ => is_sep c = true
  end.
Proof.
  induction l as [|c l IH]; simpl; [exact I|].
  destruct (is_sep c) eqn:E; [exact E|exact IH].
Qed.

Lemma after_element_length l : (length (after_element l) <= length l)%nat.
Proof.
  induction l as [|c l IH]; simpl; [lia|].
  destruct (is_sep c); simpl; lia.
Qed.

Lemma after_element_shorter c l :
  is_sep c = false -> (length (after_element (c :: l)) <= length l)%nat.
Proof. intros E. simpl. rewrite E. apply after_element_length. Qed.

Lemma rev_last {A} (l : list A) z :
  last l = Some z -> exists l', rev l = z :: l'.
Proof.
  intros H. apply last_Some in H as [l' ->]. rewrite rev_unit. eauto.
Qed.

(** A path that ends in a byte other than '/' and '.' is cleaned into one
    that ends in the same byte. *)
Lemma clean_loop_last fuel : forall rooted rest out dotdot z,
  (length rest <= fuel)%nat -> last rest = Some z ->
  is_sep z = false -> is_dot z = false ->
  head (clean_loop fuel rooted rest out dotdot) = Some z.
Proof.
  induction fuel as [|fuel IH]; intros rooted rest out dotdot z Hlen Hlast Hs Hd.
  { destruct rest; [discriminate|simpl in Hlen; lia]. }
  destruct rest as [|c rest1]; [discriminate|]. simpl in Hlen.
  assert (Hnext : forall r1, rest1 = r1 -> r1 <> [] -> last r1 = Some z).
  { intros r1 <- Hne. destruct rest1; [congruence|].
    now rewrite last_cons_cons in Hlast. }
  cbn [clean_loop].
  destruct (is_sep c) eqn:Ec.
  { destruct rest1 as [|c1 r]; [injection Hlast as <-; congruence|].
    apply IH; [simpl in *; lia|now apply (Hnext _ eq_refl)|assumption..]. }
  destruct (is_dot c && at_element_end rest1) eqn:E1.
  { apply andb_true_iff in E1 as [Edot _].
    destruct rest1 as [|c1 r]; [injection Hlast as <-; congruence|].
    apply IH; [simpl in *; lia|now apply (Hnext _ eq_refl)|assumption..]. }
  destruct (is_dot c && is_dot (hd "/"%char rest1) && at_element_end (tl rest1)) eqn:E2.
  { apply andb_true_iff in E2 as [E2 _]. apply andb_true_iff in E2 as [_ Edot1].
    destruct rest1 as [|c1 [|c2 r]]; simpl in Edot1.
    - unfold is_dot in Edot1. discriminate.
    - rewrite last_cons_cons in Hlast. injection Hlast as <-. congruence.
    - assert (Hl2 : last (c2 :: r) = Some z)
        by (now rewrite !last_cons_cons in Hlast).
      simpl tl.
      destruct (dotdot <? length out)%nat;
        [|destruct (negb rooted)];
        (apply IH; [simpl in *; lia|exact Hl2|assumption..]). }
  pose proof (element_after_element (c :: rest1)) as Hsplit.
  pose proof (after_element_head (c :: rest1)) as Hhead.
  pose proof (after_element_shorter c rest1 Ec) as Hshort.
  destruct (after_element (c :: rest1)) as [|s r] eqn:Eafter.
  - rewrite app_nil_r in Hsplit. rewrite Hsplit.
    destruct (rev_last _ _ Hlast) as [l' ->].
    destruct fuel; reflexivity.
  - apply IH; [lia| |assumption..].
    rewrite <- Hsplit, last_app in Hlast.
    destruct (last (s :: r)) eqn:El; [exact Hlast|].
    now apply last_None in El.
Qed.

Lemma clean_list_last path z :
  last path = Some z -> is_sep z = false -> is_dot z = false ->
  last (clean_list path) = Some z.
Proof.
  intros Hlast Hs Hd. unfold clean_list.
  destruct path as [|c rest]; [discriminate|].
  assert (Hout : exists o, (if is_sep c
             then clean_loop (length (c :: rest)) true rest [Separator] 1
             else clean_loop (length (c :: rest)) false (c :: rest) [] 0) = z :: o).
  { destruct (is_sep c) eqn:Ec.
    - destruct rest as [|c1 r]; [injection Hlast as <-; congruence|].
      rewrite last_cons_cons in Hlast.
      pose proof (clean_loop_last (length (c :: c1 :: r)) true (c1 :: r)
                    [Separator] 1%nat z) as H.
      destruct (clean_loop _ true (c1 :: r) [Separator] 1) as [|x o];
        [|exists o]; simpl in H;
        specialize (H ltac:(lia) Hlast Hs Hd); congruence.
    - pose proof (clean_loop_last (length (c :: rest)) false (c :: rest) [] 0%nat z
                    ltac:(lia) Hlast Hs Hd) as H.
      destruct (clean_loop _ false (c :: rest) [] 0) as [|x o];
        [discriminate|exists o]. simpl in H. congruence. }
  destruct Hout as [o ->]. simpl. apply last_snoc.
Qed.

Lemma list_ascii_of_string_app a b :
  list_ascii_of_string (a +:+ b) = list_ascii_of_string a ++ list_ascii_of_string b.
Proof. induction a as [|c a IH]; simpl; [reflexivity|now rewrite IH]. Qed.

Lemma Clean_last path z :
  last (list_ascii_of_string path) = Some z ->
  is_sep z = false -> is_dot z = false ->
  last (list_ascii_of_string (Clean path)) = Some z.
Proof.
  intros. unfold Clean. rewrite list_ascii_of_string_of_list_ascii.
  now apply clean_list_last.
Qed.

(** Cleaning keeps a path that starts at the root at the root. *)
Lemma backtrack_bottom z : forall out,
  (2 <= length out)%nat -> last out = Some z -> last (backtrack out 1) = Some z.
Proof.
  induction out as [|c out IH]; intros Hlen Hlast; [discriminate|].
  destruct out as [|c1 out1]; [simpl in Hlen; lia|].
  rewrite last_cons_cons in Hlast. cbn [backtrack].
  destruct (is_sep c || (length (c1 :: out1) <=? 1)%nat) eqn:E; [exact Hlast|].
  apply orb_false_iff in E as [_ E]. apply Nat.leb_gt in E.
  apply IH; [lia|exact Hlast].
Qed.

Lemma last_app_cons {A} (l : list A) x r : last (l ++ x :: r) = last (x :: r).
Proof. rewrite last_app. destruct (last (x :: r)) eqn:E; [reflexivity|].
  now apply last_None in E. Qed.

Lemma clean_loop_bottom fuel : forall rest out,
  last out = Some Separator ->
  last (clean_loop fuel true rest out 1) = Some Separator.
Proof.
  induction fuel as [|fuel IH]; intros rest out Hlast; [exact Hlast|].
  destruct rest as [|c rest1]; [exact Hlast|]. cbn [clean_loop].
  destruct (is_sep c); [now apply IH|].
  destruct (is_dot c && at_element_end rest1); [now apply IH|].
  destruct (is_dot c && is_dot (hd "/"%char rest1) && at_element_end (tl rest1)).
  - destruct (1 <? length out)%nat eqn:E.
    + apply Nat.ltb_lt in E. apply IH, backtrack_bottom; [lia|exact Hlast].
    + cbn [negb]. now apply IH.
  - apply IH. destruct out as [|o out']; [discriminate|].
    destruct (_ || _); rewrite ?last_app_cons; [rewrite last_cons_cons|];
      exact Hlast.
Qed.

Lemma Clean_IsAbs path : IsAbs path = true -> IsAbs (Clean path) = true.
Proof.
  unfold IsAbs, Clean. destruct path as [|c rest]; [discriminate|].
  cbn [String.prefix]. destruct (ascii_dec "/" c) as [<-|]; [intros _|discriminate].
  change (list_ascii_of_string (String "/" rest))
    with ("/"%char :: list_ascii_of_string rest).
  unfold clean_list. change (is_sep "/") with true. cbv iota.
  pose proof (clean_loop_bottom (length ("/"%char :: list_ascii_of_string rest))
                (list_ascii_of_string rest) [Separator] eq_refl) as H.
  destruct (clean_loop _ true _ [Separator] 1) as [|x out]; [discriminate|].
  destruct (rev_last _ _ H) as [l' ->].
  cbn [string_of_list_ascii]. unfold Separator.
  now destruct (string_of_list_ascii l').
Qed.

Lemma Join_IsAbs a b : IsAbs a = true -> IsAbs (Join a b) = true.
Proof.
  intros H. unfold Join. destruct (String.eqb_spec a "") as [->|_]; [discriminate|].
  apply Clean_IsAbs. destruct a as [|c a]; [discriminate|].
  unfold IsAbs in *. cbn [String.prefix] in H.
  destruct (ascii_dec "/" c) as [<-|]; [|discriminate].
  change (String "/" a +:+ String Separator b)
    with (String "/" (a +:+ String Separator b)).
  cbn [String.prefix]. destruct (ascii_dec "/" "/"); [|congruence].
  now destruct (a +:+ String Separator b).
Qed.

(** For a path that starts at the root, the absolute path is the cleaned
    one, in every working directory. *)
Lemma Abs_rooted wd path : IsAbs path = true -> Abs wd path = Clean path.
Proof. unfold Abs. now intros ->. Qed.

(** The two file names [DatFile] chooses between are different files. *)
Lemma Clean_json_dat path : Clean (path +:+ ".json") <> Clean (path +:+ ".dat").
Proof.
  intros E.
  assert (H1 : last (list_ascii_of_string (Clean (path +:+ ".json"))) = Some "n"%char).
  { apply Clean_last; [|reflexivity..].
    rewrite list_ascii_of_string_app. now rewrite last_app. }
  assert (H2 : last (list_ascii_of_string (Clean (path +:+ ".dat"))) = Some "t"%char).
  { apply Clean_last; [|reflexivity..].
    rewrite list_ascii_of_string_app. now rewrite last_app. }
  rewrite E in H1. rewrite H1 in H2. discriminate.
Qed.

Lemma clean_list_nonempty l : clean_list l <> [].
Proof.
  unfold clean_list. destruct l as [|c rest]; [discriminate|].
  destruct (is_sep c);
    destruct (clean_loop _ _ _ _ _) as [|a out]; try discriminate;
    cbn [rev]; intros H; now apply app_eq_nil in H as [_ H].
Qed.

Lemma Clean_not_empty path : String.eqb (Clean path) "" = false.
Proof.
  unfold Clean. pose proof (clean_list_nonempty (list_ascii_of_string path)).
  now destruct (clean_list _).
Qed.

Lemma Join_list_not_empty a b rest :
  String.eqb b "" = false -> String.eqb (Join_list (a :: b :: rest)) "" = false.
Proof.
  intros Hb. cbn [Join_list]. rewrite Hb.
  destruct (String.eqb a ""); apply Clean_not_empty.
Qed.

End FilepathProofs.
(** * Proofs: internal/throttle *)
Section ThrottleProofs.
Import throttle.

Lemma Update_boundary g v :
  boundary v = true -> Update g v = ({| last := v |}, true).
Proof. unfold Update, boundary. intros ->. reflexivity. Qed.

Lemma Update_interior g v :
  boundary v = false ->
  Update g v =
    if f64_ltb (f64_sub v (last g)) c_0_01 then (g, false)
    else ({| last := v |}, true).
Proof. unfold Update, boundary. intros ->. reflexivity. Qed.

(** A call that returns true stores its argument; one that returns false
    leaves the gate as it was. *)
Lemma Update_last g v :
  Update g v = ({| last := v |}, true) \/ Update g v = (g, false).
Proof.
  unfold Update.
  destruct (f64_ltb v c_0_01 || f64_leb c_0_99 v); [now left|].
  destruct (f64_ltb (f64_sub v (last g)) c_0_01); [now right|now left].
Qed.

Lemma Update_true_step g v g' :
  Update g v = (g', true) ->
  g' = {| last := v |} /\
  (boundary v = true \/ f64_ltb (f64_sub v (last g)) c_0_01 = false).
Proof.
  unfold Update, boundary.
  destruct (f64_ltb v c_0_01 || f64_leb c_0_99 v).
  - intros [= <-]. split; [reflexivity|now left].
  - destruct (f64_ltb (f64_sub v (last g)) c_0_01) eqn:E; intros [= <-].
    split; [reflexivity|now right].
Qed.

Lemma emitted_sublist g raw : emitted g raw `sublist_of` raw.
Proof.
  revert g. induction raw as [|v rest IH]; intros g; simpl.
  - constructor.
  - destruct (Update g v) as [g' ok]. destruct ok.
    + apply sublist_skip, IH.
    + apply sublist_cons, IH.
Qed.

Lemma emitted_steps_ok g raw : steps_ok (last g) (emitted g raw).
Proof.
  revert g. induction raw as [|v rest IH]; intros g; simpl; [exact I|].
  destruct (Update g v) as [g' ok] eqn:E. destruct ok.
  - apply Update_true_step in E as [-> Hstep]. simpl. split; [exact Hstep|].
    apply (IH {| last := v |}).
  - destruct (Update_last g v) as [E'|E']; rewrite E' in E; [discriminate|].
    injection E as <-. apply IH.
Qed.

Lemma nondecreasing_sublist l k :
  k `sublist_of` l -> nondecreasing l -> nondecreasing k.
Proof.
  intros Hsub. induction Hsub as [|x k l Hs IH|x k l Hs IH]; simpl.
  - trivial.
  - intros [Hall Hrest]. split; [|now apply IH].
    rewrite Forall_forall in Hall |- *. intros w Hw. apply Hall.
    apply (sublist_subseteq _ _ Hs), Hw.
  - intros [_ Hrest]. now apply IH.
Qed.

(** Every boundary value of the raw sequence is emitted. *)
Lemma emitted_boundary g raw v :
  v ∈ raw -> boundary v = true -> v ∈ emitted g raw.
Proof.
  revert g. induction raw as [|w rest IH]; intros g Hin Hb.
  - inversion Hin.
  - simpl. apply elem_of_cons in Hin as [->|Hin].
    + rewrite (Update_boundary g w Hb). left.
    + destruct (Update g w) as [g' ok]. destruct ok.
      * right. now apply IH.
      * now apply IH.
Qed.

(** C4, as amended.  For every gate state and every raw sequence: each
    value below 0.01 or at or above 0.99 is emitted; every emitted value is
    such a boundary value or lies at least 0.01 (binary64 subtraction) above
    the value emitted before it; and when the raw sequence is non-decreasing
    so is the emitted one.  Neither monotonicity for arbitrary input nor a
    bound on the number of distinct emitted values is part of it. *)
Theorem ProgressGate_emitted_amended (g : ProgressGate) (raw : list float64) :
  (forall v, v ∈ raw -> boundary v = true -> v ∈ emitted g raw) /\
  steps_ok (last g) (emitted g raw) /\
  (nondecreasing raw -> nondecreasing (emitted g raw)).
Proof.
  split; [|split].
  - intros v. apply emitted_boundary.
  - apply emitted_steps_ok.
  - apply nondecreasing_sublist, emitted_sublist.
Qed.

(** C4 fails as stated.  Fed 0.5 and then 2^-10, a fresh gate emits both,
    the second below the first; fed the 102 values k * 2^-20, k = 1..102,
    all in [0,1] and pairwise distinct, it emits every one of them. *)
Lemma ProgressGate_claim_fails :
  let down := [f64_of 1 (-1); f64_of 1 (-10)] in
  let many := map (fun k => f64_of (Z.of_nat k) (-20)) (seq 1 102) in
  (forallb in_unit down = true /\
   emitted zeroGate down = down /\
   ~ nondecreasing (emitted zeroGate down)) /\
  (forallb in_unit many = true /\
   emitted zeroGate many = many /\
   NoDup (emitted zeroGate many) /\
   length (emitted zeroGate many) = 102%nat).
Proof.
  split.
  - split; [reflexivity|]. split; [reflexivity|].
    intros [H _]. apply Forall_cons in H as [H _]. discriminate H.
  - split; [vm_compute; reflexivity|]. split; [vm_compute; reflexivity|].
    split; [|vm_compute; reflexivity].
    apply (bool_decide_unpack _). vm_compute. exact I.
Qed.

End ThrottleProofs.
(** * Proofs: internal/repair *)
Section RepairProofs.
Import repair.

(** [verifyFile] answers with one of the three named statuses. *)
Lemma verifyFile_status fs fullPath relativePath expectedHash :
  let s := Status (verifyFile fs fullPath relativePath expectedHash) in
  s = FileStatusOK \/ s = FileStatusMissing \/ s = FileStatusCorrupted.
Proof.
  unfold verifyFile. destruct (os.Stat fs fullPath) as [info|err].
  - destruct (os.IsDir info); [now left|].
    destruct (ioutil.VerifySHA256 fs fullPath expectedHash); simpl; auto.
  - destruct (IsNotExist err); simpl; auto.
Qed.

(** A failing stat that is not "does not exist", and a failing hash check,
    both give Corrupted, with the error kept in the file result. *)
Lemma verifyFile_corrupted fs fullPath relativePath expectedHash :
  (forall err, os.Stat fs fullPath = Err err -> IsNotExist err = false ->
     Status (verifyFile fs fullPath relativePath expectedHash) = FileStatusCorrupted) /\
  (forall info err, os.Stat fs fullPath = Ok info -> os.IsDir info = false ->
     ioutil.VerifySHA256 fs fullPath expectedHash = Err err ->
     Status (verifyFile fs fullPath relativePath expectedHash) = FileStatusCorrupted).
Proof.
  unfold verifyFile. split.
  - intros err -> ->. reflexivity.
  - intros info err -> -> ->. reflexivity.
Qed.

Lemma verifyStep_Errors fs installDir r entry :
  Errors (verifyStep fs installDir r entry) = Errors r.
Proof.
  unfold verifyStep. destruct entry as [relativePath expectedHash].
  destruct (verifyFile_status fs (filepath.Join installDir relativePath)
              relativePath expectedHash) as [H|[H|H]];
    simpl in H; rewrite H; reflexivity.
Qed.

Lemma fold_verifyStep_Errors fs installDir order r :
  Errors (fold_left (verifyStep fs installDir) order r) = Errors r.
Proof.
  revert r. induction order as [|e rest IH]; intros r; simpl; [reflexivity|].
  rewrite IH. apply verifyStep_Errors.
Qed.

Lemma IsHealthy_no_Errors r :
  Errors r = [] ->
  (IsHealthy r = true <-> MissingFiles r = [] /\ CorruptedFiles r = []).
Proof.
  intros HE. unfold IsHealthy. rewrite HE. simpl.
  rewrite andb_true_r, andb_true_iff, !Nat.eqb_eq, !length_zero_iff_nil.
  reflexivity.
Qed.

(** C9.  For every file system, install directory, checksum map and
    iteration order: [Verify] fails only on an empty map, and the Result it
    returns otherwise has no Errors entry, so that IsHealthy holds exactly
    when MissingFiles and CorruptedFiles are both empty. *)
Theorem Verify_no_Errors (fs : os.FS) (installDir : string)
    (checksums : gmap string string) (order : list (string * string)) :
  match fst (Verify fs installDir checksums order) with
  | Err _ => checksums = ∅
  | Ok r =>
      checksums ≠ ∅ /\ Errors r = [] /\
      (IsHealthy r = true <-> MissingFiles r = [] /\ CorruptedFiles r = [])
  end.
Proof.
  unfold Verify. destruct (size checksums =? 0)%nat eqn:Hsz; simpl.
  - apply Nat.eqb_eq in Hsz. now apply map_size_empty_iff.
  - apply Nat.eqb_neq in Hsz.
    assert (HE : Errors (fold_left (verifyStep fs installDir) order
               {| TotalFiles := size checksums; OKFiles := 0;
                  MissingFiles := []; CorruptedFiles := []; Errors := [] |}) = [])
      by apply fold_verifyStep_Errors.
    split; [|split; [exact HE|apply IsHealthy_no_Errors, HE]].
    intros ->. apply Hsz, map_size_empty.
Qed.

End RepairProofs.
(** * Proofs: crypto/cipher and internal/crypto *)
Section CryptoProofs.
Import bytes.

Lemma aes_Encrypt_length c src : length (aes.Encrypt c src) = 16%nat.
Proof. unfold aes.Encrypt, aes.AddRoundKey. now rewrite length_map, length_seq. Qed.

Lemma flat_map_length_const {A B} (f : A -> list B) (n : nat) (l : list A) :
  (forall a, length (f a) = n) -> length (flat_map f l) = (n * length l)%nat.
Proof.
  intros Hf. induction l as [|a l IH]; simpl; [lia|].
  rewrite length_app, Hf, IH. lia.
Qed.

Lemma keystream_length g nonce n : length (cipher.keystream g nonce n) = n.
Proof.
  unfold cipher.keystream. rewrite length_take.
  rewrite (flat_map_length_const _ 16) by (intros; apply aes_Encrypt_length).
  rewrite length_seq.
  pose proof (Nat.div_mod_eq (n + 15) 16).
  pose proof (Nat.mod_upper_bound (n + 15) 16). lia.
Qed.

Lemma xor_bytes_length a b :
  length a = length b -> length (xor_bytes a b) = length a.
Proof. intros H. unfold xor_bytes. rewrite length_zip_with. lia. Qed.

Lemma xor_bytes_involutive a b :
  length a = length b -> xor_bytes (xor_bytes a b) b = a.
Proof.
  unfold xor_bytes. revert b.
  induction a as [|x a IH]; intros [|y b] Hlen; simpl in *; try discriminate;
    [reflexivity|].
  rewrite IH by lia. f_equal.
  now rewrite Z.lxor_assoc, Z.lxor_nilpotent, Z.lxor_0_r.
Qed.

Lemma counterCrypt_length g nonce data :
  length (cipher.counterCrypt g nonce data) = length data.
Proof.
  unfold cipher.counterCrypt. apply xor_bytes_length.
  now rewrite keystream_length.
Qed.

Lemma counterCrypt_involutive g nonce data :
  cipher.counterCrypt g nonce (cipher.counterCrypt g nonce data) = data.
Proof.
  unfold cipher.counterCrypt at 1. rewrite counterCrypt_length.
  unfold cipher.counterCrypt. apply xor_bytes_involutive.
  now rewrite keystream_length.
Qed.

Lemma be_length n x : length (be n x) = n.
Proof. induction n; simpl; congruence. Qed.

Lemma auth_length g nonce ct aad :
  length (cipher.auth g nonce ct aad) = cipher.gcmTagSize.
Proof. apply be_length. Qed.

(** Opening what Seal produced, under the same nonce and additional data,
    gives the plaintext back. *)
Lemma Open_Seal g nonce plaintext data :
  cipher.Open g [] nonce (cipher.Seal g [] nonce plaintext data) data
  = Some plaintext.
Proof.
  unfold cipher.Open, cipher.Seal. simpl.
  set (ct := cipher.counterCrypt g nonce plaintext).
  set (tag := cipher.auth g nonce ct data).
  assert (Htag : length tag = cipher.gcmTagSize) by apply auth_length.
  rewrite length_app, Htag.
  destruct (length ct + cipher.gcmTagSize <? cipher.gcmTagSize)%nat eqn:E.
  { apply Nat.ltb_lt in E. lia. }
  replace (length ct + cipher.gcmTagSize - cipher.gcmTagSize)%nat
    with (length ct) by lia.
  rewrite take_app_length, drop_app_length.
  fold tag. rewrite decide_True by reflexivity.
  unfold ct. now rewrite counterCrypt_involutive.
Qed.

Lemma NewCipher_32 key :
  length key = 32%nat -> exists block, aes.NewCipher key = Some block.
Proof. intros H. unfold aes.NewCipher. rewrite H. simpl. eauto. Qed.

Lemma Decrypt_plain data key :
  hd_error data <> Some crypto.marker -> crypto.Decrypt data key = Ok data.
Proof.
  destruct data as [|b rest]; simpl; [reflexivity|].
  intros H. destruct (b =? crypto.marker) eqn:E; [|reflexivity].
  apply Z.eqb_eq in E. congruence.
Qed.

Lemma Encrypt_dev env rnd data key :
  build.Release env = "dev" -> crypto.Encrypt env rnd data key = Ok data.
Proof. intros H. unfold crypto.Encrypt. now rewrite H. Qed.

Lemma Seal_dst g dst nonce plaintext data :
  cipher.Seal g dst nonce plaintext data
  = dst ++ cipher.Seal g [] nonce plaintext data.
Proof. reflexivity. Qed.

(** What Decrypt does on marked data that is long enough. *)
Lemma Decrypt_marked key block nonce body :
  aes.NewCipher key = Some block ->
  length nonce = cipher.gcmStandardNonceSize ->
  crypto.Decrypt (crypto.marker :: nonce ++ body) key
  = match cipher.Open {| cipher.block := block |} [] nonce body [] with
    | None => Err ErrOpen
    | Some plain => Ok plain
    end.
Proof.
  intros Hblock Hn. unfold crypto.Decrypt.
  rewrite Z.eqb_refl. cbn [negb]. rewrite Hblock.
  unfold cipher.NewGCM, cipher.NonceSize.
  rewrite length_app, Hn.
  destruct (_ <? _)%nat eqn:E; [apply Nat.ltb_lt in E; lia|].
  rewrite <- Hn. now rewrite take_app_length, drop_app_length.
Qed.

Lemma Encrypt_release env rnd data key block :
  build.Release env <> "dev" -> aes.NewCipher key = Some block ->
  let nonce := map rnd (seq 0 cipher.gcmStandardNonceSize) in
  crypto.Encrypt env rnd data key
  = Ok (crypto.marker :: nonce
          ++ cipher.Seal {| cipher.block := block |} [] nonce data []).
Proof.
  intros Hrel Hblock nonce. unfold crypto.Encrypt.
  destruct (String.eqb_spec (build.Release env) "dev") as [|_]; [contradiction|].
  rewrite Hblock. reflexivity.
Qed.

Lemma Encrypt_Decrypt_release env rnd data key :
  build.Release env <> "dev" -> length key = 32%nat ->
  exists sealed, crypto.Encrypt env rnd data key = Ok sealed /\
                 hd_error sealed = Some crypto.marker /\
                 crypto.Decrypt sealed key = Ok data.
Proof.
  intros Hrel Hkey. destruct (NewCipher_32 key Hkey) as [block Hblock].
  rewrite (Encrypt_release env rnd data key block Hrel Hblock).
  eexists. split; [reflexivity|]. split; [reflexivity|].
  rewrite (Decrypt_marked key block) by
    (assumption || now rewrite length_map, length_seq).
  now rewrite Open_Seal.
Qed.

(** C3, as amended.  With a 32-byte key: in a build whose release is not
    "dev", Encrypt succeeds and Decrypt of its output gives the plaintext
    back, whatever the nonce drawn; in a dev build Encrypt returns the
    plaintext unchanged, and Decrypt gives it back provided it is empty or
    does not start with the marker byte 'E'. *)
Theorem Encrypt_Decrypt_amended (env : build.Env) (rnd : nat -> Z)
    (m k : list Z) (Hk : length k = 32%nat) :
  (build.Release env <> "dev" ->
     exists sealed, crypto.Encrypt env rnd m k = Ok sealed /\
                    crypto.Decrypt sealed k = Ok m) /\
  (build.Release env = "dev" ->
     crypto.Encrypt env rnd m k = Ok m /\
     (hd_error m <> Some crypto.marker -> crypto.Decrypt m k = Ok m)).
Proof.
  split.
  - intros Hrel.
    destruct (Encrypt_Decrypt_release env rnd m k Hrel Hk) as (s & ? & _ & ?).
    eauto.
  - intros Hdev. split; [now apply Encrypt_dev|apply Decrypt_plain].
Qed.

(** A release build at work: twelve nonce bytes from [samples.rnd], the
    text "hello" under [samples.key32]. *)
Lemma Encrypt_Decrypt_witness :
  (build.Release samples.releaseEnv <> "dev" ->
     exists sealed,
       crypto.Encrypt samples.releaseEnv samples.rnd (of_string "hello")
                      samples.key32 = Ok sealed /\
       crypto.Decrypt sealed samples.key32 = Ok (of_string "hello")) /\
  (build.Release samples.releaseEnv = "dev" ->
     crypto.Encrypt samples.releaseEnv samples.rnd (of_string "hello")
                    samples.key32 = Ok (of_string "hello") /\
     (hd_error (of_string "hello") <> Some crypto.marker ->
      crypto.Decrypt (of_string "hello") samples.key32 = Ok (of_string "hello"))).
Proof.
  apply (Encrypt_Decrypt_amended samples.releaseEnv samples.rnd
           (of_string "hello") samples.key32).
  reflexivity.
Defined.

(** C3 fails as stated: in a dev build the plaintext "E" is returned as it
    is by Encrypt, and Decrypt then takes its first byte for the marker and
    fails. *)
Lemma Encrypt_Decrypt_dev_fails :
  let m := of_string "E" in
  length samples.key32 = 32%nat /\
  crypto.Encrypt samples.devEnv samples.rnd m samples.key32 = Ok m /\
  crypto.Decrypt m samples.key32 = Err (New "ciphertext too short").
Proof. vm_compute. auto. Qed.

End CryptoProofs.
(** * Proofs: the file system and internal/extract *)
Section OsProofs.

Lemma dirs_added_refl fs : dirs_added fs fs.
Proof. intros p. now left. Qed.

Lemma dirs_added_trans fs1 fs2 fs3 :
  dirs_added fs1 fs2 -> dirs_added fs2 fs3 -> dirs_added fs1 fs3.
Proof.
  intros H12 H23 p. destruct (H12 p) as [E|[E1 E2]], (H23 p) as [F|[F1 F2]].
  - left. congruence.
  - right. split; congruence.
  - right. split; congruence.
  - congruence.
Qed.

Lemma mkdir_step_dirs_added acc k fs' :
  os.mkdir_step acc k = Ok fs' ->
  exists fs, acc = Ok fs /\ dirs_added fs fs'.
Proof.
  destruct acc as [fs|e]; [|cbn; discriminate]. cbn.
  destruct (fs !! k) as [[| |]|] eqn:E; intros [= <-].
  - exists fs. split; [reflexivity|apply dirs_added_refl].
  - exists fs. split; [reflexivity|]. intros p.
    destruct (decide (p = k)) as [->|Hne].
    + right. now rewrite lookup_insert_eq.
    + left. now rewrite lookup_insert_ne.
Qed.

Lemma fold_mkdir_step_dirs_added l acc fs' :
  fold_left os.mkdir_step l acc = Ok fs' ->
  exists fs, acc = Ok fs /\ dirs_added fs fs'.
Proof.
  revert acc. induction l as [|k l IH]; intros acc; simpl.
  - intros ->. exists fs'. split; [reflexivity|apply dirs_added_refl].
  - intros H. apply IH in H as (fs1 & H1 & H2).
    apply mkdir_step_dirs_added in H1 as (fs & -> & H3).
    exists fs. split; [reflexivity|]. eapply dirs_added_trans; eassumption.
Qed.

Lemma MkdirAll_dirs_added fs path fs' :
  os.MkdirAll fs path = Ok fs' -> dirs_added fs fs'.
Proof.
  unfold os.MkdirAll. destruct (String.eqb path ""); [discriminate|]. intros H.
  apply fold_mkdir_step_dirs_added in H as (fs0 & [= <-] & H). exact H.
Qed.

Lemma WriteFile_insert fs path data fs' :
  os.WriteFile fs path data = Ok fs' ->
  fs' = <[os.key path := os.File data]> fs.
Proof.
  unfold os.WriteFile.
  destruct (os.named fs path) as [[| |]|]; try discriminate.
  - now intros [= <-].
  - destruct (String.eqb path ""); [discriminate|].
    destruct (os.parent_ready fs (os.key path)); [|discriminate].
    now intros [= <-].
Qed.

Lemma RemoveAll_fs fs path :
  (os.RemoveAll fs path).2 = fs \/
  (os.RemoveAll fs path).2
  = filter (fun kv => os.under (os.key path) kv.1 = false \/
                      os.stuck fs kv.1 = true) fs.
Proof.
  unfold os.RemoveAll. destruct (String.eqb path ""); [now left|].
  destruct (os.endsWithDot path); [now left|]. right.
  destruct (bool_decide _); [reflexivity|].
  destruct (String.eqb _ "/"); [reflexivity|].
  now destruct (String.eqb _ ".").
Qed.

Lemma RemoveAll_outside fs path p :
  os.under (os.key path) p = false -> (os.RemoveAll fs path).2 !! p = fs !! p.
Proof.
  intros Hp. destruct (RemoveAll_fs fs path) as [->| ->]; [reflexivity|].
  destruct (fs !! p) as [n|] eqn:E.
  - apply map_lookup_filter_Some. split; [exact E|now left].
  - apply map_lookup_filter_None. left. exact E.
Qed.

Lemma RemoveAll_sub fs path k n :
  (os.RemoveAll fs path).2 !! k = Some n -> fs !! k = Some n.
Proof.
  destruct (RemoveAll_fs fs path) as [->| ->]; [auto|].
  intros H. now apply map_lookup_filter_Some in H.
Qed.

Lemma RemoveAll_inside fs path fs' k :
  String.eqb path "" = false ->
  os.RemoveAll fs path = (Ok tt, fs') -> os.under (os.key path) k = true ->
  fs' !! k = None.
Proof.
  unfold os.RemoveAll. intros -> H Hk.
  destruct (os.endsWithDot path); [discriminate|].
  destruct (bool_decide _) eqn:Hleft; [discriminate|].
  destruct (String.eqb _ "/"); [discriminate|].
  destruct (String.eqb _ "."); [discriminate|]. injection H as <-.
  apply bool_decide_eq_false in Hleft.
  destruct (filter _ fs !! k) as [n|] eqn:E; [|reflexivity].
  exfalso. apply Hleft. intros Hempty.
  assert (Hin : filter (fun kv => os.under (os.key path) kv.1 = true)
                  (filter (fun kv => os.under (os.key path) kv.1 = false \/
                                     os.stuck fs kv.1 = true) fs) !! k = Some n)
    by (apply map_lookup_filter_Some; split; [exact E|exact Hk]).
  rewrite Hempty in Hin. discriminate Hin.
Qed.

(** Where the path is not refused, what stays at or below it is stuck. *)
Lemma RemoveAll_stuck fs path p :
  os.endsWithDot path = false -> os.under (os.key path) p = true ->
  os.stuck fs p = false -> (os.RemoveAll fs path).1 <> Ok tt ->
  (os.RemoveAll fs path).2 !! p = None.
Proof.
  unfold os.RemoveAll. intros -> Hp Hs.
  destruct (String.eqb path ""); [now intros []|]. intros _.
  assert (H : filter (fun kv => os.under (os.key path) kv.1 = false \/
                                os.stuck fs kv.1 = true) fs !! p = None).
  { apply map_lookup_filter_None. right. intros x _ [H|H]; cbn in H; congruence. }
  destruct (bool_decide _); [exact H|].
  destruct (String.eqb _ "/"); [exact H|].
  now destruct (String.eqb _ ".").
Qed.

Lemma prefix_String a s b t :
  String.prefix (String a s) (String b t)
  = if Ascii.ascii_dec a b then String.prefix s t else false.
Proof. reflexivity. Qed.

(** Below a directory in the spelling is under it. *)
Lemma prefix_under d p :
  String.prefix (d +:+ "/") p = true -> os.under d p = true.
Proof.
  unfold os.under. intros H. apply orb_true_iff. right.
  destruct (String.eqb_spec d "/") as [E|_].
  - rewrite E in H. change ("/" +:+ "/") with "//" in H.
    destruct p as [|c p]; [discriminate|]. rewrite prefix_String in H |- *.
    destruct (Ascii.ascii_dec "/" c); [now destruct p|discriminate H].
  - destruct (String.eqb_spec d ".") as [E|_]; [|exact H].
    rewrite E in H. change ("." +:+ "/") with "./" in H.
    destruct p as [|c p]; [discriminate|]. rewrite prefix_String in H.
    destruct (Ascii.ascii_dec "." c) as [<-|]; [|discriminate].
    destruct p as [|c p]; [discriminate|]. rewrite prefix_String in H.
    destruct (Ascii.ascii_dec "/" c) as [<-|]; [|discriminate]. reflexivity.
Qed.

End OsProofs.

Section ExtractProofs.
Import extract.
#[local] Arguments os.MkdirAll : simpl never.
#[local] Arguments os.WriteFile : simpl never.
#[local] Arguments safePath : simpl never.

Lemma safePath_Ok destDir name p :
  safePath destDir name = Ok p ->
  p = filepath.Join destDir name /\ inside destDir (os.key p) = true.
Proof.
  unfold safePath, inside, os.key, filepath.HasPrefix.
  destruct (_ || _) eqn:E; intros [= <-]. split; [reflexivity|].
  rewrite orb_comm. exact E.
Qed.

Lemma safePath_Err destDir name e :
  safePath destDir name = Err e ->
  e = illegal name /\ inside destDir (os.key (filepath.Join destDir name)) = false.
Proof.
  unfold safePath, inside, os.key, filepath.HasPrefix.
  destruct (_ || _) eqn:E; intros [= <-]. split; [reflexivity|].
  rewrite orb_comm. exact E.
Qed.

Lemma settled_refl d fs : settled d fs fs.
Proof. intros p _. now left. Qed.

Lemma settled_trans d fs1 fs2 fs3 :
  settled d fs1 fs2 -> settled d fs2 fs3 -> settled d fs1 fs3.
Proof.
  intros H12 H23 p Hp.
  destruct (H12 p Hp) as [E|[E1 E2]], (H23 p Hp) as [F|[F1 F2]].
  - left. congruence.
  - right. split; congruence.
  - right. split; congruence.
  - congruence.
Qed.

Lemma dirs_added_settled d fs fs' : dirs_added fs fs' -> settled d fs fs'.
Proof. intros H p _. apply H. Qed.

(** What safePath lets through is at or below the directory. *)
Lemma inside_under d p : inside d p = true -> os.under (os.key d) p = true.
Proof.
  unfold inside, os.key. intros H.
  apply orb_true_iff in H as [H|H]; [|now apply prefix_under].
  unfold os.under. now rewrite H.
Qed.

Lemma write_inside_settled d fs path data fs' :
  inside d (os.key path) = true -> os.WriteFile fs path data = Ok fs' ->
  settled d fs fs'.
Proof.
  intros Hin H p Hp. apply WriteFile_insert in H as ->. left.
  apply lookup_insert_ne. intros <-. apply inside_under in Hin. congruence.
Qed.

Lemma extractTarEntry_settled fs e d t fs' :
  extractTarEntry fs e d t = Ok fs' -> settled d fs fs'.
Proof.
  unfold extractTarEntry.
  destruct (String.eqb _ ""); [intros [= <-]; apply settled_refl|].
  destruct (safePath d _) as [destPath|] eqn:Hsafe; [|cbn; discriminate]. cbn.
  apply safePath_Ok in Hsafe as [_ Hin].
  destruct (Typeflag e =? TypeDir).
  { intros H. apply dirs_added_settled, (MkdirAll_dirs_added _ _ _ H). }
  destruct (Typeflag e =? TypeReg); [|intros [= <-]; apply settled_refl].
  destruct (os.MkdirAll fs (filepath.Dir destPath)) as [fs1|] eqn:Hmk;
    [|cbn; discriminate]. cbn. intros Hw.
  eapply settled_trans.
  - apply dirs_added_settled, (MkdirAll_dirs_added _ _ _ Hmk).
  - eapply write_inside_settled; eassumption.
Qed.

Lemma extractZipFile_settled fs f d t fs' :
  extractZipFile fs f d t = Ok fs' -> settled d fs fs'.
Proof.
  unfold extractZipFile.
  destruct (String.eqb _ ""); [intros [= <-]; apply settled_refl|].
  destruct (safePath d _) as [destPath|] eqn:Hsafe; [|cbn; discriminate]. cbn.
  apply safePath_Ok in Hsafe as [_ Hin].
  destruct (zIsDir f).
  { intros H. apply dirs_added_settled, (MkdirAll_dirs_added _ _ _ H). }
  destruct (os.MkdirAll fs (filepath.Dir destPath)) as [fs1|] eqn:Hmk;
    [|cbn; discriminate]. cbn.
  destruct (zBody f) as [body|]; [|cbn; discriminate]. cbn. intros Hw.
  eapply settled_trans.
  - apply dirs_added_settled, (MkdirAll_dirs_added _ _ _ Hmk).
  - eapply write_inside_settled; eassumption.
Qed.

Lemma extractTarGz_loop_settled es : forall fs readErr d t,
  settled d fs (extractTarGz_loop fs es readErr d t).2.
Proof.
  induction es as [|e es IH]; intros fs readErr d t; simpl.
  - destruct readErr; apply settled_refl.
  - destruct (extractTarEntry fs e d t) as [fs'|] eqn:E; [|apply settled_refl].
    eapply settled_trans; [eapply extractTarEntry_settled, E|apply IH].
Qed.

Lemma extractZip_loop_settled files : forall fs d t,
  settled d fs (extractZip_loop fs files d t).2.
Proof.
  induction files as [|f files IH]; intros fs d t; simpl.
  - apply settled_refl.
  - destruct (extractZipFile fs f d t) as [fs'|] eqn:E; [|apply settled_refl].
    eapply settled_trans; [eapply extractZipFile_settled, E|apply IH].
Qed.

(** An entry whose name is refused by [safePath] makes its step fail with
    the illegal-path error. *)
Lemma escapes_safePath d t name :
  escapes d t name -> safePath d (transform t name) = Err (illegal (transform t name)).
Proof.
  intros [_ Hout]. destruct (safePath d (transform t name)) as [p|e] eqn:E.
  - apply safePath_Ok in E as [-> Hin]. unfold os.key in Hin. congruence.
  - apply safePath_Err in E as [-> _]. reflexivity.
Qed.

Lemma extractTarEntry_escapes fs e d t :
  escapes d t (tName e) ->
  extractTarEntry fs e d t = Err (illegal (transform t (tName e))).
Proof.
  intros H. unfold extractTarEntry.
  destruct (String.eqb_spec (transform t (tName e)) "") as [E|_];
    [now destruct H|].
  now rewrite (escapes_safePath _ _ _ H).
Qed.

Lemma extractZipFile_escapes fs f d t :
  escapes d t (zName f) ->
  extractZipFile fs f d t = Err (illegal (transform t (zName f))).
Proof.
  intros H. unfold extractZipFile.
  destruct (String.eqb_spec (transform t (zName f)) "") as [E|_];
    [now destruct H|].
  now rewrite (escapes_safePath _ _ _ H).
Qed.

(** The loop stops at the first escaping entry, with the illegal-path
    error if every entry before it went through, and with their error
    otherwise; the entries after it are not looked at. *)
Lemma extractTarGz_loop_escapes pre : forall fs e post readErr d t,
  escapes d t (tName e) ->
  extractTarGz_loop fs (pre ++ e :: post) readErr d t =
    match extractTarGz_loop fs pre None d t with
    | (Ok _, fs1) => (Err (illegal (transform t (tName e))), fs1)
    | (Err err, fs1) => (Err err, fs1)
    end.
Proof.
  induction pre as [|x pre IH]; intros fs e post readErr d t He; simpl.
  - now rewrite extractTarEntry_escapes.
  - destruct (extractTarEntry fs x d t); [now apply IH|reflexivity].
Qed.

Lemma extractZip_loop_escapes pre : forall fs f post d t,
  escapes d t (zName f) ->
  extractZip_loop fs (pre ++ f :: post) d t =
    match extractZip_loop fs pre d t with
    | (Ok _, fs1) => (Err (illegal (transform t (zName f))), fs1)
    | (Err err, fs1) => (Err err, fs1)
    end.
Proof.
  induction pre as [|x pre IH]; intros fs f post d t Hf; simpl.
  - now rewrite extractZipFile_escapes.
  - destruct (extractZipFile fs x d t); [now apply IH|reflexivity].
Qed.

Lemma extractTarGz_settled fs archive d progress t :
  settled d fs (extractTarGz fs archive d progress t).2.
Proof.
  unfold extractTarGz.
  destruct (openError archive); [apply settled_refl|].
  destruct (os.MkdirAll fs d) as [fs1|] eqn:Hmk; [|apply settled_refl].
  assert (H1 : settled d fs fs1)
    by apply dirs_added_settled, (MkdirAll_dirs_added _ _ _ Hmk).
  destruct (if progress then countTarGzFiles archive else Ok 0%nat); [|exact H1].
  destruct (gzipError archive); [exact H1|].
  eapply settled_trans; [exact H1|apply extractTarGz_loop_settled].
Qed.

Lemma extractZip_settled fs archive d t :
  settled d fs (extractZip fs archive d t).2.
Proof.
  unfold extractZip. destruct archive as [files|]; [|apply settled_refl].
  destruct (os.MkdirAll fs d) as [fs1|] eqn:Hmk; [|apply settled_refl].
  eapply settled_trans; [|apply extractZip_loop_settled].
  apply dirs_added_settled, (MkdirAll_dirs_added _ _ _ Hmk).
Qed.

Lemma extractTarGz_escapes_fails fs archive d progress t pre e post :
  entries archive = pre ++ e :: post -> escapes d t (tName e) ->
  is_ok (extractTarGz fs archive d progress t).1 = false.
Proof.
  intros Hes He. unfold extractTarGz.
  destruct (openError archive); [reflexivity|].
  destruct (os.MkdirAll fs d) as [fs1|]; [|reflexivity].
  destruct (if progress then countTarGzFiles archive else Ok 0%nat); [|reflexivity].
  destruct (gzipError archive); [reflexivity|].
  rewrite Hes, extractTarGz_loop_escapes by exact He.
  now destruct (extractTarGz_loop fs1 pre None d t) as [[|] ?].
Qed.

Lemma extractTarGz_first_escape fs archive d progress t pre e post fs1 :
  entries archive = pre ++ e :: post -> escapes d t (tName e) ->
  openError archive = None -> gzipError archive = None ->
  (progress = true -> readError archive = None) ->
  os.MkdirAll fs d = Ok fs1 ->
  (extractTarGz_loop fs1 pre None d t).1 = Ok tt ->
  extractTarGz fs archive d progress t
  = (Err (illegal (transform t (tName e))),
     (extractTarGz_loop fs1 pre None d t).2).
Proof.
  intros Hes He Hopen Hgz Hread Hmk Hpre. unfold extractTarGz.
  rewrite Hopen, Hmk.
  assert (Hc : exists n, (if progress then countTarGzFiles archive else Ok 0%nat) = Ok n).
  { destruct progress; [|eauto]. unfold countTarGzFiles.
    rewrite Hgz, (Hread eq_refl). eauto. }
  destruct Hc as [n ->]. rewrite Hgz, Hes.
  rewrite extractTarGz_loop_escapes by exact He.
  destruct (extractTarGz_loop fs1 pre None d t) as [[|] ?]; simpl in *;
    [reflexivity|discriminate].
Qed.

(** What safePath does guarantee.  Extraction of a gzipped tar and of a
    zip archive into [destDir], with or without a name transformer, on
    any file system:
    - but at or below [destDir] (paths compared as spelled, in cleaned
      form) the file system after the extraction is the one before it
      with directories created where nothing was;
    - an archive with a member whose transformed name is not empty and
      whose cleaned destination safePath refuses is never extracted with
      success; when the members before it went through, the extraction
      stops at it with the illegal-path error, the file system being as
      those members left it;
    - when [destDir] starts at the root, the cleaned paths that are
      compared are the absolute paths of [destDir] and of the destination,
      in every working directory. *)
Theorem extraction_path_safety (fs : os.FS) (destDir : string)
    (t : NameTransformerFunc) :
  (forall (archive : TarGzArchive) (progress : bool),
     settled destDir fs (extractTarGz fs archive destDir progress t).2 /\
     (forall pre e post,
        entries archive = pre ++ e :: post -> escapes destDir t (tName e) ->
        is_ok (extractTarGz fs archive destDir progress t).1 = false /\
        (forall fs1,
           openError archive = None -> gzipError archive = None ->
           (progress = true -> readError archive = None) ->
           os.MkdirAll fs destDir = Ok fs1 ->
           (extractTarGz_loop fs1 pre None destDir t).1 = Ok tt ->
           extractTarGz fs archive destDir progress t
           = (Err (illegal (transform t (tName e))),
              (extractTarGz_loop fs1 pre None destDir t).2)))) /\
  (forall (files : list ZipFile),
     settled destDir fs (extractZip fs (Ok files) destDir t).2 /\
     (forall pre f post,
        files = pre ++ f :: post -> escapes destDir t (zName f) ->
        is_ok (extractZip fs (Ok files) destDir t).1 = false /\
        (forall fs1,
           os.MkdirAll fs destDir = Ok fs1 ->
           (extractZip_loop fs1 pre destDir t).1 = Ok tt ->
           extractZip fs (Ok files) destDir t
           = (Err (illegal (transform t (zName f))),
              (extractZip_loop fs1 pre destDir t).2)))) /\
  (filepath.IsAbs destDir = true ->
   forall wd name,
     filepath.Abs wd destDir = filepath.Clean destDir /\
     filepath.Abs wd (filepath.Join destDir name)
     = filepath.Clean (filepath.Join destDir name)).
Proof.
  split; [|split].
  - intros archive progress. split; [apply extractTarGz_settled|].
    intros pre e post Hes He. split.
    + eapply extractTarGz_escapes_fails; eassumption.
    + intros fs1 ? ? ? ? ?. eapply extractTarGz_first_escape; eassumption.
  - intros files. split; [apply extractZip_settled|].
    intros pre f post -> Hf. unfold extractZip. split.
    + destruct (os.MkdirAll fs destDir) as [fs1|]; [|reflexivity].
      rewrite extractZip_loop_escapes by exact Hf.
      now destruct (extractZip_loop fs1 pre destDir t) as [[|] ?].
    + intros fs1 -> Hpre. rewrite extractZip_loop_escapes by exact Hf.
      destruct (extractZip_loop fs1 pre destDir t) as [[|] ?]; simpl in *;
        [reflexivity|discriminate].
  - intros Habs wd name. split; apply Abs_rooted; [exact Habs|].
    now apply Join_IsAbs.
Qed.

(** The wrappers keep the property: [Archive] removes [destDir] first,
    which touches nothing outside it. *)
Lemma Archive_settled fs archivePath archive d progress t :
  settled d fs (Archive fs archivePath archive d progress t).2 /\
  settled d fs (ArchiveWithoutCleanup fs archivePath archive d progress t).2.
Proof.
  assert (Hd : forall fs0, settled d fs0 (dispatch fs0 archivePath archive d progress t).2).
  { intros fs0. unfold dispatch. destruct (String.eqb _ ".zip").
    - apply extractZip_settled.
    - destruct (_ || _); [apply extractTarGz_settled|apply settled_refl]. }
  split.
  - assert (Hrm : settled d fs (os.RemoveAll fs d).2)
      by (intros p Hp; left; now apply RemoveAll_outside).
    unfold Archive. destruct (os.RemoveAll fs d) as [[[]|e] fs1]; [|exact Hrm].
    eapply settled_trans; [exact Hrm|apply Hd].
  - unfold ArchiveWithoutCleanup. destruct (os.MkdirAll fs d) as [fs1|] eqn:Hmk;
      [|apply settled_refl].
    eapply settled_trans; [|apply Hd].
    apply dirs_added_settled, (MkdirAll_dirs_added _ _ _ Hmk).
Qed.

(** A tar archive at work: a directory, a file inside it, and a member
    that climbs out through "..": the first two are extracted under
    /opt/game, the third stops the extraction, and /etc/passwd is as it
    was. *)
Example extractTarGz_zip_slip :
  let fs := {[ "/etc" := os.Dir; "/etc/passwd" := os.File [114; 111; 111; 116] ]} in
  let archive :=
    {| openError := None; gzipError := None; readError := None;
       entries := [ {| tName := "bin/"; Typeflag := TypeDir; tBody := [] |};
                    {| tName := "bin/run"; Typeflag := TypeReg; tBody := [1; 2; 3] |};
                    {| tName := "../../etc/passwd"; Typeflag := TypeReg; tBody := [0] |};
                    {| tName := "late"; Typeflag := TypeReg; tBody := [9] |} ] |} in
  let out := extractTarGz fs archive "/opt/game" true None in
  out.1 = Err (illegal "../../etc/passwd") /\
  out.2 !! "/opt/game/bin/run" = Some (os.File [1; 2; 3]) /\
  out.2 !! "/etc/passwd" = Some (os.File [114; 111; 111; 116]) /\
  out.2 !! "/opt/game/late" = None.
Proof. vm_compute. auto. Qed.

(** C2.  safePath compares the paths as they are spelled and resolves
    nothing against the working directory, so a relative destDir that
    climbs lets a member out.  Extracting a tar archive, or a zip
    archive, whose one member is named ../.bashrc into destDir "..",
    with no name transformer, succeeds and writes the member at
    ../../.bashrc.  In the working directory /home/u/games/app that is
    /home/u/.bashrc, which is neither /home/u/games, the absolute
    destDir, nor below it. *)
Theorem extraction_relative_escape :
  let wd := "/home/u/games/app" in
  let tar :=
    {| openError := None; gzipError := None; readError := None;
       entries := [ {| tName := "../.bashrc"; Typeflag := TypeReg;
                       tBody := [35] |} ] |} in
  let zip := Ok [ {| zName := "../.bashrc"; zIsDir := false;
                     zBody := Ok [35] |} ] in
  safePath ".." "../.bashrc" = Ok "../../.bashrc" /\
  (extractTarGz ∅ tar ".." true None).1 = Ok tt /\
  (extractTarGz ∅ tar ".." true None).2 !! "../../.bashrc" = Some (os.File [35]) /\
  (extractZip ∅ zip ".." None).1 = Ok tt /\
  (extractZip ∅ zip ".." None).2 !! "../../.bashrc" = Some (os.File [35]) /\
  filepath.Abs wd ".." = "/home/u/games" /\
  filepath.Abs wd "../../.bashrc" = "/home/u/.bashrc" /\
  os.under (filepath.Abs wd "..") (filepath.Abs wd "../../.bashrc") = false.
Proof. vm_compute. repeat split. Qed.

(** With a relative [destDir] the comparison is between relative
    spellings, whatever the working directory: nothing is resolved. *)
Example safePath_relative :
  safePath "out" "bin/run" = Ok "out/bin/run" /\
  safePath "out" "../run" = Err (illegal "../run") /\
  safePath ".." "../run" = Ok "../../run" /\
  safePath "." "run" = Err (illegal "run").
Proof. repeat split. Qed.

End ExtractProofs.
(** * Proofs: internal/crypto files and internal/appstate *)
Section FileProofs.

Lemma GetOrGenKey_stored store c rnd key k :
  keyring.get store c keyring.ServiceName key = Ok (Some k) ->
  keyring.GetOrGenKey store c rnd key = (Ok k, c).
Proof. intros H. unfold keyring.GetOrGenKey. now rewrite H. Qed.

Lemma WriteFile_ReadFile fs path data fs' :
  os.WriteFile fs path data = Ok fs' -> os.ReadFile fs' path = Ok data.
Proof.
  intros H. pose proof (WriteFile_insert _ _ _ _ H) as ->.
  unfold os.WriteFile, os.ReadFile, os.named, os.node_at in *.
  destruct (String.eqb path ""); [discriminate|].
  destruct (os.root_like (os.key path)); [discriminate|].
  now rewrite lookup_insert_eq.
Qed.

Lemma append_not_empty (a b : string) : b <> "" -> String.eqb (a +:+ b) "" = false.
Proof.
  intros Hb. apply String.eqb_neq. destruct a; [exact Hb|discriminate].
Qed.

Lemma DatFile_stable fs base data fs' :
  os.WriteFile fs (crypto.DatFile fs base) data = Ok fs' ->
  crypto.DatFile fs' base = crypto.DatFile fs base.
Proof.
  intros H. pose proof (WriteFile_insert _ _ _ _ H) as Hfs.
  assert (Hroot : os.root_like (os.key (crypto.DatFile fs base)) = false).
  { unfold os.WriteFile, os.named, os.node_at in H.
    destruct (String.eqb _ ""); [discriminate|].
    destruct (os.root_like _); [discriminate|reflexivity]. }
  unfold crypto.DatFile in *. unfold os.Stat, os.named, os.node_at in *.
  rewrite append_not_empty in * by discriminate.
  destruct (os.root_like (os.key (base +:+ ".json"))) eqn:Er; [reflexivity|].
  destruct (fs !! os.key (base +:+ ".json")) as [[|d|]|] eqn:E; simpl in *;
    subst fs'.
  - rewrite lookup_insert_ne, E; [reflexivity|]. apply not_eq_sym, Clean_json_dat.
  - now rewrite lookup_insert_eq.
  - rewrite lookup_insert_ne, E; [reflexivity|]. apply not_eq_sym, Clean_json_dat.
  - rewrite lookup_insert_ne, E; [reflexivity|]. apply not_eq_sym, Clean_json_dat.
Qed.



End FileProofs.

Section AppstateProofs.
Import appstate.


(** Scenario S2: the same file loaded by a build for linux-arm64. *)
Example Load_platform_mismatch :
  (Load samples.arm64Env
        (Save samples.releaseEnv samples.world samples.rnd samples.rnd
              samples.installed "applied_game")
        samples.rnd "release").1
  = Err (errors.New ("platform mismatch: saved platform linux-amd64 "
                     +:+ "does not match current platform linux-arm64")).
Proof. vm_compute. reflexivity. Qed.

End AppstateProofs.
(** * Proofs: internal/selfupdate *)
Section SelfupdateProofs.
Import selfupdate.
Variable keyName : string.

Lemma crypto_ReadFile_fs env w rnd path name :
  crypto.fs (crypto.ReadFile env w rnd path name).2 = crypto.fs w.
Proof.
  unfold crypto.ReadFile. destruct (os.ReadFile (crypto.fs w) path); [|reflexivity].
  destruct (keyring.GetOrGenKey _ _ _ _) as [[key|err] c]; reflexivity.
Qed.

Lemma readNote_fs env w rnd :
  crypto.fs (readNote keyName env w rnd).2 = crypto.fs w.
Proof.
  unfold readNote.
  pose proof (crypto_ReadFile_fs env w rnd
                (cleanupNoteFile env (crypto.fs w)) keyName) as H.
  destruct (crypto.ReadFile env w rnd _ keyName) as [[data|err] w1]; simpl in *.
  - now destruct (Unmarshal data _).
  - now destruct (errors.Is err ErrNotExist).
Qed.

(** Removing a regular file takes exactly its entry away. *)
Lemma Remove_File fs path d :
  os.named fs path = Some (os.File d) ->
  os.Remove fs path = Ok (delete (os.key path) fs).
Proof. intros H. unfold os.Remove. now rewrite H. Qed.

Lemma named_deleted (fs : os.FS) path d :
  os.named fs path = Some (os.File d) ->
  os.named (delete (os.key path) fs) path = None.
Proof.
  unfold os.named, os.node_at.
  destruct (String.eqb path ""); [discriminate|].
  destruct (os.root_like (os.key path)); [discriminate|].
  now rewrite lookup_delete_eq.
Qed.

Lemma Stat_deleted (fs : os.FS) path d :
  os.named fs path = Some (os.File d) ->
  os.Stat (delete (os.key path) fs) path = Err ErrNotExist.
Proof.
  unfold os.Stat, os.named, os.node_at.
  destruct (String.eqb path ""); [discriminate|].
  destruct (os.root_like (os.key path)); [discriminate|].
  now rewrite lookup_delete_eq.
Qed.

(** The deferred removal takes the note's entry away or nothing. *)
Lemma removeNote_fs env w :
  crypto.fs (removeNote env w) = crypto.fs w \/
  crypto.fs (removeNote env w)
  = delete (os.key (cleanupNoteFile env (crypto.fs w))) (crypto.fs w).
Proof.
  unfold removeNote, os.Remove.
  destruct (os.named _ _) as [[|d|]|]; cbn; auto.
  destruct (String.eqb _ "/"); [now left|].
  destruct (String.eqb _ "."); [now left|].
  destruct (os.has_children _ _); cbn; auto.
Qed.

Lemma consumeCleanupNote_fs env w rnd :
  let out := consumeCleanupNote keyName env w rnd in
  out.1 = (readNote keyName env w rnd).1 /\
  (crypto.fs out.2 = crypto.fs w \/
   crypto.fs out.2 = delete (os.key (cleanupNoteFile env (crypto.fs w))) (crypto.fs w)).
Proof.
  cbn zeta. unfold consumeCleanupNote.
  pose proof (readNote_fs env w rnd) as Hfs.
  destruct (readNote keyName env w rnd) as [r w1]. cbn in *.
  split; [reflexivity|]. rewrite <- Hfs. apply removeNote_fs.
Qed.

(** Without a note file the call does nothing at all. *)
Lemma consumeCleanupNote_none env w rnd :
  os.named (crypto.fs w) (cleanupNoteFile env (crypto.fs w)) = None ->
  consumeCleanupNote keyName env w rnd = (Ok None, w).
Proof.
  intros Hnone. unfold consumeCleanupNote, readNote, crypto.ReadFile, os.ReadFile.
  rewrite Hnone. cbn [errors.Is]. rewrite bool_decide_eq_true_2 by reflexivity.
  cbn [orb]. unfold removeNote, os.Remove. now rewrite Hnone.
Qed.



End SelfupdateProofs.

Section SelfupdateExamples.
Import selfupdate.



(** A note written by [WriteFile] is read back once, and only once. *)
Example consume_written_note :
  let note := {| Channel := "release"; Version := "2026-01-10-c3879fa" |} in
  let w := (WriteFile "cleanup" samples.releaseEnv samples.world samples.rnd
                      samples.rnd note).2 in
  let first := consumeCleanupNote "cleanup" samples.releaseEnv w samples.rnd in
  let second := consumeCleanupNote "cleanup" samples.releaseEnv first.2 samples.rnd in
  first.1 = Ok (Some note) /\ second.1 = Ok None.
Proof. cbv zeta. split; vm_compute; reflexivity. Qed.

End SelfupdateExamples.
(** * Proofs: internal/auth *)
Section AuthProofs.
Import auth.
Variable keyName : string.
Variable marshal : account.Account -> result (list Z).
Variable env : build.Env.






(** watchTokenSource.Token calls back exactly when the token it gets is
    not the one it saw last, and then remembers it. *)
Lemma Token_calls_back s token c w rnd rnd' :
  Token keyName marshal env s (Ok token) c w rnd rnd'
  = if tokenEqual (prev s) (Some token)
    then (Ok token, s, (c, w))
    else (Ok token, {| prev := Some token |},
          tokenChanged keyName marshal env c w rnd rnd' token).
Proof. unfold Token. now destruct (tokenEqual (prev s) (Some token)). Qed.

End AuthProofs.

Section AuthExamples.
Import auth.


(** After the rotation the account file holds the updated account: read
    back and decrypted, it is the JSON form of the account with the new
    token; a refresh that only moves the expiry leaves everything alone. *)
Example tokenChanged_file :
  let out := tokenChanged "account" samples.marshalAccount samples.releaseEnv
               samples.controller samples.world samples.rnd samples.rnd
               samples.rotated in
  (crypto.ReadFile samples.releaseEnv out.2 samples.rnd
     "/home/u/.local/share/hytale/account.dat" "account").1
  = samples.marshalAccount
      (withToken samples.steves samples.steve
         {| account.AccessToken := "access-2"; account.RefreshToken := "refresh-2";
            account.Expiry := 1767229200 |}) /\
  os.Stat (crypto.fs samples.world) "/home/u/.local/share/hytale/account.dat"
  = Err ErrNotExist.
Proof. cbv zeta. split; vm_compute; reflexivity. Qed.

End AuthExamples.
(** * Proofs: internal/playerprofile *)
Section PlayerProfileProofs.
Import playerprofile.

Lemma MustParse_DNS :
  uuid.MustParse "6ba7b810-9dad-11d1-80b4-00c04fd430c8" = Ok uuid.NameSpaceDNS.
Proof. reflexivity. Qed.

Lemma GetOrCreateProfile_fresh m fs n :
  no_profile m n ->
  GetOrCreateProfile m fs n
  = match saveLocked (created m n) fs with
    | (Err err, fs') => (Err err, created m n, fs')
    | (Ok _, fs') =>
        (Ok (Some {| Name := n; UUID := v5 n; CreatedAt := getTodayISO8601 |}),
         created m n, fs')
    end.
Proof.
  intros (ps & Hps & Hn). unfold GetOrCreateProfile, created.
  rewrite Hps. cbn [mbind option_bind fmap option_fmap option_map].
  rewrite Hn, MustParse_DNS. reflexivity.
Qed.

Lemma GetUUID_fresh m fs n :
  no_profile m n ->
  GetUUID m fs n
  = match saveLocked (created m n) fs with
    | (Err err, fs') => (Err err, created m n, fs')
    | (Ok _, fs') => (Ok (v5 n), created m n, fs')
    end.
Proof.
  intros H. unfold GetUUID. rewrite (GetOrCreateProfile_fresh _ _ _ H).
  now destruct (saveLocked (created m n) fs) as [[|] ?].
Qed.

Lemma GetUUID_created m fs n :
  no_profile m n -> GetUUID (created m n) fs n = (Ok (v5 n), created m n, fs).
Proof.
  intros (ps & Hps & _). unfold GetUUID, GetOrCreateProfile, created.
  rewrite Hps. cbn [profiles mbind option_bind fmap option_fmap option_map].
  now rewrite lookup_insert_eq.
Qed.

(** C8.  Take two installs (a manager and a file system each) whose maps
    hold no profile for the name [n].  In each, GetUUID returns the
    version 5 UUID of [n] in the DNS name space
    6ba7b810-9dad-11d1-80b4-00c04fd430c8 as soon as the profile file can be
    saved; whatever UUIDs the two calls return are equal, and are that
    UUID; and a later call in the same install returns it again, touching
    neither the manager nor the files. *)
Theorem GetUUID_deterministic (m1 m2 : Manager) (fs1 fs2 : os.FS) (n : string)
    (H1 : no_profile m1 n) (H2 : no_profile m2 n) :
  let out1 := GetUUID m1 fs1 n in
  let out2 := GetUUID m2 fs2 n in
  (is_ok (saveLocked (created m1 n) fs1).1 = true -> out1.1.1 = Ok (v5 n)) /\
  (is_ok (saveLocked (created m2 n) fs2).1 = true -> out2.1.1 = Ok (v5 n)) /\
  (forall u1 u2, out1.1.1 = Ok u1 -> out2.1.1 = Ok u2 -> u1 = u2 /\ u1 = v5 n) /\
  (forall fs', GetUUID out1.1.2 fs' n = (Ok (v5 n), out1.1.2, fs')).
Proof.
  intros out1 out2. subst out1 out2.
  rewrite (GetUUID_fresh _ fs1 _ H1), (GetUUID_fresh _ fs2 _ H2).
  destruct (saveLocked (created m1 n) fs1) as [[[]|e1] fs1'];
    destruct (saveLocked (created m2 n) fs2) as [[[]|e2] fs2']; simpl;
    (split; [try reflexivity; discriminate|]);
    (split; [try reflexivity; discriminate|]);
    (split; [intros u1 u2 E1 E2; try discriminate; split; congruence|]);
    intros fs'; now apply GetUUID_created.
Qed.

End PlayerProfileProofs.

Section PlayerProfileExamples.
Import playerprofile.

(** Two installs with different files and different profiles stored, none
    of them for Steve. *)
Lemma GetUUID_deterministic_witness :
  let m1 := New "/home/u/.local/share/hytale/player_profiles.json" in
  let m2 := created (New "/data/player_profiles.json") "Alex" in
  (GetUUID m1 samples.disk "Steve").1.1 = Ok "47d0d4af-fd60-5b0e-9ad2-dae2a0a03eec" /\
  (GetUUID m2 ∅ "Steve").1.1 = Ok "47d0d4af-fd60-5b0e-9ad2-dae2a0a03eec".
Proof.
  intros m1 m2.
  assert (H1 : no_profile m1 "Steve") by (eexists; split; reflexivity).
  assert (H2 : no_profile m2 "Steve").
  { eexists; split; [reflexivity|]. vm_compute. reflexivity. }
  destruct (GetUUID_deterministic m1 m2 samples.disk ∅ "Steve" H1 H2)
    as (A & B & _).
  split; [rewrite A | rewrite B]; vm_compute; reflexivity.
Defined.

(** RFC 4122 version 5 on a name whose UUID is widely published. *)
Example v5_python_org : v5 "python.org" = "886313e1-3b8a-5372-9b90-0c9aee199e5d".
Proof. vm_compute. reflexivity. Qed.

(** A profile that the file already holds is returned as it is stored,
    whatever its UUID; a file holding null leaves the nil map, in which no
    profile can be created. *)
Example GetUUID_stored :
  let path := "/home/u/.local/share/hytale/player_profiles.json" in
  let stored := {| Name := "Steve"; UUID := "0000"; CreatedAt := "" |} in
  let text := json.MarshalIndent (profiles_to_json (Some {[ "Steve" := Some stored ]})) in
  let started data :=
    match os.WriteFile samples.disk path data with
    | Ok fs => (GetUUID (Load (New path) fs).2 fs "Steve").1.1
    | Err err => Err err
    end in
  started text = Ok "0000" /\
  started (bytes.of_string "null") = Err (Panic "assignment to entry in nil map").
Proof. cbv zeta. split; vm_compute; reflexivity. Qed.

End PlayerProfileExamples.
(** * Proofs: internal/download *)
Section DownloadProofs.
Import download.

Lemma named_temp base name fs :
  holds_temp base name fs -> exists d, os.named fs name = Some (os.File d).
Proof.
  intros (Hn & Hr & _ & d & ->). exists d.
  unfold os.named, os.node_at. now rewrite Hn, Hr, lookup_insert_eq.
Qed.

Lemma CreateTemp_holds fs dir pattern rnd fs' name :
  os.CreateTemp fs dir pattern rnd = Ok (fs', name) ->
  holds_temp fs name fs' /\ fs' = <[os.key name := os.File []]> fs.
Proof.
  unfold os.CreateTemp. destruct (os.contains_sep pattern); [discriminate|].
  destruct (os.split_pattern pattern) as [prefix suffix].
  set (n := os.joinPath _ prefix +:+ rnd +:+ suffix).
  destruct (os.node_at fs (os.key n)) eqn:E; [discriminate|].
  destruct (os.parent_ready fs (os.key n)); [|discriminate].
  intros [= <- <-]. unfold os.node_at in E.
  destruct (os.root_like (os.key n)) eqn:Er; [discriminate|].
  split; [|reflexivity]. split; [|split; [exact Er|split; [exact E|eauto]]].
  destruct (String.eqb n "") eqn:En; [|reflexivity].
  apply String.eqb_eq in En. rewrite En in Er. discriminate Er.
Qed.

Lemma Append_holds base name fs c :
  holds_temp base name fs ->
  exists fs', os.Append fs name c = Ok fs' /\ holds_temp base name fs'.
Proof.
  intros (Hn & Hr & Hb & d & ->). unfold os.Append, os.node_at.
  rewrite Hr, lookup_insert_eq. eexists. split; [reflexivity|].
  rewrite insert_insert_eq. repeat split; eauto.
Qed.

Lemma copy_body_holds ctx chunks tail base name : forall i fs,
  holds_temp base name fs ->
  holds_temp base name (copy_body ctx i chunks tail fs name).2.
Proof.
  induction chunks as [|c rest IH]; intros i fs H; simpl;
    destruct (ctx i); try exact H.
  destruct (0 <? length c)%nat; [|now apply IH].
  destruct (Append_holds _ _ _ c H) as (fs' & -> & H'). now apply IH.
Qed.

Lemma discard_holds base name fs :
  holds_temp base name fs -> discard fs name = base.
Proof.
  intros H. destruct (named_temp _ _ _ H) as [d Hd].
  destruct H as (_ & _ & Hb & d' & ->).
  unfold discard, os.Remove. rewrite Hd. now apply delete_insert_id.
Qed.

Lemma downloadFile_holds n ctx client url base name fs sent :
  holds_temp base name fs ->
  holds_temp base name (downloadFile n ctx client url fs name sent).1.2.
Proof.
  intros H. unfold downloadFile. destruct (checkOffline n); [exact H|].
  destruct (http.NewRequest n http.MethodGet url) as [req|]; [|exact H].
  unfold http.Do. destruct (client req) as [resp|]; [|exact H].
  destruct (http.StatusCode resp =? http.StatusNotFound); [exact H|].
  destruct (negb (http.StatusCode resp =? http.StatusOK)); [exact H|].
  pose proof (copy_body_holds ctx (http.Body resp) (http.bodyError resp)
                base name 0%nat fs H) as H'.
  now destruct (copy_body _ _ _ _ _ _).
Qed.

Lemma Stat_absent (fs : os.FS) name :
  String.eqb name "" = false -> os.root_like (os.key name) = false ->
  fs !! os.key name = None -> os.Stat fs name = Err ErrNotExist.
Proof.
  intros Hn Hr Hb. unfold os.Stat, os.named, os.node_at. now rewrite Hn, Hr, Hb.
Qed.

(** A failed DownloadTemp leaves the files as they were once the
    directory was made: the temporary file is gone. *)
Lemma DownloadTemp_failure n ctx client fs rnd sent dir url sha256 fs1 fs2 name e :
  os.MkdirAll fs dir = Ok fs1 ->
  os.CreateTemp fs1 dir ("dl-*-" +:+ base url) rnd = Ok (fs2, name) ->
  (DownloadTemp n ctx client fs rnd sent dir url sha256).1.1 = Err e ->
  (DownloadTemp n ctx client fs rnd sent dir url sha256).1.2 = fs1 /\
  os.Stat fs1 name = Err ErrNotExist.
Proof.
  intros Hdir Htmp. unfold DownloadTemp. rewrite Hdir, Htmp.
  apply CreateTemp_holds in Htmp as [Hh _].
  pose proof (downloadFile_holds n ctx client url _ _ _ sent Hh) as H3.
  assert (Habs : os.Stat fs1 name = Err ErrNotExist).
  { destruct Hh as (? & ? & ? & _). now apply Stat_absent. }
  destruct (downloadFile n ctx client url fs2 name sent) as [[[err|] fs3] sent'];
    simpl in H3.
  - destruct (Is err Canceled); simpl; intros _;
      (split; [now apply discard_holds|exact Habs]).
  - destruct (negb (String.eqb sha256 "")); [|discriminate].
    destruct (verifySHA256 fs3 name sha256); [discriminate|].
    simpl. intros _. split; [now apply discard_holds|exact Habs].
Qed.

Lemma verifySHA256_empty base name fs sha256 :
  holds_temp base name fs -> fs = <[os.key name := os.File []]> base ->
  verifySHA256 fs name sha256
  = if String.eqb emptyHash sha256 then Ok tt
    else Err (New ("checksum mismatch: expected " +:+ sha256
                   +:+ ", got " +:+ emptyHash)).
Proof.
  intros (Hn & Hr & _ & _) ->. unfold verifySHA256, ioutil.VerifySHA256.
  unfold os.named, os.node_at. rewrite Hn, Hr, lookup_insert_eq.
  unfold emptyHash. cbv beta iota zeta. reflexivity.
Qed.

#[local] Opaque emptyHash.

(** C5, as amended.  Let the directory be made, the temporary file be
    created, the launcher be online, and the client answer the request
    with a response.
    - If its status is 404 and no checksum is asked for (or the checksum
      of the empty file is), DownloadTemp succeeds and returns the path of
      the temporary file, which has no content.
    - If its status is 404 and another checksum is asked for, DownloadTemp
      fails with the checksum mismatch.
    - If its status is neither 404 nor 200, DownloadTemp fails with the
      bad-status error.
    - Whenever DownloadTemp fails, the temporary file is removed: the files
      are as they were once the directory was made. *)
Theorem DownloadTemp_status (n : http.Net) (ctx : nat -> option error)
    (client : http.Client) (fs : os.FS) (rnd : string) (sent : list http.Request)
    (dir url sha256 : string) (fs1 fs2 : os.FS) (name : string)
    (req : http.Request) (resp : http.Response)
    (Hdir : os.MkdirAll fs dir = Ok fs1)
    (Htmp : os.CreateTemp fs1 dir ("dl-*-" +:+ base url) rnd = Ok (fs2, name))
    (Hon : checkOffline n = None)
    (Hreq : http.NewRequest n http.MethodGet url = Ok req)
    (Hresp : client req = Ok resp) :
  let out := DownloadTemp n ctx client fs rnd sent dir url sha256 in
  (http.StatusCode resp = 404 -> sha256 = "" \/ sha256 = emptyHash ->
     out = (Ok name, fs2, sent ++ [req]) /\ os.ReadFile fs2 name = Ok []) /\
  (http.StatusCode resp = 404 -> sha256 <> "" -> sha256 <> emptyHash ->
     out = (Err (New ("checksum mismatch: expected " +:+ sha256
                      +:+ ", got " +:+ emptyHash)), fs1, sent ++ [req])) /\
  (http.StatusCode resp <> 404 -> http.StatusCode resp <> 200 ->
     out = (Err (Wrap ("error downloading file from " +:+ strconv.Quote url)
                   (New ("bad status: " +:+ http.Status resp))),
            fs1, sent ++ [req])) /\
  (forall e, out.1.1 = Err e ->
     out.1.2 = fs1 /\ os.Stat fs1 name = Err ErrNotExist).
Proof.
  intros out.
  assert (Hfail : forall e, out.1.1 = Err e ->
            out.1.2 = fs1 /\ os.Stat fs1 name = Err ErrNotExist).
  { intros e. now apply DownloadTemp_failure with (fs2 := fs2). }
  subst out. unfold DownloadTemp in *. rewrite Hdir, Htmp in *.
  destruct (CreateTemp_holds _ _ _ _ _ _ Htmp) as [Hh Hfs2].
  unfold downloadFile in *. rewrite Hon, Hreq in *. unfold http.Do in *.
  rewrite Hresp in *.
  unfold http.StatusNotFound, http.StatusOK in *.
  split; [|split; [|split]].
  - intros H404 Hsha. rewrite (proj2 (Z.eqb_eq _ _) H404). split.
    + destruct Hsha as [->| ->]; [reflexivity|].
      destruct (negb (String.eqb emptyHash "")); [|reflexivity].
      now rewrite (verifySHA256_empty _ _ _ _ Hh Hfs2), String.eqb_refl.
    + destruct Hh as (Hn & Hr & _ & _). rewrite Hfs2.
      unfold os.ReadFile, os.named, os.node_at.
      now rewrite Hn, Hr, lookup_insert_eq.
  - intros H404 Hsha Hne. rewrite (proj2 (Z.eqb_eq _ _) H404).
    rewrite (proj2 (String.eqb_neq _ _) Hsha). cbn [negb].
    rewrite (verifySHA256_empty _ _ _ _ Hh Hfs2).
    rewrite (proj2 (String.eqb_neq emptyHash sha256)) by congruence.
    now rewrite (discard_holds _ _ _ Hh).
  - intros H404 H200.
    rewrite (proj2 (Z.eqb_neq _ _) H404), (proj2 (Z.eqb_neq _ _) H200).
    cbn [negb Is]. rewrite bool_decide_eq_false_2 by discriminate.
    cbn [orb]. now rewrite (discard_holds _ _ _ Hh).
  - exact Hfail.
Qed.

End DownloadProofs.

Section DownloadExamples.
Import download.

(** The patch server answers 404 and no checksum is asked for: the call
    returns the temporary file. *)
Lemma DownloadTemp_status_witness :
  (DownloadTemp samples.online samples.background samples.answer samples.bare
     "4021" [] "/tmp" samples.patchURL "").1.1
  = Ok "/tmp/dl-4021-43.pwr".
Proof.
  assert (Hdir : os.MkdirAll samples.bare "/tmp" = Ok samples.withTmp)
    by (vm_compute; reflexivity).
  assert (Htmp : os.CreateTemp samples.withTmp "/tmp"
                   ("dl-*-" +:+ base samples.patchURL) "4021"
                 = Ok (samples.withTemp, "/tmp/dl-4021-43.pwr"))
    by (vm_compute; reflexivity).
  destruct (DownloadTemp_status samples.online samples.background samples.answer
              samples.bare "4021" [] "/tmp" samples.patchURL ""
              _ _ _ samples.patchRequest samples.noPatch Hdir Htmp
              eq_refl eq_refl eq_refl) as (H404 & _).
  destruct (H404 eq_refl (or_introl eq_refl)) as [H _].
  rewrite H. reflexivity.
Defined.

(** C5 fails as stated: the same 404 answer, with the checksum of a patch
    asked for, makes DownloadTemp fail, and no temporary file is left. *)
Lemma DownloadTemp_404_checksum :
  let sha256 := "5891b5b522d5df086d0ff0b110fbd9d21bb4fc7163af34d08286a2e846f6be03" in
  let out := DownloadTemp samples.online samples.background samples.answer
               samples.disk "4021" [] samples.cacheDir samples.patchURL sha256 in
  out.1.1
  = Err (New ("checksum mismatch: expected " +:+ sha256 +:+ ", got "
              +:+ "e3b0c44298fc1c149afbf4c8996fb92427ae41e4649b934ca495991b7852b855")) /\
  os.Stat out.1.2 "/home/u/.local/share/hytale/cache/dl-4021-43.pwr" = Err ErrNotExist /\
  map http.URL out.2 = [samples.patchURL].
Proof. cbv zeta. repeat split; vm_compute; reflexivity. Qed.

(** DownloadTempSimple asks for no checksum: with it the 404 answer is a
    success and the file is empty, whatever body came with the answer. *)
Example DownloadTempSimple_404 :
  let out := DownloadTempSimple samples.cacheDir samples.online samples.background
               samples.disk "4021" [] samples.patchURL in
  out.1.1 = Ok "/home/u/.local/share/hytale/cache/dl-4021-43.pwr" /\
  os.ReadFile out.1.2 "/home/u/.local/share/hytale/cache/dl-4021-43.pwr" = Ok [].
Proof. cbv zeta. split; vm_compute; reflexivity. Qed.

End DownloadExamples.
(** * Proofs: the headers of the launcher's requests *)
Section RequestProofs.

Lemma NewRequest_bare n method url req :
  http.NewRequest n method url = Ok req -> headerless req.
Proof.
  unfold http.NewRequest. destruct (http.urlError n url); [discriminate|].
  now intros [= <-].
Qed.

Lemma bare_Get req key : headerless req -> http.Get (http.Header' req) key = "".
Proof. unfold headerless, http.Get. intros ->. now rewrite lookup_empty. Qed.

Lemma handed_none sent : handed sent sent = [].
Proof. apply drop_all. Qed.

Lemma handed_one sent req : handed sent (sent ++ [req]) = [req].
Proof. unfold handed. now rewrite drop_app_length. Qed.

Lemma Get_handed {T} (decode : json.value -> result T) n client urlStr params sent :
  Forall headerless (handed sent (ioutil.Get decode n client urlStr params sent).2).
Proof.
  unfold ioutil.Get.
  destruct (http.NewRequest n http.MethodGet _) as [req|] eqn:Hreq; simpl;
    [|rewrite handed_none; constructor].
  apply NewRequest_bare in Hreq.
  assert (Hone : Forall headerless (handed sent (sent ++ [req])))
    by (rewrite handed_one; repeat constructor; exact Hreq).
  destruct (default (http.DefaultClient n) client req) as [resp|]; [|exact Hone].
  destruct (negb (http.StatusCode resp =? http.StatusOK)); [exact Hone|].
  now destruct (_ ← ioutil.read_all resp; _).
Qed.

Lemma downloadFile_handed n ctx client url fs file sent :
  Forall headerless (handed sent (download.downloadFile n ctx client url fs file sent).2).
Proof.
  unfold download.downloadFile.
  destruct (download.checkOffline n); simpl; [rewrite handed_none; constructor|].
  destruct (http.NewRequest n http.MethodGet url) as [req|] eqn:Hreq; simpl;
    [|rewrite handed_none; constructor].
  apply NewRequest_bare in Hreq.
  assert (Hone : Forall headerless (handed sent (sent ++ [req])))
    by (rewrite handed_one; repeat constructor; exact Hreq).
  destruct (client req) as [resp|]; [|exact Hone].
  destruct (http.StatusCode resp =? http.StatusNotFound); [exact Hone|].
  destruct (negb (http.StatusCode resp =? http.StatusOK)); [exact Hone|].
  now destruct (download.copy_body _ _ _ _ _ _).
Qed.

Lemma DownloadTemp_handed n ctx client fs rnd sent dir url sha256 :
  Forall headerless
    (handed sent (download.DownloadTemp n ctx client fs rnd sent dir url sha256).2).
Proof.
  unfold download.DownloadTemp.
  destruct (os.MkdirAll fs dir) as [fs1|]; simpl; [|rewrite handed_none; constructor].
  destruct (os.CreateTemp fs1 dir _ rnd) as [[fs2 name]|]; simpl;
    [|rewrite handed_none; constructor].
  pose proof (downloadFile_handed n ctx client url fs2 name sent) as H.
  destruct (download.downloadFile n ctx client url fs2 name sent)
    as [[[err|] fs3] sent']; simpl in *.
  - now destruct (Is err Canceled).
  - destruct (negb (String.eqb sha256 "")); [|exact H].
    now destruct (download.verifySHA256 fs3 name sha256).
Qed.

(** What SetUserAgent puts on a request. *)
Lemma SetUserAgent_headers env req :
  let h := http.Header' (hytale.SetUserAgent env req) in
  http.Get h "User-Agent" = build.UserAgent env /\
  http.Get h "X-Hytale-Launcher-Version" = build.Version env /\
  http.Get h "X-Hytale-Launcher-Branch" = build.Release env.
Proof.
  unfold hytale.SetUserAgent, http.Get, http.Set'. cbn [http.Header'].
  change (http.CanonicalHeaderKey "User-Agent") with "User-Agent".
  change (http.CanonicalHeaderKey "X-Hytale-Launcher-Version")
    with "X-Hytale-Launcher-Version".
  change (http.CanonicalHeaderKey "X-Hytale-Launcher-Branch")
    with "X-Hytale-Launcher-Branch".
  repeat split.
  - now rewrite !lookup_insert_ne, lookup_insert_eq by discriminate.
  - now rewrite lookup_insert_ne, lookup_insert_eq by discriminate.
  - now rewrite lookup_insert_eq.
Qed.

(** C6, on the code.  Every request that the JSON GET and the streaming
    download hand to their client is as NewRequest made it: it has no
    header, so none of User-Agent, X-Hytale-Launcher-Version and
    X-Hytale-Launcher-Branch, which SetUserAgent would have set to the
    user agent, the version and the release of the build. *)
Theorem requests_without_launcher_headers :
  (forall T (decode : json.value -> result T) n client urlStr params sent,
     Forall (fun req => http.Get (http.Header' req) "User-Agent" = "" /\
                        http.Get (http.Header' req) "X-Hytale-Launcher-Version" = "" /\
                        http.Get (http.Header' req) "X-Hytale-Launcher-Branch" = "")
       (handed sent (ioutil.Get decode n client urlStr params sent).2)) /\
  (forall n ctx client fs rnd sent dir url sha256,
     Forall (fun req => http.Get (http.Header' req) "User-Agent" = "" /\
                        http.Get (http.Header' req) "X-Hytale-Launcher-Version" = "" /\
                        http.Get (http.Header' req) "X-Hytale-Launcher-Branch" = "")
       (handed sent
          (download.DownloadTemp n ctx client fs rnd sent dir url sha256).2)) /\
  (forall env req,
     http.Get (http.Header' (hytale.SetUserAgent env req)) "User-Agent"
       = build.UserAgent env /\
     build.UserAgent env <> "").
Proof.
  split; [|split].
  - intros. eapply Forall_impl; [apply Get_handed|].
    intros req H. cbv beta. now rewrite !(bare_Get _ _ H).
  - intros. eapply Forall_impl; [apply DownloadTemp_handed|].
    intros req H. cbv beta. now rewrite !(bare_Get _ _ H).
  - intros env req. split; [apply SetUserAgent_headers|].
    unfold build.UserAgent. now destruct (String.eqb _ _).
Qed.

End RequestProofs.

Section RequestExamples.

(** The news feed is fetched with the default client: the request goes
    out, the answer is decoded, and the request carried no header, where
    SetUserAgent would have named the launcher. *)
Example Get_feed_request :
  let out := ioutil.Get Ok samples.online None samples.feedURL ∅ [] in
  out.1 = Ok (json.Object []) /\
  out.2 = [ {| http.Method := "GET"; http.URL := samples.feedURL;
               http.Header' := ∅ |} ] /\
  Forall (fun req =>
            http.Get (http.Header' req) "User-Agent" = "" /\
            http.Get (http.Header' (hytale.SetUserAgent samples.releaseEnv req))
              "User-Agent" = "hytale-launcher/2026-01-10-c3879fa") out.2.
Proof.
  cbv zeta. split; [vm_compute; reflexivity|]. split; [reflexivity|].
  repeat constructor; vm_compute; reflexivity.
Qed.

End RequestExamples.
(** * More on internal/crypto: the layout of encrypted data *)
Section CryptoLayout.

Lemma NewCipher_key_size k :
  aes.NewCipher k = if key_size_ok k
                    then Some {| aes.roundKeys := aes.KeyExpansion k |} else None.
Proof. reflexivity. Qed.

Lemma Seal_length g nonce plaintext data :
  length (cipher.Seal g [] nonce plaintext data)
  = (length plaintext + cipher.gcmTagSize)%nat.
Proof.
  unfold cipher.Seal. simpl. now rewrite length_app, counterCrypt_length, auth_length.
Qed.

(** X1.  What Encrypt returns.  A dev build returns the data as it is,
    whatever the key.  Any other build refuses a key that is not 16, 24 or
    32 bytes long with a KeySizeError, and otherwise returns the marker
    'E', the 12 bytes drawn for the nonce, a ciphertext as long as the data
    and a tag of 16 bytes: 29 bytes more than the data. *)
Theorem Encrypt_layout (env : build.Env) (rnd : nat -> Z) (m k : list Z) :
  (build.Release env = "dev" -> crypto.Encrypt env rnd m k = Ok m) /\
  (build.Release env <> "dev" -> key_size_ok k = false ->
     crypto.Encrypt env rnd m k = Err (KeySizeError (length k))) /\
  (build.Release env <> "dev" -> key_size_ok k = true ->
     exists ct tag,
       crypto.Encrypt env rnd m k
       = Ok (crypto.marker :: map rnd (seq 0 12) ++ ct ++ tag) /\
       length ct = length m /\ length tag = 16%nat /\
       length (crypto.marker :: map rnd (seq 0 12) ++ ct ++ tag)
       = (length m + 29)%nat).
Proof.
  split; [apply Encrypt_dev|]. split.
  - intros Hrel Hk. unfold crypto.Encrypt.
    rewrite (proj2 (String.eqb_neq _ _) Hrel), NewCipher_key_size, Hk. reflexivity.
  - intros Hrel Hk.
    rewrite (Encrypt_release env rnd m k {| aes.roundKeys := aes.KeyExpansion k |} Hrel)
      by (now rewrite NewCipher_key_size, Hk).
    set (g := {| cipher.block := {| aes.roundKeys := aes.KeyExpansion k |} |}).
    set (nonce := map rnd (seq 0 cipher.gcmStandardNonceSize)).
    exists (cipher.counterCrypt g nonce m),
           (cipher.auth g nonce (cipher.counterCrypt g nonce m) []).
    split; [reflexivity|]. rewrite counterCrypt_length, auth_length.
    split; [reflexivity|]. split; [reflexivity|].
    rewrite length_cons, !length_app, length_map, length_seq, counterCrypt_length,
      auth_length.
    unfold cipher.gcmTagSize. lia.
Qed.

(** X2.  What Decrypt does at the edges.  Data that is empty or does not
    start with the marker 'E' is returned as it is, whatever the key.
    Marked data under a key of another length than 16, 24 or 32 bytes is a
    KeySizeError; with fewer than 12 bytes after the marker it is the
    error "ciphertext too short"; and whenever Decrypt succeeds on marked
    data, the data has at least 28 bytes after the marker and the plaintext
    is 28 bytes shorter than that. *)
Theorem Decrypt_edges (d k : list Z) :
  (hd_error d <> Some crypto.marker -> crypto.Decrypt d k = Ok d) /\
  (forall rest, d = crypto.marker :: rest ->
     (key_size_ok k = false -> crypto.Decrypt d k = Err (KeySizeError (length k))) /\
     (key_size_ok k = true -> (length rest < 12)%nat ->
        crypto.Decrypt d k = Err (New "ciphertext too short")) /\
     (forall p, crypto.Decrypt d k = Ok p ->
        key_size_ok k = true /\ (28 <= length rest)%nat /\
        length p = (length rest - 28)%nat)).
Proof.
  split; [apply Decrypt_plain|]. intros rest ->.
  unfold crypto.Decrypt. rewrite Z.eqb_refl. cbn [negb].
  rewrite NewCipher_key_size. destruct (key_size_ok k).
  - cbn [cipher.NewGCM]. unfold cipher.NonceSize.
    change cipher.gcmStandardNonceSize with 12%nat.
    split; [discriminate|]. split.
    + intros _ Hlen. now rewrite (proj2 (Nat.ltb_lt _ _) Hlen).
    + intros p. destruct (length rest <? 12)%nat eqn:E12; [discriminate|].
      apply Nat.ltb_ge in E12. unfold cipher.Open.
      rewrite length_drop. change cipher.gcmTagSize with 16%nat.
      destruct (length rest - 12 <? 16)%nat eqn:E16; [discriminate|].
      apply Nat.ltb_ge in E16.
      destruct (decide _); [|discriminate]. intros [= <-].
      split; [reflexivity|]. split; [lia|].
      simpl. rewrite counterCrypt_length, length_take, length_drop. lia.
  - split; [reflexivity|]. split; [discriminate|]. discriminate.
Qed.

End CryptoLayout.
(** * More on internal/crypto and internal/keyring: files and keys *)
Section FileExtras.

Lemma Encrypt_Decrypt_any env rnd data k :
  length k = 32%nat ->
  (build.Release env = "dev" -> hd_error data <> Some crypto.marker) ->
  exists enc, crypto.Encrypt env rnd data k = Ok enc /\
              crypto.Decrypt enc k = Ok data.
Proof.
  intros Hk Hd. destruct (decide (build.Release env = "dev")) as [Hdev|Hrel].
  - exists data. split; [now apply Encrypt_dev|apply Decrypt_plain, Hd, Hdev].
  - destruct (Encrypt_Decrypt_release env rnd data k Hrel Hk) as (s & ? & _ & ?).
    eauto.
Qed.

(** X3.  A file written by crypto.WriteFile is read back by
    crypto.ReadFile.  Let the keyring hold a 32-byte key under the name,
    and in a dev build let the data not start with the marker 'E'.  If
    WriteFile succeeds, then ReadFile of the same path and key name
    returns the data, whatever is drawn meanwhile; WriteFile has changed
    the file at the path and nothing else: no other file, not the keyring,
    not the log. *)
Theorem crypto_file_round_trip (env : build.Env) (w w' : crypto.World)
    (rnd rnd' rnd'' : nat -> Z) (path keyName : string) (data k : list Z)
    (Hkey : keyring.get (keyring.newKeyStore env) (crypto.creds w)
              keyring.ServiceName keyName = Ok (Some k))
    (Hlen : length k = 32%nat)
    (Hdev : build.Release env = "dev" -> hd_error data <> Some crypto.marker)
    (Hwrite : crypto.WriteFile env w rnd rnd' path keyName data = (Ok tt, w')) :
  crypto.ReadFile env w' rnd'' path keyName = (Ok data, w') /\
  crypto.creds w' = crypto.creds w /\ crypto.journal w' = crypto.journal w /\
  (forall p, p <> os.key path -> crypto.fs w' !! p = crypto.fs w !! p).
Proof.
  revert Hwrite. unfold crypto.WriteFile, crypto.ReadFile.
  rewrite (GetOrGenKey_stored _ _ _ _ _ Hkey).
  destruct (Encrypt_Decrypt_any env rnd' data k Hlen Hdev) as (enc & -> & Hdec).
  cbn [crypto.with_creds crypto.fs crypto.creds crypto.journal].
  destruct (os.WriteFile (crypto.fs w) path enc) as [fs'|] eqn:Hw; [|discriminate].
  intros [= <-]. cbn [crypto.with_fs crypto.fs crypto.creds crypto.journal].
  rewrite (WriteFile_ReadFile _ _ _ _ Hw), (GetOrGenKey_stored _ _ _ _ _ Hkey), Hdec.
  split; [reflexivity|]. split; [reflexivity|]. split; [reflexivity|].
  intros p Hp. rewrite (WriteFile_insert _ _ _ _ Hw). now apply lookup_insert_ne.
Qed.

Lemma crypto_file_round_trip_witness :
  let text := bytes.of_string "E pluribus unum" in
  let path := "/home/u/.local/share/hytale/note.dat" in
  let name := "B7F94324-4365-4EB7-A3FC-7FADAA2EEA2F" in
  exists w',
    crypto.WriteFile samples.releaseEnv samples.world samples.rnd samples.rnd
      path name text = (Ok tt, w') /\
    crypto.ReadFile samples.releaseEnv w' samples.rnd path name = (Ok text, w').
Proof.
  intros text path name.
  destruct (crypto.WriteFile samples.releaseEnv samples.world samples.rnd samples.rnd
              path name text) as [r w'] eqn:E.
  pose proof (f_equal fst E) as Hr. vm_compute in Hr. subst r.
  exists w'. split; [reflexivity|].
  apply (crypto_file_round_trip samples.releaseEnv samples.world w' samples.rnd
           samples.rnd samples.rnd path name text samples.key32 eq_refl eq_refl
           ltac:(discriminate) E).
Defined.

(** X4.  DatFile names path.json exactly when Stat finds something there
    that is no directory, and path.dat in every other case (nothing there,
    a directory, or an entry that cannot be examined); and writing the
    file it names does not change its choice. *)
Theorem DatFile_choice (fs : os.FS) (path : string) :
  (crypto.DatFile fs path = path +:+ ".json" \/
   crypto.DatFile fs path = path +:+ ".dat") /\
  (crypto.DatFile fs path = path +:+ ".json" <->
   exists info, os.Stat fs (path +:+ ".json") = Ok info /\ os.IsDir info = false) /\
  (forall data fs',
     os.WriteFile fs (crypto.DatFile fs path) data = Ok fs' ->
     crypto.DatFile fs' path = crypto.DatFile fs path).
Proof.
  assert (Hne : path +:+ ".dat" <> path +:+ ".json").
  { intros E. apply (f_equal (fun s => last (list_ascii_of_string s))) in E.
    rewrite !list_ascii_of_string_app, !last_app in E. discriminate E. }
  split; [|split].
  - unfold crypto.DatFile. destruct (os.Stat fs _) as [info|]; [|now right].
    destruct (negb (os.IsDir info)); [now left|now right].
  - unfold crypto.DatFile. destruct (os.Stat fs _) as [info|].
    + destruct (os.IsDir info) eqn:E; cbn [negb].
      * split; [intros H; now apply Hne in H|]. intros (i & [= <-] & Hi). congruence.
      * split; [eauto|reflexivity].
    + split; [intros H; now apply Hne in H|]. intros (i & Hi & _). discriminate.
  - intros data fs'. apply DatFile_stable.
Qed.

End FileExtras.
(** * More on internal/keyring and internal/appstate *)
Section KeyringExtras.
Import keyring.

Lemma newKeyStore_native env :
  build.GOOS env <> "linux" \/ build.EnableKeyring env = true ->
  get (newKeyStore env) = native_get /\ set (newKeyStore env) = native_set.
Proof.
  unfold newKeyStore. intros [H|H].
  - now rewrite (proj2 (String.eqb_neq _ _) H).
  - destruct (String.eqb _ _); [|now split]. unfold linuxKeyStore. now rewrite H.
Qed.

(** X5.  With a keyring that works (any system but Linux, or Linux with
    the keyring enabled; the credential store answering), GetOrGenKey
    returns the key stored under the name, or else draws 32 bytes and
    stores them; afterwards the key is in the keyring, every later call
    returns the same key without drawing or storing, and the secrets under
    other names are as before. *)
Theorem GetOrGenKey_persists (env : build.Env) (c : Credentials)
    (rnd rnd' : nat -> Z) (key : string)
    (Hstore : build.GOOS env <> "linux" \/ build.EnableKeyring env = true)
    (Hup : failure c = None) :
  let store := newKeyStore env in
  let out := GetOrGenKey store c rnd key in
  exists k,
    out.1 = Ok k /\
    match secrets c !! (ServiceName, key) with
    | Some stored => k = stored /\ out.2 = c
    | None => k = map rnd (seq 0 32) /\ length k = 32%nat
    end /\
    get store out.2 ServiceName key = Ok (Some k) /\
    GetOrGenKey store out.2 rnd' key = (Ok k, out.2) /\
    (forall other, other <> key ->
       secrets out.2 !! (ServiceName, other) = secrets c !! (ServiceName, other)).
Proof.
  intros store out. subst out store. unfold GetOrGenKey.
  destruct (newKeyStore_native env Hstore) as [-> ->].
  unfold native_get, native_set. rewrite Hup.
  destruct (secrets c !! (ServiceName, key)) as [stored|] eqn:E.
  - exists stored. cbn [fst snd]. rewrite Hup, E. repeat split; reflexivity.
  - exists (map rnd (seq 0 32)). cbn [fst snd secrets failure].
    rewrite lookup_insert_eq.
    split; [reflexivity|]. split; [now rewrite length_map, length_seq|].
    split; [reflexivity|]. split; [reflexivity|].
    intros other Hne. apply lookup_insert_ne. congruence.
Qed.

Lemma GetOrGenKey_persists_witness :
  let store := newKeyStore samples.darwinEnv in
  let out := GetOrGenKey store samples.noCreds samples.rnd "account" in
  exists k,
    out.1 = Ok k /\
    match secrets samples.noCreds !! (ServiceName, "account") with
    | Some stored => k = stored /\ out.2 = samples.noCreds
    | None => k = map samples.rnd (seq 0 32) /\ length k = 32%nat
    end /\
    get store out.2 ServiceName "account" = Ok (Some k) /\
    GetOrGenKey store out.2 (fun _ => 0) "account" = (Ok k, out.2) /\
    (forall other, other <> "account" ->
       secrets out.2 !! (ServiceName, other)
       = secrets samples.noCreds !! (ServiceName, other)).
Proof.
  assert (Hos : build.GOOS samples.darwinEnv <> "linux") by discriminate.
  assert (Hup : failure samples.noCreds = None) by reflexivity.
  exact (GetOrGenKey_persists samples.darwinEnv samples.noCreds samples.rnd
           (fun _ => 0) "account" (or_introl Hos) Hup).
Defined.

(** X6.  On Linux without HYTALE_LAUNCHER_ENABLE_KEYRING the key store is
    inert: GetOrGenKey never looks at the credential store and never
    changes it, even one that holds a key under the name or that fails;
    it returns the 32 bytes drawn for the call.  So crypto.ReadFile
    decrypts a file under a key drawn while reading, not under one that
    was used to write it. *)
Theorem GetOrGenKey_inert (env : build.Env)
    (Hlinux : build.GOOS env = "linux") (Hoff : build.EnableKeyring env = false) :
  (forall c rnd key,
     GetOrGenKey (newKeyStore env) c rnd key = (Ok (map rnd (seq 0 32)), c)) /\
  (forall w rnd path keyName data,
     os.ReadFile (crypto.fs w) path = Ok data ->
     crypto.ReadFile env w rnd path keyName
     = (crypto.Decrypt data (map rnd (seq 0 32)), w)).
Proof.
  assert (H : forall c rnd key,
            GetOrGenKey (newKeyStore env) c rnd key = (Ok (map rnd (seq 0 32)), c)).
  { intros c rnd key. unfold GetOrGenKey, newKeyStore.
    rewrite Hlinux, Hoff. reflexivity. }
  split; [exact H|]. intros w rnd path keyName data Hread.
  unfold crypto.ReadFile. rewrite Hread, H. now destruct w.
Qed.

Lemma GetOrGenKey_inert_witness :
  GetOrGenKey (newKeyStore samples.plainLinuxEnv) samples.creds samples.rnd
    "B7F94324-4365-4EB7-A3FC-7FADAA2EEA2F"
  = (Ok (map samples.rnd (seq 0 32)), samples.creds).
Proof.
  exact (proj1 (GetOrGenKey_inert samples.plainLinuxEnv eq_refl eq_refl)
           samples.creds samples.rnd "B7F94324-4365-4EB7-A3FC-7FADAA2EEA2F").
Defined.

(** What this means for a file: written under one draw and read under
    another, it does not decrypt; read under the same draw, it does. *)
Example inert_keyring_file :
  let path := "/home/u/.local/share/hytale/note.dat" in
  let text := bytes.of_string "state" in
  let w' := (crypto.WriteFile samples.plainLinuxEnv samples.world samples.rnd
               samples.rnd path "note" text).2 in
  (crypto.ReadFile samples.plainLinuxEnv w' (fun i => Z.of_nat i) path "note").1
  = Err ErrOpen /\
  (crypto.ReadFile samples.plainLinuxEnv w' samples.rnd path "note").1 = Ok text.
Proof. cbv zeta. split; vm_compute; reflexivity. Qed.

End KeyringExtras.

Section AppstateExtras.
Import appstate.

(** X7.  Load of a channel that has no state file.  When the channel
    directory holds neither env.json nor env.dat, Load answers ErrNotFound
    and leaves the files, the keyring and the log as they were: no key is
    fetched or drawn.  When the state file cannot be read for another
    reason, Load returns that error itself. *)
Theorem Load_missing (env : build.Env) (w : crypto.World) (rnd : nat -> Z)
    (channel : string) :
  let base := filepath.Join (hytale.ChannelDir env channel) "env" in
  (os.Stat (crypto.fs w) (base +:+ ".json") = Err ErrNotExist ->
   os.ReadFile (crypto.fs w) (base +:+ ".dat") = Err ErrNotExist ->
   Load env w rnd channel = (Err ErrNotFound, w)) /\
  (forall err,
     os.ReadFile (crypto.fs w) (crypto.DatFile (crypto.fs w) base) = Err err ->
     errors.Is err ErrNotExist = false ->
     Load env w rnd channel = (Err err, w)).
Proof.
  intros base. split.
  - intros Hjson Hdat. unfold Load, envFile, crypto.ReadFile. cbn [Channel blank].
    fold base. unfold crypto.DatFile. rewrite Hjson, Hdat. reflexivity.
  - intros err Hread His. unfold Load, envFile, crypto.ReadFile. cbn [Channel blank].
    fold base. now rewrite Hread, His.
Qed.

End AppstateExtras.
(** * More on internal/extract *)
Section ExtractExtras.
Import extract.
#[local] Arguments os.MkdirAll : simpl never.
#[local] Arguments os.WriteFile : simpl never.
#[local] Arguments safePath : simpl never.

Lemma after_first_slash_app root rest :
  forallb (fun c => negb (Ascii.eqb c "/"%char)) root = true ->
  after_first_slash (root ++ "/"%char :: rest) = Some rest /\
  after_first_slash root = None.
Proof.
  induction root as [|c root IH]; simpl; [now split|].
  intros H. apply andb_true_iff in H as [Hc Hroot].
  apply negb_true_iff in Hc. rewrite Hc. now apply IH.
Qed.

(** X8.  StripRootDir.  A name made of a first component without slash, a
    slash and a rest is turned into the rest, whatever the rest holds; a
    name without any slash is turned into the empty name.  So with
    StripRootDir as the name transformer, a member at the top level of the
    archive (a file or the root directory entry without its slash) is
    passed over: neither checked nor written, and no error. *)
Theorem StripRootDir_members (root rest : string) (Hroot : no_slash root = true) :
  StripRootDir (root +:+ "/" +:+ rest) = rest /\
  StripRootDir root = "" /\
  (forall fs e d, tName e = root ->
     extractTarEntry fs e d (Some StripRootDir) = Ok fs) /\
  (forall fs f d, zName f = root ->
     extractZipFile fs f d (Some StripRootDir) = Ok fs).
Proof.
  unfold no_slash in Hroot.
  destruct (after_first_slash_app _ (list_ascii_of_string rest) Hroot) as [H1 H2].
  assert (Hempty : StripRootDir root = "").
  { unfold StripRootDir. now rewrite H2. }
  split; [|split; [exact Hempty|split]].
  - unfold StripRootDir. rewrite list_ascii_of_string_app.
    change (list_ascii_of_string ("/" +:+ rest))
      with ("/"%char :: list_ascii_of_string rest).
    rewrite H1. apply string_of_list_ascii_of_string.
  - intros fs e d He. unfold extractTarEntry, transform. now rewrite He, Hempty.
  - intros fs f d Hf. unfold extractZipFile, transform. now rewrite Hf, Hempty.
Qed.

Lemma StripRootDir_members_witness :
  StripRootDir ("hytale-launcher-2026.01" +:+ "/" +:+ "bin/launcher") = "bin/launcher" /\
  StripRootDir "hytale-launcher-2026.01" = "".
Proof.
  assert (H : no_slash "hytale-launcher-2026.01" = true) by reflexivity.
  destruct (StripRootDir_members "hytale-launcher-2026.01" "bin/launcher" H)
    as (H1 & H2 & _).
  split; [exact H1|exact H2].
Defined.

Lemma dispatch_unknown fs archivePath archive d progress t :
  known_format archivePath = false ->
  dispatch fs archivePath archive d progress t
  = (Err (New ("unsupported archive format: "
               +:+ ToLower (filepath.Ext archivePath))), fs).
Proof.
  unfold known_format, dispatch. intros H.
  apply orb_false_iff in H as [H Htgz]. apply orb_false_iff in H as [Hzip Hgz].
  now rewrite Hzip, Hgz, Htgz.
Qed.

Lemma IsAbs_not_empty d : filepath.IsAbs d = true -> String.eqb d "" = false.
Proof. now destruct d. Qed.

(** X9.  The two entry points, for a destDir that starts at the root.
    Archive and ArchiveWithoutCleanup change nothing but at or below
    destDir, except for directories made where nothing was.  Archive
    removes destDir before it looks at the archive.  When the removal
    fails, Archive fails with its error, without looking at the archive,
    and the files are as the removal left them.  When it succeeds and the
    extension is none of .zip, .gz and .tgz (in any case of letters), or
    the archive file cannot be opened, Archive fails and leaves nothing at
    or below destDir, while ArchiveWithoutCleanup fails with what was
    there still in place. *)
Theorem Archive_entry_points (fs : os.FS) (archivePath : string)
    (archive : ArchiveFile) (d : string) (progress : bool)
    (t : NameTransformerFunc) (Habs : filepath.IsAbs d = true) :
  let unusable :=
    known_format archivePath = false \/
    (ToLower (filepath.Ext archivePath) = ".zip" /\ is_ok (asZip archive) = false) \/
    (ToLower (filepath.Ext archivePath) <> ".zip" /\
     openError (asTarGz archive) <> None) in
  settled d fs (Archive fs archivePath archive d progress t).2 /\
  settled d fs (ArchiveWithoutCleanup fs archivePath archive d progress t).2 /\
  (forall err fs1, os.RemoveAll fs d = (Err err, fs1) ->
     Archive fs archivePath archive d progress t
     = (Err (Wrap "failed to remove existing directory" err), fs1)) /\
  (unusable -> forall fs1, os.RemoveAll fs d = (Ok tt, fs1) ->
     is_ok (Archive fs archivePath archive d progress t).1 = false /\
     (Archive fs archivePath archive d progress t).2 = fs1 /\
     (forall k, os.under (os.key d) k = true -> fs1 !! k = None)) /\
  (unusable -> forall fs1, os.MkdirAll fs d = Ok fs1 ->
     is_ok (ArchiveWithoutCleanup fs archivePath archive d progress t).1 = false /\
     (ArchiveWithoutCleanup fs archivePath archive d progress t).2 = fs1 /\
     (forall k n, fs !! k = Some n -> fs1 !! k = Some n)).
Proof.
  intros unusable.
  assert (Hfail : unusable -> forall fs0,
            is_ok (dispatch fs0 archivePath archive d progress t).1 = false /\
            (dispatch fs0 archivePath archive d progress t).2 = fs0).
  { intros [H|[[Hzip Hbad]|[Hnz Hbad]]] fs0.
    - now rewrite dispatch_unknown.
    - unfold dispatch. rewrite Hzip. cbn [String.eqb Ascii.eqb Bool.eqb].
      unfold extractZip. now destruct (asZip archive).
    - unfold dispatch. rewrite (proj2 (String.eqb_neq _ _) Hnz).
      destruct (_ || _); [|now split]. unfold extractTarGz.
      now destruct (openError (asTarGz archive)). }
  destruct (Archive_settled fs archivePath archive d progress t) as [HA HW].
  split; [exact HA|]. split; [exact HW|]. split; [|split].
  - intros err fs1 Hrm. unfold Archive. now rewrite Hrm.
  - intros Hu fs1 Hrm. unfold Archive. rewrite Hrm.
    destruct (Hfail Hu fs1) as [H1 H2]. split; [exact H1|]. split; [exact H2|].
    intros k Hk. eapply RemoveAll_inside; [|exact Hrm|exact Hk].
    now apply IsAbs_not_empty.
  - intros Hu fs1 Hmk. unfold ArchiveWithoutCleanup. rewrite Hmk.
    destruct (Hfail Hu fs1) as [H1 H2]. split; [exact H1|]. split; [exact H2|].
    intros k n Hk. destruct (MkdirAll_dirs_added _ _ _ Hmk k) as [E|[E _]];
      congruence.
Qed.

Lemma Archive_entry_points_witness :
  let fs : os.FS := {[ "/opt/game" := os.Dir; "/opt/game/old" := os.File [1];
                       "/etc/passwd" := os.File [2] ]} in
  let archive :=
    {| asZip := Err ErrNotExist;
       asTarGz := {| openError := Some ErrNotExist; gzipError := None;
                     entries := []; readError := None |} |} in
  (Archive fs "/srv/game.rar" archive "/opt/game" false None).2 !! "/etc/passwd"
  = Some (os.File [2]).
Proof.
  intros fs archive.
  assert (Habs : filepath.IsAbs "/opt/game" = true) by reflexivity.
  assert (Hout : os.under (os.key "/opt/game") "/etc/passwd" = false) by reflexivity.
  destruct (Archive_entry_points fs "/srv/game.rar" archive "/opt/game" false None
              Habs) as [HA _].
  destruct (HA "/etc/passwd" Hout) as [H|[H _]].
  - rewrite H. reflexivity.
  - vm_compute in H. discriminate H.
Defined.

End ExtractExtras.
(** * Extraction delivers the members *)
Section ExtractContent.
Import extract.
#[local] Arguments os.MkdirAll : simpl never.
#[local] Arguments os.WriteFile : simpl never.
#[local] Arguments safePath : simpl never.

Lemma ReadFile_lookup fs p b :
  os.ReadFile fs p = Ok b -> fs !! os.key p = Some (os.File b).
Proof.
  unfold os.ReadFile, os.named, os.node_at.
  destruct (String.eqb p ""); [discriminate|].
  destruct (os.root_like (os.key p)); [discriminate|].
  destruct (fs !! os.key p) as [[| |]|]; try discriminate. now intros [= ->].
Qed.

Lemma ReadFile_same_lookup fs fs' p b :
  os.ReadFile fs p = Ok b -> fs' !! os.key p = fs !! os.key p ->
  os.ReadFile fs' p = Ok b.
Proof.
  unfold os.ReadFile, os.named, os.node_at.
  destruct (String.eqb p ""); [discriminate|].
  destruct (os.root_like (os.key p)); [discriminate|]. now intros H ->.
Qed.

Lemma ReadFile_dirs_added fs fs' p b :
  os.ReadFile fs p = Ok b -> dirs_added fs fs' -> os.ReadFile fs' p = Ok b.
Proof.
  intros H Hd. apply (ReadFile_same_lookup fs); [exact H|].
  apply ReadFile_lookup in H. destruct (Hd (os.key p)) as [E|[E _]]; congruence.
Qed.

Lemma ReadFile_other_write fs fs' p b q data :
  os.ReadFile fs p = Ok b -> os.WriteFile fs q data = Ok fs' ->
  os.key q <> os.key p -> os.ReadFile fs' p = Ok b.
Proof.
  intros H Hw Hne. apply (ReadFile_same_lookup fs); [exact H|].
  rewrite (WriteFile_insert _ _ _ _ Hw). now apply lookup_insert_ne.
Qed.

(** One entry of a tar archive: it delivers its own file, and keeps the
    files of others. *)
Lemma extractTarEntry_own fs e d t fs' :
  extractTarEntry fs e d t = Ok fs' -> tarWrites t e = true ->
  os.ReadFile fs' (tarDest d t e) = Ok (tBody e).
Proof.
  unfold extractTarEntry, tarWrites, tarDest. intros H Hw.
  apply andb_true_iff in Hw as [Hreg Hname]. apply negb_true_iff in Hname.
  rewrite Hname in H.
  destruct (safePath d _) as [p|] eqn:Hp; [|discriminate]. cbn in H.
  apply safePath_Ok in Hp as [-> _].
  apply Z.eqb_eq in Hreg. rewrite Hreg in H. cbn in H.
  destruct (os.MkdirAll fs _) as [fs1|]; [|discriminate]. cbn in H.
  now apply WriteFile_ReadFile in H.
Qed.

Lemma extractTarEntry_keeps fs e d t fs' p b :
  extractTarEntry fs e d t = Ok fs' -> os.ReadFile fs p = Ok b ->
  (tarWrites t e = true -> os.key (tarDest d t e) <> os.key p) ->
  os.ReadFile fs' p = Ok b.
Proof.
  unfold extractTarEntry, tarWrites, tarDest. intros H Hr Hne.
  destruct (String.eqb _ "") eqn:Hname; [now injection H as <-|].
  destruct (safePath d _) as [q|] eqn:Hq; [|discriminate]. cbn in H.
  apply safePath_Ok in Hq as [-> _].
  destruct (Typeflag e =? TypeDir).
  { eapply ReadFile_dirs_added; [exact Hr|]. eapply MkdirAll_dirs_added, H. }
  destruct (Typeflag e =? TypeReg); [|now injection H as <-].
  destruct (os.MkdirAll fs _) as [fs1|] eqn:Hmk; [|discriminate]. cbn in H.
  eapply ReadFile_other_write; [|exact H|now apply Hne].
  eapply ReadFile_dirs_added; [exact Hr|]. eapply MkdirAll_dirs_added, Hmk.
Qed.

Lemma extractTarGz_loop_keeps post : forall fs readErr d t fs' p b,
  extractTarGz_loop fs post readErr d t = (Ok tt, fs') ->
  os.ReadFile fs p = Ok b ->
  (forall e', e' ∈ post -> tarWrites t e' = true ->
     os.key (tarDest d t e') <> os.key p) ->
  os.ReadFile fs' p = Ok b.
Proof.
  induction post as [|e post IH]; intros fs readErr d t fs' p b H Hr Hne; simpl in H.
  - destruct readErr; [discriminate|]. now injection H as <-.
  - destruct (extractTarEntry fs e d t) as [fs1|] eqn:He; [|discriminate].
    eapply IH; [exact H| |].
    + eapply extractTarEntry_keeps; [exact He|exact Hr|]. apply Hne. now left.
    + intros e' Hin. apply Hne. now right.
Qed.

Lemma extractTarGz_loop_app pre : forall fs rest readErr d t,
  extractTarGz_loop fs (pre ++ rest) readErr d t
  = match extractTarGz_loop fs pre None d t with
    | (Ok _, fs1) => extractTarGz_loop fs1 rest readErr d t
    | (Err err, fs1) => (Err err, fs1)
    end.
Proof.
  induction pre as [|e pre IH]; intros fs rest readErr d t; simpl; [reflexivity|].
  destruct (extractTarEntry fs e d t); [apply IH|reflexivity].
Qed.

(** X10.  What a successful extraction of a .tar.gz delivers.  When
    extractTarGz returns without error, every regular entry whose name is
    not empty once transformed can be read at its destination with the
    content it has in the archive, provided no later regular entry goes to
    the same destination (then the later one wins). *)
Theorem extractTarGz_delivers (fs fs' : os.FS) (archive : TarGzArchive)
    (d : string) (progress : bool) (t : NameTransformerFunc)
    (pre post : list TarEntry) (e : TarEntry)
    (Hok : extractTarGz fs archive d progress t = (Ok tt, fs'))
    (Hentries : entries archive = pre ++ e :: post)
    (Hwrites : tarWrites t e = true)
    (Hlast : forall e', e' ∈ post -> tarWrites t e' = true ->
               os.key (tarDest d t e') <> os.key (tarDest d t e)) :
  os.ReadFile fs' (tarDest d t e) = Ok (tBody e).
Proof.
  unfold extractTarGz in Hok.
  destruct (openError archive); [discriminate|].
  destruct (os.MkdirAll fs d) as [fs1|]; [|discriminate].
  destruct (if progress then countTarGzFiles archive else Ok 0%nat); [|discriminate].
  destruct (gzipError archive); [discriminate|].
  rewrite Hentries, extractTarGz_loop_app in Hok.
  destruct (extractTarGz_loop fs1 pre None d t) as [[[]|] fs2]; [|discriminate].
  simpl in Hok.
  destruct (extractTarEntry fs2 e d t) as [fs3|] eqn:He; [|discriminate].
  eapply extractTarGz_loop_keeps; [exact Hok| |exact Hlast].
  now apply (extractTarEntry_own fs2).
Qed.

Lemma extractTarGz_delivers_witness :
  exists fs',
    extractTarGz samples.bare samples.tarball "/opt/hytale" true (Some StripRootDir)
    = (Ok tt, fs') /\
    os.ReadFile fs' "/opt/hytale/bin/run" = Ok [35; 33; 47; 98; 105; 110].
Proof.
  destruct (extractTarGz samples.bare samples.tarball "/opt/hytale" true
              (Some StripRootDir)) as [r fs'] eqn:E.
  pose proof (f_equal fst E) as Hr. vm_compute in Hr. subst r.
  exists fs'. split; [reflexivity|].
  assert (Hes : entries samples.tarball
                = [ {| tName := "launcher/"; Typeflag := TypeDir; tBody := [] |} ]
                  ++ samples.tarRun
                  :: [ {| tName := "launcher/README"; Typeflag := TypeReg;
                          tBody := [72; 105] |} ]) by reflexivity.
  assert (Hw : tarWrites (Some StripRootDir) samples.tarRun = true) by reflexivity.
  apply (extractTarGz_delivers samples.bare fs' samples.tarball "/opt/hytale" true
           (Some StripRootDir) _ _ samples.tarRun E Hes Hw).
  intros e' Hin _. apply list_elem_of_singleton in Hin as ->.
  vm_compute. discriminate.
Defined.

Lemma extractZipFile_own fs f d t fs' body :
  extractZipFile fs f d t = Ok fs' -> zipWrites t f = true ->
  zBody f = Ok body -> os.ReadFile fs' (zipDest d t f) = Ok body.
Proof.
  unfold extractZipFile, zipWrites, zipDest. intros H Hw Hbody.
  apply andb_true_iff in Hw as [Hdir Hname].
  apply negb_true_iff in Hname, Hdir. rewrite Hname, Hdir, Hbody in H.
  destruct (safePath d _) as [p|] eqn:Hp; [|discriminate]. cbn in H.
  apply safePath_Ok in Hp as [-> _].
  destruct (os.MkdirAll fs _) as [fs1|]; [|discriminate]. cbn in H.
  now apply WriteFile_ReadFile in H.
Qed.

Lemma extractZipFile_keeps fs f d t fs' p b :
  extractZipFile fs f d t = Ok fs' -> os.ReadFile fs p = Ok b ->
  (zipWrites t f = true -> os.key (zipDest d t f) <> os.key p) ->
  os.ReadFile fs' p = Ok b.
Proof.
  unfold extractZipFile, zipWrites, zipDest. intros H Hr Hne.
  destruct (String.eqb _ "") eqn:Hname; [now injection H as <-|].
  destruct (safePath d _) as [q|] eqn:Hq; [|discriminate]. cbn in H.
  apply safePath_Ok in Hq as [-> _].
  destruct (zIsDir f).
  { eapply ReadFile_dirs_added; [exact Hr|]. eapply MkdirAll_dirs_added, H. }
  destruct (os.MkdirAll fs _) as [fs1|] eqn:Hmk; [|discriminate]. cbn in H.
  destruct (zBody f) as [body|]; [|discriminate]. cbn in H.
  eapply ReadFile_other_write; [|exact H|now apply Hne].
  eapply ReadFile_dirs_added; [exact Hr|]. eapply MkdirAll_dirs_added, Hmk.
Qed.

Lemma extractZip_loop_keeps post : forall fs d t fs' p b,
  extractZip_loop fs post d t = (Ok tt, fs') ->
  os.ReadFile fs p = Ok b ->
  (forall f', f' ∈ post -> zipWrites t f' = true ->
     os.key (zipDest d t f') <> os.key p) ->
  os.ReadFile fs' p = Ok b.
Proof.
  induction post as [|f post IH]; intros fs d t fs' p b H Hr Hne; simpl in H.
  - now injection H as <-.
  - destruct (extractZipFile fs f d t) as [fs1|] eqn:Hf; [|discriminate].
    eapply IH; [exact H| |].
    + eapply extractZipFile_keeps; [exact Hf|exact Hr|]. apply Hne. now left.
    + intros f' Hin. apply Hne. now right.
Qed.

Lemma extractZip_loop_app pre : forall fs rest d t,
  extractZip_loop fs (pre ++ rest) d t
  = match extractZip_loop fs pre d t with
    | (Ok _, fs1) => extractZip_loop fs1 rest d t
    | (Err err, fs1) => (Err err, fs1)
    end.
Proof.
  induction pre as [|f pre IH]; intros fs rest d t; simpl; [reflexivity|].
  destruct (extractZipFile fs f d t); [apply IH|reflexivity].
Qed.

(** X11.  What a successful extraction of a .zip delivers.  When
    extractZip returns without error, every member that is no directory
    and whose name is not empty once transformed can be read at its
    destination with the content the archive gives for it, provided no
    later such member goes to the same destination. *)
Theorem extractZip_delivers (fs fs' : os.FS) (files : list ZipFile)
    (d : string) (t : NameTransformerFunc)
    (pre post : list ZipFile) (f : ZipFile) (body : list Z)
    (Hok : extractZip fs (Ok files) d t = (Ok tt, fs'))
    (Hfiles : files = pre ++ f :: post)
    (Hwrites : zipWrites t f = true)
    (Hbody : zBody f = Ok body)
    (Hlast : forall f', f' ∈ post -> zipWrites t f' = true ->
               os.key (zipDest d t f') <> os.key (zipDest d t f)) :
  os.ReadFile fs' (zipDest d t f) = Ok body.
Proof.
  unfold extractZip in Hok.
  destruct (os.MkdirAll fs d) as [fs1|]; [|discriminate].
  rewrite Hfiles, extractZip_loop_app in Hok.
  destruct (extractZip_loop fs1 pre d t) as [[[]|] fs2]; [|discriminate].
  simpl in Hok.
  destruct (extractZipFile fs2 f d t) as [fs3|] eqn:Hf; [|discriminate].
  eapply extractZip_loop_keeps; [exact Hok| |exact Hlast].
  now apply (extractZipFile_own fs2).
Qed.

Lemma extractZip_delivers_witness :
  exists fs',
    extractZip samples.bare (Ok samples.zipball) "/opt/hytale" (Some StripRootDir)
    = (Ok tt, fs') /\
    os.ReadFile fs' "/opt/hytale/bin/run" = Ok [35; 33; 47; 98; 105; 110].
Proof.
  destruct (extractZip samples.bare (Ok samples.zipball) "/opt/hytale"
              (Some StripRootDir)) as [r fs'] eqn:E.
  pose proof (f_equal fst E) as Hr. vm_compute in Hr. subst r.
  exists fs'. split; [reflexivity|].
  assert (Hes : samples.zipball
                = [ {| zName := "launcher/"; zIsDir := true; zBody := Ok [] |} ]
                  ++ samples.zipRun
                  :: [ {| zName := "launcher/README"; zIsDir := false;
                          zBody := Ok [72; 105] |} ]) by reflexivity.
  assert (Hw : zipWrites (Some StripRootDir) samples.zipRun = true) by reflexivity.
  assert (Hb : zBody samples.zipRun = Ok [35; 33; 47; 98; 105; 110]) by reflexivity.
  apply (extractZip_delivers samples.bare fs' samples.zipball "/opt/hytale"
           (Some StripRootDir) _ _ samples.zipRun _ E Hes Hw Hb).
  intros f' Hin _. apply list_elem_of_singleton in Hin as ->.
  vm_compute. discriminate.
Defined.

End ExtractContent.
(** * More on internal/download *)
Section DownloadExtras.
Import download.
#[local] Opaque emptyHash.

Lemma Wrap_Is msg err target : errors.Is err target = true ->
  errors.Is (Wrap msg err) target = true.
Proof. intros H. cbn [errors.Is]. rewrite H. apply orb_true_r. Qed.

(** X12.  DownloadTemp in offline mode.  When the launcher is offline (and
    the override of development builds is not in force), DownloadTemp
    fails and hands no request to the client.  If the directory could be
    made and the temporary file created, the error wraps net.ErrOffline
    (errors.Is finds it) and the temporary file is removed again. *)
Theorem DownloadTemp_offline (n : http.Net) (ctx : nat -> option error)
    (client : http.Client) (fs : os.FS) (rnd : string) (sent : list http.Request)
    (dir url sha256 : string)
    (Hoff : http.offline n = true) (Hover : http.offlineOverride n = false) :
  let out := DownloadTemp n ctx client fs rnd sent dir url sha256 in
  out.2 = sent /\
  is_ok out.1.1 = false /\
  (forall fs1 fs2 name,
     os.MkdirAll fs dir = Ok fs1 ->
     os.CreateTemp fs1 dir ("dl-*-" +:+ base url) rnd = Ok (fs2, name) ->
     out.1.1 = Err (Wrap ("error downloading file from " +:+ strconv.Quote url)
                         ErrOffline) /\
     (forall err, out.1.1 = Err err -> errors.Is err ErrOffline = true) /\
     out.1.2 = fs1).
Proof.
  intros out. subst out. unfold DownloadTemp.
  assert (Hc : checkOffline n = Some ErrOffline).
  { unfold checkOffline, net.OfflineError. now rewrite Hover, Hoff. }
  destruct (os.MkdirAll fs dir) as [fs1|];
    [|split; [reflexivity|split; [reflexivity|intros ? ? ? [=]]]].
  destruct (os.CreateTemp fs1 dir _ rnd) as [[fs2 name]|] eqn:Htmp;
    [|split; [reflexivity|split; [reflexivity|
        intros ? ? ? [= <-] H; rewrite Htmp in H; discriminate H]]].
  unfold downloadFile. rewrite Hc. cbn.
  split; [reflexivity|]. split; [reflexivity|].
  intros ? ? ? [= <-] H. rewrite Htmp in H. injection H as <- <-.
  split; [reflexivity|]. split.
  - now intros err [= <-].
  - apply CreateTemp_holds in Htmp as [Hh _]. now apply discard_holds.
Qed.

Lemma DownloadTemp_offline_witness :
  let n := {| http.offline := true; http.offlineOverride := false;
              http.urlError := fun _ => None; http.DefaultClient := samples.answer |} in
  (DownloadTemp n samples.background samples.answer samples.bare "4021" []
     "/tmp" samples.patchURL "").2 = [].
Proof.
  intros n.
  assert (Hoff : http.offline n = true) by reflexivity.
  assert (Hover : http.offlineOverride n = false) by reflexivity.
  exact (proj1 (DownloadTemp_offline n samples.background samples.answer samples.bare
                  "4021" [] "/tmp" samples.patchURL "" Hoff Hover)).
Defined.

(** Reading a body to its end, with a context that is never done: the
    chunks are appended to the file in order. *)
Lemma copy_body_all ctx chunks base name :
  (forall i, ctx i = None) ->
  os.root_like (os.key name) = false ->
  forall i d tail,
    copy_body ctx i chunks tail (<[os.key name := os.File d]> base) name
    = (tail, <[os.key name := os.File (d ++ concat chunks)]> base).
Proof.
  intros Hctx Hr. induction chunks as [|c chunks IH]; intros i d tail; simpl;
    rewrite Hctx.
  - now rewrite app_nil_r.
  - destruct (0 <? length c)%nat eqn:E.
    + unfold os.Append, os.node_at. rewrite Hr, lookup_insert_eq, insert_insert_eq.
      rewrite IH. now rewrite <- app_assoc.
    + apply Nat.ltb_ge in E. destruct c; [|simpl in E; lia]. apply IH.
Qed.

(** X13.  DownloadTemp on a 200 answer.  Let the directory be made, the
    temporary file created, the launcher online, the context never done,
    and the client answer 200 with a body that is read to its end without
    error.  Then the temporary file holds exactly the bytes of the body, in
    order.  With no checksum asked for, or with the lower-case hex SHA-256
    of the body, DownloadTemp returns the path of that file; with any
    other checksum it fails with the mismatch and removes the file. *)
Theorem DownloadTemp_body (n : http.Net) (ctx : nat -> option error)
    (client : http.Client) (fs : os.FS) (rnd : string) (sent : list http.Request)
    (dir url sha256 : string) (fs1 fs2 : os.FS) (name : string)
    (req : http.Request) (resp : http.Response)
    (Hdir : os.MkdirAll fs dir = Ok fs1)
    (Htmp : os.CreateTemp fs1 dir ("dl-*-" +:+ base url) rnd = Ok (fs2, name))
    (Hon : checkOffline n = None)
    (Hreq : http.NewRequest n http.MethodGet url = Ok req)
    (Hresp : client req = Ok resp)
    (H200 : http.StatusCode resp = 200)
    (Hctx : forall i, ctx i = None)
    (Hend : http.bodyError resp = None) :
  let out := DownloadTemp n ctx client fs rnd sent dir url sha256 in
  let body := concat (http.Body resp) in
  let actual := bytes.hex_EncodeToString (sha256.Sum256 body) in
  let fs3 := <[os.key name := os.File body]> fs1 in
  os.ReadFile fs3 name = Ok body /\
  (sha256 = "" \/ sha256 = actual -> out = (Ok name, fs3, sent ++ [req])) /\
  (sha256 <> "" -> sha256 <> actual ->
     out = (Err (New ("checksum mismatch: expected " +:+ sha256
                      +:+ ", got " +:+ actual)), fs1, sent ++ [req])).
Proof.
  intros out body actual fs3. subst out. unfold DownloadTemp.
  rewrite Hdir, Htmp. destruct (CreateTemp_holds _ _ _ _ _ _ Htmp) as [Hh Hfs2].
  destruct Hh as (Hn & Hr & Hb & _).
  unfold downloadFile. rewrite Hon, Hreq. unfold http.Do. rewrite Hresp, H200.
  change (200 =? http.StatusNotFound) with false.
  change (negb (200 =? http.StatusOK)) with false. cbv iota.
  rewrite Hfs2, (copy_body_all ctx _ fs1 name Hctx Hr), Hend. cbn [app].
  fold body. fold fs3.
  assert (Hread : os.ReadFile fs3 name = Ok body).
  { unfold os.ReadFile, os.named, os.node_at, fs3.
    now rewrite Hn, Hr, lookup_insert_eq. }
  assert (Hverify : verifySHA256 fs3 name sha256
                    = if String.eqb actual sha256 then Ok tt
                      else Err (New ("checksum mismatch: expected " +:+ sha256
                                     +:+ ", got " +:+ actual))).
  { unfold verifySHA256, ioutil.VerifySHA256, os.named, os.node_at, fs3.
    rewrite Hn, Hr, lookup_insert_eq. reflexivity. }
  assert (Hgone : discard fs3 name = fs1).
  { apply discard_holds. unfold holds_temp, fs3. eauto 6. }
  split; [exact Hread|]. split.
  - intros [->| ->]; [reflexivity|].
    destruct (negb (String.eqb actual "")); [|reflexivity].
    now rewrite Hverify, String.eqb_refl.
  - intros Hne Hbad. rewrite (proj2 (String.eqb_neq _ _) Hne). cbn [negb].
    rewrite Hverify, (proj2 (String.eqb_neq actual sha256)) by congruence.
    now rewrite Hgone.
Qed.

Lemma DownloadTemp_body_witness :
  DownloadTemp samples.online samples.background samples.answer samples.bare
    "4021" [] "/tmp" samples.feedURL ""
  = (Ok "/tmp/dl-4021-feed.json",
     <[os.key "/tmp/dl-4021-feed.json"
         := os.File (concat (http.Body samples.feedAnswer))]> samples.withTmp,
     [] ++ [samples.feedRequest]).
Proof.
  assert (Hdir : os.MkdirAll samples.bare "/tmp" = Ok samples.withTmp)
    by (vm_compute; reflexivity).
  assert (Htmp : os.CreateTemp samples.withTmp "/tmp"
                   ("dl-*-" +:+ base samples.feedURL) "4021"
                 = Ok (samples.withFeedTemp, "/tmp/dl-4021-feed.json"))
    by (vm_compute; reflexivity).
  assert (Hon : checkOffline samples.online = None) by reflexivity.
  assert (Hreq : http.NewRequest samples.online http.MethodGet samples.feedURL
                 = Ok samples.feedRequest) by reflexivity.
  assert (Hresp : samples.answer samples.feedRequest = Ok samples.feedAnswer)
    by reflexivity.
  assert (H200 : http.StatusCode samples.feedAnswer = 200) by reflexivity.
  assert (Hctx : forall i, samples.background i = None) by reflexivity.
  assert (Hend : http.bodyError samples.feedAnswer = None) by reflexivity.
  destruct (DownloadTemp_body samples.online samples.background samples.answer
              samples.bare "4021" [] "/tmp" samples.feedURL "" _ _ _ _ _
              Hdir Htmp Hon Hreq Hresp H200 Hctx Hend) as (_ & H & _).
  apply H. now left.
Defined.




End DownloadExtras.
(** * The name of the temporary file of a download *)
Section DownloadName.
Import download.

Lemma before_query_app u q :
  forallb (fun c => negb (Ascii.eqb c "?"%char)) u = true ->
  before_query (u ++ "?"%char :: q) = u /\ before_query u = u.
Proof.
  induction u as [|c u IH]; simpl; [now split|].
  intros H. apply andb_true_iff in H as [Hc Hu]. apply negb_true_iff in Hc.
  rewrite Hc. destruct (IH Hu) as [-> ->]. now split.
Qed.

Lemma split_pattern_dl b :
  no_star b = true -> os.split_pattern ("dl-*-" +:+ b) = ("dl-", "-" +:+ b).
Proof.
  unfold no_star. intros Hb.
  assert (Hnone : existsb (fun c => Ascii.eqb c "*"%char) (list_ascii_of_string b)
                  = false).
  { induction (list_ascii_of_string b) as [|c l IH]; [reflexivity|].
    simpl in Hb |- *. apply andb_true_iff in Hb as [Hc Hl].
    apply negb_true_iff in Hc. now rewrite Hc, IH. }
  unfold os.split_pattern.
  change (list_ascii_of_string ("dl-*-" +:+ b))
    with ("d"%char :: "l"%char :: "-"%char :: "*"%char :: "-"%char
          :: list_ascii_of_string b).
  cbn. rewrite Hnone. cbn. now rewrite string_of_list_ascii_of_string.
Qed.

Lemma append_assoc (a b c : string) : (a +:+ b) +:+ c = a +:+ b +:+ c.
Proof.
  induction a as [|x a IH]; [reflexivity|].
  change (String x ((a +:+ b) +:+ c) = String x (a +:+ b +:+ c)). now rewrite IH.
Qed.

(** X15.  The temporary file keeps the name of what is downloaded.  The
    base name of a URL is that of its part before the first question mark.
    When that base name has no star in it, every path that DownloadTemp
    returns is dir as it was given (not cleaned), a separator unless dir
    ends with one, then "dl-", the digits drawn for the name, "-" and the
    base name. *)
Theorem DownloadTemp_name (n : http.Net) (ctx : nat -> option error)
    (client : http.Client) (fs : os.FS) (rnd : string) (sent : list http.Request)
    (dir url sha256 : string) (Hstar : no_star (base url) = true) :
  (forall u q, no_query u = true -> base (u +:+ "?" +:+ q) = base u) /\
  (forall p, (DownloadTemp n ctx client fs rnd sent dir url sha256).1.1 = Ok p ->
     p = (if os.ends_with_sep dir then dir else dir +:+ "/")
           +:+ "dl-" +:+ rnd +:+ "-" +:+ base url).
Proof.
  split.
  - intros u q Hu. unfold base, no_query in *.
    rewrite list_ascii_of_string_app.
    change (list_ascii_of_string ("?" +:+ q)) with ("?"%char :: list_ascii_of_string q).
    destruct (before_query_app _ (list_ascii_of_string q) Hu) as [-> ->].
    reflexivity.
  - intros p. unfold DownloadTemp.
    destruct (os.MkdirAll fs dir) as [fs1|] eqn:Hdir; [|discriminate].
    assert (Hne : String.eqb dir "" = false).
    { unfold os.MkdirAll in Hdir. now destruct (String.eqb dir ""). }
    destruct (os.CreateTemp fs1 dir _ rnd) as [[fs2 name]|] eqn:Htmp; [|discriminate].
    assert (Hname : name = (if os.ends_with_sep dir then dir else dir +:+ "/")
                             +:+ "dl-" +:+ rnd +:+ "-" +:+ base url).
    { unfold os.CreateTemp in Htmp. rewrite (split_pattern_dl _ Hstar), Hne in Htmp.
      destruct (os.contains_sep _); [discriminate|].
      destruct (os.node_at fs1 _); [discriminate|].
      destruct (os.parent_ready fs1 _); [|discriminate].
      injection Htmp as _ <-. unfold os.joinPath.
      destruct (os.ends_with_sep dir); now rewrite ?append_assoc. }
    destruct (downloadFile n ctx client url fs2 name sent) as [[[err|] fs3] sent'].
    + now destruct (Is err Canceled).
    + destruct (negb (String.eqb sha256 "")).
      * destruct (verifySHA256 fs3 name sha256); [|discriminate]. now intros [= <-].
      * now intros [= <-].
Qed.

Lemma DownloadTemp_name_witness :
  (DownloadTemp samples.online samples.background samples.answer samples.bare
     "4021" [] "./cache" samples.patchURL "").1.1 = Ok "./cache/dl-4021-43.pwr" /\
  base ("https://game-patches.hytale.com/patches/42/43.pwr" +:+ "?" +:+ "sig=9f2c")
  = "43.pwr".
Proof.
  assert (Hstar : no_star (base samples.patchURL) = true) by reflexivity.
  assert (Hq : no_query "https://game-patches.hytale.com/patches/42/43.pwr" = true)
    by reflexivity.
  pose proof (DownloadTemp_name samples.online samples.background samples.answer
                samples.bare "4021" [] "./cache" samples.patchURL "" Hstar)
    as [Hbase Hpath].
  split.
  - destruct (DownloadTemp samples.online samples.background samples.answer
                samples.bare "4021" [] "./cache" samples.patchURL "").1.1
      as [p|err] eqn:Hp.
    + now rewrite (Hpath p eq_refl).
    + vm_compute in Hp. discriminate Hp.
  - now rewrite (Hbase _ _ Hq).
Defined.

End DownloadName.
(** * More on internal/repair *)
Section RepairExtras.
Import repair.
#[local] Arguments has_status : simpl never.
#[local] Arguments fileResult : simpl never.

Lemma verifyFile_Path fs fullPath relativePath expectedHash :
  Path (verifyFile fs fullPath relativePath expectedHash) = relativePath.
Proof.
  unfold verifyFile. destruct (os.Stat fs fullPath) as [info|err].
  - destruct (os.IsDir info); [reflexivity|].
    now destruct (ioutil.VerifySHA256 fs fullPath expectedHash).
  - now destruct (IsNotExist err).
Qed.

(** The status of one file, read off the file system. *)
Lemma verifyFile_intact fs fullPath relativePath expectedHash :
  let s := Status (verifyFile fs fullPath relativePath expectedHash) in
  (s = FileStatusOK <-> intact fs fullPath expectedHash = true) /\
  (s = FileStatusMissing <-> os.named fs fullPath = None).
Proof.
  unfold verifyFile, intact, os.Stat, ioutil.VerifySHA256.
  destruct (os.named fs fullPath) as [[|data|]|]; cbn.
  - split; split; (reflexivity || discriminate).
  - destruct (String.eqb _ expectedHash); cbn;
      split; split; (reflexivity || discriminate).
  - split; split; discriminate.
  - split; split; (reflexivity || discriminate).
Qed.

(** The loop of Verify sorts the file results by their status, keeping the
    order of the iteration. *)
Lemma fold_verifyStep_partition fs installDir order r :
  let results := map (fileResult fs installDir) order in
  let r' := fold_left (verifyStep fs installDir) order r in
  TotalFiles r' = TotalFiles r /\
  OKFiles r' = (OKFiles r + length (List.filter (has_status FileStatusOK) results))%nat /\
  MissingFiles r'
  = MissingFiles r ++ List.filter (has_status FileStatusMissing) results /\
  CorruptedFiles r'
  = CorruptedFiles r ++ List.filter (has_status FileStatusCorrupted) results.
Proof.
  revert r. induction order as [|[p h] rest IH]; intros r; cbn zeta.
  - cbn. now rewrite Nat.add_0_r, !app_nil_r.
  - cbn [fold_left map List.filter]. specialize (IH (verifyStep fs installDir r (p, h))).
    cbn zeta in IH. destruct IH as (HT & HO & HM & HC).
    rewrite HT, HO, HM, HC. clear HT HO HM HC.
    assert (Hs : forall s, has_status s (fileResult fs installDir (p, h))
                 = (Status (verifyFile fs (filepath.Join installDir p) p h) =? s))
      by reflexivity.
    rewrite !Hs. unfold verifyStep.
    destruct (verifyFile_status fs (filepath.Join installDir p) p h) as [E|[E|E]];
      cbn zeta in E; rewrite !E; cbn.
    + repeat split; lia.
    + repeat split. rewrite <- app_assoc. reflexivity.
    + repeat split. rewrite <- app_assoc. reflexivity.
Qed.

Lemma has_status_three (x : FileResult) :
  (Status x = FileStatusOK \/ Status x = FileStatusMissing
   \/ Status x = FileStatusCorrupted) ->
  (Nat.b2n (has_status FileStatusOK x) + Nat.b2n (has_status FileStatusMissing x)
   + Nat.b2n (has_status FileStatusCorrupted x) = 1)%nat.
Proof. unfold has_status. intros [-> | [-> | ->]]; reflexivity. Qed.

Lemma filter_three fs installDir order :
  let results := map (fileResult fs installDir) order in
  (length (List.filter (has_status FileStatusOK) results)
   + length (List.filter (has_status FileStatusMissing) results)
   + length (List.filter (has_status FileStatusCorrupted) results)
   = length order)%nat.
Proof.
  induction order as [|e rest IH]; [reflexivity|]. cbn zeta in *.
  cbn [map List.filter].
  pose proof (has_status_three (fileResult fs installDir e)
                (verifyFile_status fs _ _ _)) as H3.
  destruct (has_status FileStatusOK _), (has_status FileStatusMissing _),
    (has_status FileStatusCorrupted _); cbn in H3 |- *; lia.
Qed.

Lemma filter_none {A} (f : A -> bool) (l : list A) :
  (forall x, In x l -> f x = false) -> List.filter f l = [].
Proof.
  induction l as [|a l IH]; intros H; [reflexivity|]. cbn.
  rewrite (H a (or_introl eq_refl)). apply IH. intros x Hx. apply H. now right.
Qed.

(** What Verify returns on a map that is not empty. *)
Lemma Verify_shape fs installDir checksums order :
  checksums ≠ ∅ ->
  let results := map (fileResult fs installDir) order in
  exists r, (Verify fs installDir checksums order).1 = Ok r /\
    Errors r = [] /\ TotalFiles r = size checksums /\
    OKFiles r = length (List.filter (has_status FileStatusOK) results) /\
    MissingFiles r = List.filter (has_status FileStatusMissing) results /\
    CorruptedFiles r = List.filter (has_status FileStatusCorrupted) results.
Proof.
  intros Hne results. unfold Verify.
  assert (Hsz : (size checksums =? 0)%nat = false).
  { apply Nat.eqb_neq. intros H. now apply Hne, map_size_empty_iff. }
  rewrite Hsz. cbn [fst]. eexists. split; [reflexivity|].
  pose proof (fold_verifyStep_partition fs installDir order
                {| TotalFiles := size checksums; OKFiles := 0; MissingFiles := [];
                   CorruptedFiles := []; Errors := [] |}) as H.
  cbn zeta in H. destruct H as (HT & HO & HM & HC). cbn in HT, HO, HM, HC.
  split; [apply fold_verifyStep_Errors|]. now repeat split.
Qed.

(** X16.  The accounting of Verify.  For a checksum map that is not empty,
    ranged over in any order, Verify returns a Result in which the file
    results are sorted by status in the order of the iteration: OKFiles
    counts the files found OK, MissingFiles and CorruptedFiles list the
    others.  TotalFiles is the size of the map and the three groups add up
    to it; NeedsRepair is the negation of IsHealthy. *)
Theorem Verify_accounting (fs : os.FS) (installDir : string)
    (checksums : gmap string string) (order : list (string * string))
    (Horder : order ≡ₚ map_to_list checksums) (Hne : checksums ≠ ∅) :
  let results := map (fileResult fs installDir) order in
  exists r, (Verify fs installDir checksums order).1 = Ok r /\
    OKFiles r = length (List.filter (has_status FileStatusOK) results) /\
    MissingFiles r = List.filter (has_status FileStatusMissing) results /\
    CorruptedFiles r = List.filter (has_status FileStatusCorrupted) results /\
    TotalFiles r = size checksums /\
    (OKFiles r + length (MissingFiles r) + length (CorruptedFiles r))%nat
    = TotalFiles r /\
    NeedsRepair r = negb (IsHealthy r).
Proof.
  intros results.
  destruct (Verify_shape fs installDir checksums order Hne)
    as (r & Hr & HE & HT & HO & HM & HC).
  fold results in HO, HM, HC.
  exists r. split; [exact Hr|].
  split; [exact HO|]. split; [exact HM|]. split; [exact HC|]. split; [exact HT|].
  split.
  - rewrite HT, HO, HM, HC. unfold results. rewrite filter_three.
    rewrite Horder. apply length_map_to_list.
  - unfold NeedsRepair, IsHealthy. rewrite HE.
    destruct (MissingFiles r), (CorruptedFiles r); reflexivity.
Qed.

Lemma Verify_accounting_witness :
  exists r, (Verify samples.bare "/opt/hytale" {["bin/run" := "00"]}
               [("bin/run", "00")]).1 = Ok r /\
    OKFiles r = 0%nat /\ length (MissingFiles r) = 1%nat /\ TotalFiles r = 1%nat.
Proof.
  assert (Horder : [("bin/run", "00")]
                   ≡ₚ map_to_list ({["bin/run" := "00"]} : gmap string string))
    by now rewrite map_to_list_singleton.
  assert (Hne : ({["bin/run" := "00"]} : gmap string string) ≠ ∅)
    by apply insert_non_empty.
  destruct (Verify_accounting samples.bare "/opt/hytale" _ _ Horder Hne)
    as (r & Hr & HO & HM & _ & HT & _).
  exists r. split; [exact Hr|]. rewrite HO, HM, HT. repeat split.
Defined.

Lemma fileResult_status_in fs installDir order s p h :
  (p, h) ∈ order -> Status (fileResult fs installDir (p, h)) = s ->
  fileResult fs installDir (p, h)
  ∈ List.filter (has_status s) (map (fileResult fs installDir) order).
Proof.
  intros Hin Hs. apply list_elem_of_In, filter_In. split.
  - apply in_map, list_elem_of_In, Hin.
  - unfold has_status. rewrite Hs. apply Z.eqb_refl.
Qed.

(** X17.  What a healthy installation is.  For a checksum map that is not
    empty, the Result of Verify is healthy exactly when every path of the
    map, joined to the install directory, names a directory or a regular
    file whose SHA-256 in lower-case hex is the text of the map; and the
    paths it lists as missing are exactly those of the map that name
    nothing. *)
Theorem Verify_healthy (fs : os.FS) (installDir : string)
    (checksums : gmap string string) (order : list (string * string))
    (Horder : order ≡ₚ map_to_list checksums) (Hne : checksums ≠ ∅) :
  exists r, (Verify fs installDir checksums order).1 = Ok r /\
    (IsHealthy r = true <->
     forall p h, checksums !! p = Some h ->
       intact fs (filepath.Join installDir p) h = true) /\
    (forall p, p ∈ map Path (MissingFiles r) <->
       exists h, checksums !! p = Some h /\
         os.named fs (filepath.Join installDir p) = None).
Proof.
  destruct (Verify_shape fs installDir checksums order Hne)
    as (r & Hr & HE & _ & _ & HM & HC).
  assert (Hin : forall p h, (p, h) ∈ order <-> checksums !! p = Some h).
  { intros p h. rewrite Horder. apply elem_of_map_to_list. }
  exists r. split; [exact Hr|]. split.
  - rewrite (IsHealthy_no_Errors r HE), HM, HC. split.
    + intros [Hm Hc] p h Hp. apply Hin in Hp.
      apply (verifyFile_intact fs _ p h).
      destruct (verifyFile_status fs (filepath.Join installDir p) p h)
        as [Hs|[Hs|Hs]]; cbn zeta in Hs; [exact Hs| |]; exfalso.
      * pose proof (fileResult_status_in fs installDir order _ p h Hp Hs) as Hx.
        rewrite Hm in Hx. inversion Hx.
      * pose proof (fileResult_status_in fs installDir order _ p h Hp Hs) as Hx.
        rewrite Hc in Hx. inversion Hx.
    + intros Hall.
      assert (Hnone : forall s, s <> FileStatusOK ->
                List.filter (has_status s) (map (fileResult fs installDir) order) = []).
      { intros s Hs. apply filter_none. intros x Hx.
        apply in_map_iff in Hx as ([p h] & <- & Hx).
        apply list_elem_of_In, Hin, Hall in Hx.
        apply (verifyFile_intact fs _ p h) in Hx. cbn zeta in Hx.
        unfold has_status, fileResult. cbn [fst snd]. rewrite Hx.
        now apply Z.eqb_neq. }
      split; apply Hnone; discriminate.
  - intros p. rewrite HM. split.
    + intros Hp. apply list_elem_of_In, in_map_iff in Hp as (x & Hpath & Hx).
      apply filter_In in Hx as [Hx Hs].
      apply in_map_iff in Hx as ([q h] & <- & Hx).
      unfold fileResult in Hpath, Hs. cbn [fst snd] in Hpath, Hs.
      rewrite verifyFile_Path in Hpath. subst q.
      exists h. split; [now apply Hin, list_elem_of_In|].
      apply (verifyFile_intact fs _ p h). now apply Z.eqb_eq.
    + intros (h & Hp & Hnone). apply Hin in Hp.
      apply (verifyFile_intact fs _ p h) in Hnone. cbn zeta in Hnone.
      pose proof (fileResult_status_in fs installDir order _ p h Hp Hnone) as Hx.
      apply list_elem_of_In, in_map_iff. exists (fileResult fs installDir (p, h)).
      split; [apply verifyFile_Path|now apply list_elem_of_In].
Qed.

Lemma Verify_healthy_witness :
  exists r, (Verify samples.withTmp "/" {["tmp" := "00"]} [("tmp", "00")]).1 = Ok r /\
    IsHealthy r = true.
Proof.
  assert (Horder : [("tmp", "00")]
                   ≡ₚ map_to_list ({["tmp" := "00"]} : gmap string string))
    by now rewrite map_to_list_singleton.
  assert (Hne : ({["tmp" := "00"]} : gmap string string) ≠ ∅)
    by apply insert_non_empty.
  destruct (Verify_healthy samples.withTmp "/" _ _ Horder Hne) as (r & Hr & Hh & _).
  exists r. split; [exact Hr|]. apply Hh. intros p h Hp.
  apply lookup_singleton_Some in Hp as [<- <-]. reflexivity.
Defined.

End RepairExtras.
(** * More on internal/selfupdate *)
Section SelfupdateExtras.
Import selfupdate.
Variable keyName : string.

Lemma PackageDir_not_empty env pkgID channel version :
  String.eqb (hytale.PackageDir env pkgID channel version) "" = false.
Proof. unfold hytale.PackageDir. now apply Join_list_not_empty. Qed.

(** X18.  What CleanupOldLauncher touches.  It adds nothing to the file
    system, and an entry it takes away is the note file or lies at or
    below the package directory of the launcher for the channel and the
    version that the note gives.  Without a note file it succeeds and
    changes nothing, neither files nor keyring nor log.  When it succeeds
    on a note, nothing is left at or below that directory. *)
Theorem CleanupOldLauncher_footprint (env : build.Env) (w : crypto.World)
    (rnd : nat -> Z) :
  let noteFile := cleanupNoteFile env (crypto.fs w) in
  let dir note := hytale.PackageDir env "launcher" (Channel note) (Version note) in
  let out := CleanupOldLauncher keyName env w rnd in
  (forall k n, crypto.fs out.2 !! k = Some n -> crypto.fs w !! k = Some n) /\
  (forall k n, crypto.fs w !! k = Some n -> k <> os.key noteFile ->
     (forall note, (readNote keyName env w rnd).1 = Ok (Some note) ->
        os.under (os.key (dir note)) k = false) ->
     crypto.fs out.2 !! k = Some n) /\
  (os.named (crypto.fs w) noteFile = None -> out = (Ok tt, w)) /\
  (forall note, (readNote keyName env w rnd).1 = Ok (Some note) -> out.1 = Ok tt ->
     forall k, os.under (os.key (dir note)) k = true -> crypto.fs out.2 !! k = None).
Proof.
  intros noteFile dir out. subst out. unfold CleanupOldLauncher.
  destruct (consumeCleanupNote_fs keyName env w rnd) as [Hr Hfs]. cbn zeta in Hr, Hfs.
  fold noteFile in Hfs.
  pose proof (consumeCleanupNote_none keyName env w rnd) as Hnone. fold noteFile in Hnone.
  destruct (consumeCleanupNote keyName env w rnd) as [[[note|]|err] w1];
    cbn [fst snd] in *.
  - fold (dir note).
    assert (Hsub : forall k n, crypto.fs w1 !! k = Some n -> crypto.fs w !! k = Some n).
    { intros k n. destruct Hfs as [->| ->]; [auto|].
      intros H. apply lookup_delete_Some in H. tauto. }
    assert (Hkeep : forall k n, crypto.fs w !! k = Some n -> k <> os.key noteFile ->
                      crypto.fs w1 !! k = Some n).
    { intros k n H Hk. destruct Hfs as [->| ->]; [auto|].
      now rewrite lookup_delete_ne. }
    pose proof (RemoveAll_sub (crypto.fs w1) (dir note)) as Hrs.
    pose proof (fun k => RemoveAll_outside (crypto.fs w1) (dir note) k) as Hro.
    destruct (os.RemoveAll _ (dir note)) as [[[]|err] fs'] eqn:Hrm;
      cbn [fst snd crypto.fs crypto.slog crypto.with_fs] in *.
    + split; [|split; [|split]].
      * intros k n H. apply Hsub, Hrs, H.
      * intros k n H Hk Hout. rewrite (Hro k (Hout note (eq_sym Hr))).
        now apply Hkeep.
      * intros H. specialize (Hnone H). discriminate Hnone.
      * intros note' Hnote _ k Hk. rewrite <- Hr in Hnote. injection Hnote as <-.
        eapply RemoveAll_inside; [apply PackageDir_not_empty|exact Hrm|exact Hk].
    + split; [|split; [|split]].
      * intros k n H. apply Hsub, Hrs, H.
      * intros k n H Hk Hout. rewrite (Hro k (Hout note (eq_sym Hr))).
        now apply Hkeep.
      * intros H. specialize (Hnone H). discriminate Hnone.
      * intros _ _ [=].
  - split; [|split; [|split]].
    + intros k n. destruct Hfs as [->| ->]; [auto|].
      intros H. apply lookup_delete_Some in H. tauto.
    + intros k n H Hk _. destruct Hfs as [->| ->]; [auto|].
      now rewrite lookup_delete_ne.
    + intros H. specialize (Hnone H). now injection Hnone as <-.
    + intros note Hnote. rewrite <- Hr in Hnote. discriminate Hnote.
  - split; [|split; [|split]].
    + intros k n. destruct Hfs as [->| ->]; [auto|].
      intros H. apply lookup_delete_Some in H. tauto.
    + intros k n H Hk _. destruct Hfs as [->| ->]; [auto|].
      now rewrite lookup_delete_ne.
    + intros H. specialize (Hnone H). discriminate Hnone.
    + intros _ _ [=].
Qed.

End SelfupdateExtras.
(** * More on internal/playerprofile *)
Section PlayerProfileExtras.
Import playerprofile.

(** A save that succeeds leaves the marshalled map in the file. *)
Lemma saveLocked_file m fs fs' :
  saveLocked m fs = (Ok tt, fs') ->
  os.ReadFile fs' (filePath m)
  = Ok (json.MarshalIndent (profiles_to_json (profiles m))).
Proof.
  unfold saveLocked. destruct (os.MkdirAll fs _) as [fs1|]; [|discriminate].
  destruct (os.WriteFile fs1 _ _) as [fs2|] eqn:Hw; [|discriminate].
  intros [= <-]. eapply WriteFile_ReadFile, Hw.
Qed.

(** X19.  DeleteProfile forgets the name and nothing else.  Whatever the
    outcome of the save, the manager afterwards has no profile for the
    name and the profiles of all other names as before.  When the save
    succeeds the file holds the remaining profiles; and a later GetUUID
    for the name that can save returns the version 5 UUID of the name
    again, whatever UUID the deleted profile held. *)
Theorem DeleteProfile_forgets (m : Manager) (fs : os.FS) (n : string) :
  let out := DeleteProfile m fs n in
  let m' := out.1.2 in
  GetProfile m' n = None /\
  (forall n', n' <> n -> GetProfile m' n' = GetProfile m n') /\
  (out.1.1 = Ok tt ->
     os.ReadFile out.2 (filePath m)
     = Ok (json.MarshalIndent (profiles_to_json (delete n <$> profiles m)))) /\
  (profiles m <> None -> forall fs2,
     is_ok (saveLocked (created m' n) fs2).1 = true ->
     (GetUUID m' fs2 n).1.1 = Ok (v5 n)).
Proof.
  cbn zeta. unfold DeleteProfile.
  destruct (saveLocked _ fs) as [r fs'] eqn:Hsave. cbn [fst snd].
  split; [|split; [|split]].
  - unfold GetProfile. cbn [profiles]. destruct (profiles m) as [ps|]; [|reflexivity].
    cbn. now rewrite lookup_delete_eq.
  - intros n' Hn'. unfold GetProfile. cbn [profiles].
    destruct (profiles m) as [ps|]; [|reflexivity].
    cbn. now rewrite lookup_delete_ne.
  - intros ->. apply (saveLocked_file _ _ _ Hsave).
  - intros Hps fs2 Hok.
    assert (Hno : no_profile {| profiles := delete n <$> profiles m;
                                filePath := filePath m |} n).
    { destruct (profiles m) as [ps|]; [|congruence].
      exists (delete n ps). split; [reflexivity|apply lookup_delete_eq]. }
    rewrite (GetUUID_fresh _ fs2 _ Hno).
    destruct (saveLocked _ fs2) as [[[]|e] fs3]; [reflexivity|discriminate Hok].
Qed.

End PlayerProfileExtras.
(** * More on internal/auth *)
Section AuthExtras.
Import auth.
Variable keyName : string.
Variable marshal : account.Account -> result (list Z).
Variable unmarshal : list Z -> account.Account -> result account.Account.
Variable newAccount : string -> account.Account.
Variable env : build.Env.
Variable storageDir : option string.

Lemma getAccountFilePath_set dir fs :
  storageDir = Some dir ->
  String.eqb (getAccountFilePath storageDir fs) "" = false.
Proof.
  intros ->. unfold getAccountFilePath, crypto.DatFile.
  destruct (os.Stat fs _) as [info|];
    [destruct (negb (os.IsDir info))|]; now apply append_not_empty.
Qed.

(** X20.  Logout.  Whatever Logout returns, the controller afterwards has
    neither account nor client, so IsLoggedIn is false.  While no storage
    directory is set it touches nothing.  With one set, a missing account
    file is no error and the files stay as they are; an account file that
    is a regular file is removed and nothing else changes; and when
    Logout fails, the error is that of the removal and the files are as
    before. *)
Theorem Logout_clears (c : Controller) (w : crypto.World) :
  let path := getAccountFilePath storageDir (crypto.fs w) in
  let out := Logout storageDir c w in
  out.1.2 = {| Account := None; client := None |} /\
  IsLoggedIn out.1.2 = false /\
  (storageDir = None -> out.1.1 = Ok tt /\ out.2 = w) /\
  (storageDir <> None -> os.named (crypto.fs w) path = None ->
     out.1.1 = Ok tt /\ crypto.fs out.2 = crypto.fs w) /\
  (forall d, storageDir <> None -> os.named (crypto.fs w) path = Some (os.File d) ->
     out.1.1 = Ok tt /\ crypto.fs out.2 = delete (os.key path) (crypto.fs w) /\
     os.Stat (crypto.fs out.2) path = Err ErrNotExist) /\
  (forall err, out.1.1 = Err err ->
     os.Remove (crypto.fs w) path = Err err /\ out.2 = w).
Proof.
  intros path out. subst out. unfold Logout. fold path.
  destruct (String.eqb path "") eqn:Hpath.
  - cbn [fst snd].
    assert (Hnone : storageDir = None).
    { pose proof getAccountFilePath_set as Hs. subst path.
      destruct storageDir as [dir|]; [|reflexivity].
      rewrite (Hs dir _ eq_refl) in Hpath. discriminate Hpath. }
    split; [reflexivity|]. split; [reflexivity|]. split; [now split|].
    split; [intros H; contradiction|]. split; [intros d H; contradiction|].
    intros err [=].
  - assert (Hset : storageDir <> None).
    { intros Hnone. subst path. unfold getAccountFilePath in Hpath.
      rewrite Hnone in Hpath. discriminate Hpath. }
    split; [now destruct (os.Remove _ _) as [|e]; [|destruct (negb (Is e ErrNotExist))]|].
    split; [now destruct (os.Remove _ _) as [|e]; [|destruct (negb (Is e ErrNotExist))]|].
    split; [intros Hnone; contradiction|]. split; [|split].
    + intros _ Hnone. unfold os.Remove. rewrite Hnone. cbn. now split.
    + intros d _ Hd. rewrite (Remove_File _ _ _ Hd). cbn.
      split; [reflexivity|]. split; [reflexivity|]. eapply Stat_deleted, Hd.
    + intros err. destruct (os.Remove _ _) as [fs'|e]; cbn; [discriminate|].
      destruct (negb (Is e ErrNotExist)); cbn; [|discriminate].
      intros [= ->]. now split.
Qed.

Lemma account_ReadFile_fs w rnd path :
  crypto.fs (account.ReadFile keyName unmarshal newAccount env w rnd path).2
  = crypto.fs w.
Proof.
  unfold account.ReadFile.
  pose proof (crypto_ReadFile_fs env w rnd path keyName) as H.
  destruct (crypto.ReadFile env w rnd path keyName) as [[data|err] w1]; cbn in *.
  - now destruct (unmarshal data _).
  - exact H.
Qed.

Lemma account_ReadFile_missing w rnd path :
  os.named (crypto.fs w) path = None ->
  account.ReadFile keyName unmarshal newAccount env w rnd path = (Err ErrNotExist, w).
Proof.
  intros H. unfold account.ReadFile, crypto.ReadFile, os.ReadFile. now rewrite H.
Qed.

(** X21.  Init.  Init never returns an error.  While no storage directory
    is set, or when there is no account file, it leaves the controller and
    the world as they are.  When the account file cannot be read,
    decrypted or decoded, the controller stays as it is and the file, if
    it is a regular file, is removed.  When the account is read, the
    controller is the restored one, logged in, and the files are as
    before. *)
Theorem Init_outcomes (c : Controller) (w : crypto.World) (rnd : nat -> Z) :
  let path := getAccountFilePath storageDir (crypto.fs w) in
  let read := account.ReadFile keyName unmarshal newAccount env w rnd path in
  let out := Init keyName unmarshal newAccount env storageDir c w rnd in
  out.1.1 = Ok tt /\
  (storageDir = None -> out = (Ok tt, c, w)) /\
  (storageDir <> None -> os.named (crypto.fs w) path = None ->
     out = (Ok tt, c, w)) /\
  (forall err, storageDir <> None -> read.1 = Err err ->
     Is err ErrNotExist = false ->
     out.1.2 = c /\
     (forall d, os.named (crypto.fs w) path = Some (os.File d) ->
        crypto.fs out.2 = delete (os.key path) (crypto.fs w) /\
        os.Stat (crypto.fs out.2) path = Err ErrNotExist)) /\
  (forall acct, storageDir <> None -> read.1 = Ok acct ->
     out.1.2 = restore c acct /\ IsLoggedIn out.1.2 = true /\
     crypto.fs out.2 = crypto.fs w).
Proof.
  intros path read out. subst out read. unfold Init. fold path.
  destruct (String.eqb path "") eqn:Hpath.
  - assert (Hnone : storageDir = None).
    { pose proof getAccountFilePath_set as Hs. subst path.
      destruct storageDir as [dir|]; [|reflexivity].
      rewrite (Hs dir _ eq_refl) in Hpath. discriminate Hpath. }
    split; [reflexivity|]. split; [reflexivity|].
    split; [intros H; contradiction|].
    split; [intros err H; contradiction|]. intros acct H; contradiction.
  - assert (Hset : storageDir <> None).
    { intros Hnone. subst path. unfold getAccountFilePath in Hpath.
      rewrite Hnone in Hpath. discriminate Hpath. }
    pose proof (account_ReadFile_fs w rnd path) as Hfs.
    pose proof (account_ReadFile_missing w rnd path) as Hmiss.
    destruct (account.ReadFile keyName unmarshal newAccount env w rnd path)
      as [[acct|err] w1]; cbn [fst snd] in *.
    + split; [reflexivity|]. split; [intros H; contradiction|].
      split; [intros _ H; specialize (Hmiss H); discriminate Hmiss|].
      split; [intros err _ [=]|].
      intros acct' _ [= <-]. now repeat split.
    + destruct (Is err ErrNotExist) eqn:His.
      * split; [reflexivity|]. split; [intros H; contradiction|].
        split; [intros _ H; specialize (Hmiss H); now injection Hmiss as -> ->|].
        split; [intros err' _ [= <-] H; congruence|]. intros acct _ [=].
      * cbn [crypto.fs crypto.slog]. rewrite Hfs.
        split; [now destruct (os.Remove _ _)|].
        split; [intros H; contradiction|].
        split.
        { intros _ H. specialize (Hmiss H). injection Hmiss as -> ->.
          discriminate His. }
        split; [|intros acct _ [=]].
        intros err' _ _ _. split; [now destruct (os.Remove _ _)|].
        intros d Hd. rewrite (Remove_File _ _ _ Hd). cbn.
        split; [reflexivity|]. eapply Stat_deleted, Hd.
Qed.

Lemma tokenEqual_refl t : tokenEqual (Some t) (Some t) = true.
Proof. cbn. now rewrite !String.eqb_refl, Z.eqb_refl. Qed.

(** X22.  The restored session.  After restore the controller is logged
    in.  With a current profile, the watching token source starts from the
    profile's token: a source that answers with that token causes no call
    back, and controller and world stay as they are.  Without a current
    profile, whatever token the source answers, the account and the world
    stay as they are: a refreshed token is never stored. *)
Theorem restore_watch (c : Controller) (acct : account.Account)
    (w : crypto.World) (rnd rnd' : nat -> Z) :
  let c' := restore c acct in
  let stored (p : account.Profile) :=
    {| oauth2.AccessToken := account.AccessToken (account.Token' p);
       oauth2.RefreshToken := account.RefreshToken (account.Token' p);
       oauth2.Expiry := account.Expiry (account.Token' p) |} in
  IsLoggedIn c' = true /\ Account c' = Some acct /\
  (forall src p, client c' = Some src -> account.CurrentProfile acct = Some p ->
     Token keyName marshal env src (Ok (stored p)) c' w rnd rnd'
     = (Ok (stored p), src, (c', w))) /\
  (forall src token, client c' = Some src -> account.CurrentProfile acct = None ->
     (Token keyName marshal env src (Ok token) c' w rnd rnd').2 = (c', w)).
Proof.
  intros c' stored. split; [reflexivity|]. split; [reflexivity|]. split.
  - intros src p [= <-] Hp. rewrite Token_calls_back. cbn [prev].
    rewrite Hp. fold (stored p). now rewrite tokenEqual_refl.
  - intros src token _ Hp. rewrite Token_calls_back.
    destruct (tokenEqual _ _); [reflexivity|]. cbn [snd].
    unfold tokenChanged. subst c'. cbn [Account restore]. now rewrite Hp.
Qed.

End AuthExtras.
(** * More on path/filepath, the file system and internal/ioutil *)
Section CleanLength.
Import filepath.

Lemma backtrack_length out dotdot : (length (backtrack out dotdot) <= length out)%nat.
Proof.
  induction out as [|c out IH]; cbn [backtrack]; [lia|].
  destruct (is_sep c || (length out <=? dotdot)%nat); cbn [length]; lia.
Qed.

Lemma at_element_end_after l : at_element_end (after_element l) = true.
Proof.
  pose proof (after_element_head l) as H. unfold at_element_end.
  now destruct (after_element l).
Qed.

(** The write index of Clean never passes its read index. *)
Lemma clean_loop_length fuel : forall rooted rest out dotdot,
  let n := length (clean_loop fuel rooted rest out dotdot) in
  (n <= length out + length rest + 1)%nat /\
  (at_element_end rest = true -> n <= length out + length rest)%nat /\
  (length out = (if rooted then 1 else 0)%nat -> n <= length out + length rest)%nat.
Proof.
  induction fuel as [|fuel IH]; intros rooted rest out dotdot; cbn zeta.
  { cbn [clean_loop]. repeat split; lia. }
  destruct rest as [|c rest1]; cbn [clean_loop]; [cbn [length]; repeat split; lia|].
  destruct (is_sep c) eqn:Hsep.
  { destruct (IH rooted rest1 out dotdot) as (H1 & H2 & H3). cbn zeta in *.
    cbn [length]. repeat split; intros; lia. }
  destruct (is_dot c && at_element_end rest1) eqn:Hdot.
  { apply andb_true_iff in Hdot as [_ Hend].
    destruct (IH rooted rest1 out dotdot) as (H1 & H2 & H3). cbn zeta in *.
    specialize (H2 Hend). cbn [length at_element_end]. rewrite Hsep.
    repeat split; intros; try discriminate; lia. }
  destruct (is_dot c && is_dot (hd "/"%char rest1) && at_element_end (tl rest1))
    eqn:Hdd.
  { apply andb_true_iff in Hdd as [Hdd Hend]. apply andb_true_iff in Hdd as [_ Hd1].
    destruct rest1 as [|c1 rest2]; [discriminate Hd1|]. cbn [hd tl] in *.
    cbn [length at_element_end]. rewrite Hsep.
    destruct (dotdot <? length out)%nat eqn:Hlt.
    - destruct (IH rooted rest2 (backtrack out dotdot) dotdot) as (_ & H2 & _).
      cbn zeta in H2. specialize (H2 Hend).
      pose proof (backtrack_length out dotdot).
      repeat split; intros; try discriminate; lia.
    - destruct rooted; cbn [negb].
      + destruct (IH true rest2 out dotdot) as (_ & H2 & _).
        cbn zeta in H2. specialize (H2 Hend).
        repeat split; intros; try discriminate; lia.
      + match goal with
        | |- context [clean_loop fuel false rest2 ?o ?d] =>
            destruct (IH false rest2 o d) as (_ & H2 & _)
        end.
        cbn zeta in H2. specialize (H2 Hend). cbn [length] in H2.
        destruct (0 <? length out)%nat eqn:Hz; cbn [length] in H2 |- *.
        * apply Nat.ltb_lt in Hz.
          repeat split; intros; try discriminate; lia.
        * repeat split; intros; try discriminate; lia. }
  match goal with
  | |- context [clean_loop fuel rooted ?r ?o dotdot] =>
      destruct (IH rooted r o dotdot) as (_ & H2 & _)
  end.
  cbn zeta in H2. specialize (H2 (at_element_end_after _)).
  rewrite length_app, length_rev in H2.
  pose proof (f_equal (@length _) (element_after_element (c :: rest1))) as Hsplit.
  rewrite length_app in Hsplit.
  cbn [at_element_end]. rewrite Hsep.
  split; [|split]; [|discriminate|].
  - destruct (_ || _); cbn [length] in *; lia.
  - intros Hbase. rewrite Hbase in H2 |- *.
    destruct rooted; cbn [andb negb orb Nat.eqb] in *; cbn [length] in *; lia.
Qed.

Lemma clean_list_length l : (length (clean_list l) <= Nat.max 1 (length l))%nat.
Proof.
  unfold clean_list. destruct l as [|c rest]; [cbn; lia|].
  destruct (is_sep c).
  - destruct (clean_loop_length (length (c :: rest)) true rest [Separator] 1)
      as (_ & _ & H).
    cbn zeta in H. specialize (H eq_refl).
    destruct (clean_loop _ true rest _ 1); [cbn; lia|].
    rewrite length_rev. cbn [length] in *. lia.
  - destruct (clean_loop_length (length (c :: rest)) false (c :: rest) [] 0)
      as (_ & _ & H).
    cbn zeta in H. specialize (H eq_refl).
    destruct (clean_loop _ false (c :: rest) _ 0); [cbn; lia|].
    rewrite length_rev. cbn [length] in *. lia.
Qed.

Lemma string_length_list s : String.length s = length (list_ascii_of_string s).
Proof. induction s as [|c s IH]; cbn; [reflexivity|now rewrite IH]. Qed.

Lemma Clean_length path :
  (String.length (Clean path) <= Nat.max 1 (String.length path))%nat.
Proof.
  unfold Clean. rewrite !string_length_list, list_ascii_of_string_of_list_ascii.
  apply clean_list_length.
Qed.

Lemma Dir_length path :
  (String.length (Dir path) <= Nat.max 1 (String.length path))%nat.
Proof.
  unfold Dir. rewrite !string_length_list, list_ascii_of_string_of_list_ascii.
  pose proof (clean_list_length (through_last_sep (list_ascii_of_string path))) as H.
  unfold through_last_sep in *. rewrite length_rev in H.
  pose proof (after_element_length (rev (list_ascii_of_string path))) as H'.
  rewrite length_rev in H'. lia.
Qed.

End CleanLength.

Section MkdirAllFacts.

Lemma key_length path : (1 <= String.length (os.key path))%nat.
Proof.
  unfold os.key, filepath.Clean. rewrite string_length_list.
  rewrite list_ascii_of_string_of_list_ascii.
  pose proof (clean_list_nonempty (list_ascii_of_string path)).
  destruct (filepath.clean_list _); [congruence|cbn; lia].
Qed.

Lemma prefix_length a b :
  String.prefix a b = true -> (String.length a <= String.length b)%nat.
Proof.
  revert b. induction a as [|c a IH]; intros b; [cbn; lia|].
  destruct b as [|c' b]; cbn [String.prefix]; [discriminate|].
  destruct (ascii_dec c c'); [|discriminate].
  intros H. apply IH in H. cbn [String.length]. lia.
Qed.

Lemma append_length a b :
  String.length (a +:+ b) = (String.length a + String.length b)%nat.
Proof.
  induction a as [|c a IH]; [reflexivity|].
  change (String c a +:+ b) with (String c (a +:+ b)). cbn [String.length].
  now rewrite IH.
Qed.

(** What lies strictly below a path has a longer spelling. *)
Lemma below_longer k d :
  String.prefix (k +:+ "/") d = true -> (String.length k < String.length d)%nat.
Proof.
  intros H. apply prefix_length in H. rewrite append_length in H. cbn in H. lia.
Qed.

Lemma lineage_length fuel : forall k x,
  x ∈ os.lineage fuel k ->
  (String.length x <= Nat.max 1 (String.length k))%nat.
Proof.
  induction fuel as [|fuel IH]; intros k x; cbn [os.lineage]; [intros H; inversion H|].
  destruct (os.root_like k); [intros H; inversion H|].
  intros H. apply elem_of_cons in H as [->|H]; [lia|].
  apply IH in H. pose proof (Dir_length k). lia.
Qed.

Lemma mkdir_step_only acc k fs' :
  os.mkdir_step acc k = Ok fs' ->
  exists fs, acc = Ok fs /\ fs' !! k = Some os.Dir /\
    forall p, p <> k -> fs' !! p = fs !! p.
Proof.
  destruct acc as [fs|e]; [|cbn; discriminate]. cbn.
  destruct (fs !! k) as [[| |]|] eqn:E; intros [= <-]; exists fs.
  - now repeat split.
  - split; [reflexivity|]. split; [apply lookup_insert_eq|].
    intros p Hp. now apply lookup_insert_ne.
Qed.

Lemma fold_mkdir_step_only l : forall acc fs',
  fold_left os.mkdir_step l acc = Ok fs' ->
  exists fs, acc = Ok fs /\
    (forall p, p ∈ l -> fs' !! p = Some os.Dir) /\
    (forall p, p ∉ l -> fs' !! p = fs !! p).
Proof.
  induction l as [|k l IH]; intros acc fs'; cbn [fold_left].
  - intros ->. exists fs'. split; [reflexivity|]. split; [|reflexivity].
    intros p H. inversion H.
  - intros H. apply IH in H as (fs1 & H1 & Hin & Hout).
    apply mkdir_step_only in H1 as (fs & -> & Hk & Hother).
    exists fs. split; [reflexivity|]. split.
    + intros p Hp. destruct (decide (p ∈ l)) as [Hl|Hl]; [now apply Hin|].
      apply elem_of_cons in Hp as [->|Hp]; [|contradiction].
      now rewrite (Hout _ Hl).
    + intros p Hp. apply not_elem_of_cons in Hp as [Hne Hl].
      rewrite (Hout _ Hl). now apply Hother.
Qed.

(** os.MkdirAll makes the path a directory and touches nothing strictly
    below it. *)
Lemma MkdirAll_made fs path fs' :
  os.MkdirAll fs path = Ok fs' ->
  os.node_at fs' (os.key path) = Some os.Dir /\
  (forall d, String.prefix (os.key path +:+ "/") d = true -> fs' !! d = fs !! d).
Proof.
  unfold os.MkdirAll. destruct (String.eqb path ""); [discriminate|]. intros H.
  apply fold_mkdir_step_only in H as (fs0 & [= <-] & Hin & Hout). split.
  - unfold os.node_at. destruct (os.root_like (os.key path)) eqn:Hroot; [reflexivity|].
    apply Hin. apply list_elem_of_In. apply -> in_rev. apply list_elem_of_In.
    cbn [os.lineage]. rewrite Hroot. left.
  - intros d Hd. apply Hout. intros Hmem.
    apply list_elem_of_In, in_rev, list_elem_of_In in Hmem.
    apply lineage_length in Hmem. apply below_longer in Hd.
    pose proof (key_length path). lia.
Qed.

Lemma fold_mkdir_step_Err l : forall acc e,
  fold_left os.mkdir_step l acc = Err e ->
  acc = Err e \/ e = ENOTDIR \/ e = ErrPermission.
Proof.
  induction l as [|k l IH]; intros acc e; cbn [fold_left]; [now left|].
  intros H. apply IH in H as [H|H]; [|now right].
  destruct acc as [fs|e']; [|left; exact H]. cbn in H.
  destruct (fs !! k) as [[| |]|]; try discriminate; injection H as <-; auto.
Qed.

(** os.MkdirAll never fails with "file exists". *)
Lemma MkdirAll_not_ErrExist fs path e :
  os.MkdirAll fs path = Err e -> Is e ErrExist = false.
Proof.
  unfold os.MkdirAll. destruct (String.eqb path ""); [now intros [= <-]|].
  intros H. apply fold_mkdir_step_Err in H as [H|[->| ->]];
    [discriminate|reflexivity..].
Qed.

End MkdirAllFacts.

Section IoutilExtras.

(** X23.  EmptyDir.  When EmptyDir succeeds, the path is a directory with
    nothing below it; an entry that is neither the path nor below it is as
    before, or is a directory made where nothing was (a missing parent);
    the keyring is untouched.  When the removal fails, EmptyDir fails with
    the error of the removal and makes no directory: the files are as the
    removal left them.  Nothing is added, what is neither the path nor
    below it is as before, and, unless the path was refused for ending in
    a dot, what could be taken away is gone: an entry that stays at or
    below the path is one the process may not touch, lies below one, or
    leads to one.  The keyring is untouched. *)
Theorem EmptyDir_empties (w : crypto.World) (path : string) :
  let out := ioutil.EmptyDir w path in
  (out.1 = Ok tt ->
     os.node_at (crypto.fs out.2) (os.key path) = Some os.Dir /\
     (forall d, String.prefix (os.key path +:+ "/") d = true ->
        crypto.fs out.2 !! d = None) /\
     (forall p, os.under (os.key path) p = false ->
        crypto.fs out.2 !! p = crypto.fs w !! p \/
        (crypto.fs w !! p = None /\ crypto.fs out.2 !! p = Some os.Dir)) /\
     crypto.creds out.2 = crypto.creds w) /\
  (forall err, (os.RemoveAll (crypto.fs w) path).1 = Err err ->
     out.1 = Err (Wrap "failed to remove directory" err) /\
     (forall p n, crypto.fs out.2 !! p = Some n -> crypto.fs w !! p = Some n) /\
     (forall p, os.under (os.key path) p = false ->
        crypto.fs out.2 !! p = crypto.fs w !! p) /\
     (forall p, os.endsWithDot path = false -> os.under (os.key path) p = true ->
        os.stuck (crypto.fs w) p = false -> crypto.fs out.2 !! p = None) /\
     crypto.creds out.2 = crypto.creds w).
Proof.
  cbn zeta. unfold ioutil.EmptyDir.
  pose proof (RemoveAll_sub (crypto.fs w) path) as Hsub.
  pose proof (fun p => RemoveAll_outside (crypto.fs w) path p) as Hout.
  pose proof (RemoveAll_stuck (crypto.fs w) path) as Hstuck.
  destruct (os.RemoveAll (crypto.fs w) path) as [[[]|e] fs1] eqn:Hrm;
    cbn [fst snd] in *.
  - split; [|discriminate]. unfold ioutil.MkdirAll. cbn [crypto.fs crypto.with_fs].
    destruct (os.MkdirAll fs1 path) as [fs2|e] eqn:Hmk.
    + cbn [fst snd crypto.fs crypto.creds crypto.with_fs]. intros _.
      assert (Hne : String.eqb path "" = false).
      { unfold os.MkdirAll in Hmk. now destruct (String.eqb path ""). }
      destruct (MkdirAll_made _ _ _ Hmk) as [Hdir Hbelow].
      split; [exact Hdir|]. split; [|split; [|reflexivity]].
      * intros d Hd. rewrite (Hbelow d Hd).
        eapply RemoveAll_inside; [exact Hne|exact Hrm|].
        now apply prefix_under.
      * intros p Hp. rewrite <- (Hout p Hp).
        apply (MkdirAll_dirs_added _ _ _ Hmk).
    + rewrite (MkdirAll_not_ErrExist _ _ _ Hmk). discriminate.
  - split; [discriminate|]. intros err [= <-].
    cbn [crypto.fs crypto.creds crypto.with_fs]. repeat split; auto.
Qed.

End IoutilExtras.
(** * internal/helper, internal/legalfiles, internal/update, internal/app *)
Section HelperExtras.
Import helper.
#[local] Arguments os.MkdirAll : simpl never.
#[local] Arguments os.WriteFile : simpl never.

Lemma WriteFile_named fs path data fs' :
  os.WriteFile fs path data = Ok fs' -> os.named fs' path = Some (os.File data).
Proof.
  intros H. pose proof (WriteFile_ReadFile _ _ _ _ H) as Hr.
  unfold os.ReadFile in Hr. destruct (os.named fs' path) as [[| |]|]; congruence.
Qed.

(** X24.  Signature files.  A signature that SaveSig saved is what LoadSig
    returns for the same channel and version; RemoveSig then removes it,
    after which LoadSig returns no signature and no error, and removing
    again is no error either. *)
Theorem sig_round_trip (env : build.Env) (w w1 : crypto.World)
    (state : appstate.State) (version : string) (signature : list Z)
    (Hsave : SaveSig env w state version signature = (Ok tt, w1)) :
  (LoadSig env w1 state version).1 = Ok (Some signature) /\
  exists w2, RemoveSig env w1 state version = (Ok tt, w2) /\
    crypto.fs w2 = delete (os.key (sigFilePath env state version)) (crypto.fs w1) /\
    (LoadSig env w2 state version).1 = Ok None /\
    (RemoveSig env w2 state version).1 = Ok tt.
Proof.
  unfold SaveSig in Hsave.
  destruct (os.MkdirAll (crypto.fs w) _) as [fs1|]; [|discriminate].
  cbn [crypto.fs crypto.slog crypto.with_fs] in Hsave.
  destruct (os.WriteFile fs1 _ signature) as [fs2|] eqn:Hw; [|discriminate].
  injection Hsave as <-.
  pose proof (WriteFile_named _ _ _ _ Hw) as Hnamed.
  split.
  - unfold LoadSig. cbn [crypto.fs crypto.slog crypto.with_fs].
    now rewrite (WriteFile_ReadFile _ _ _ _ Hw).
  - unfold RemoveSig at 1. cbn [crypto.fs crypto.slog crypto.with_fs].
    rewrite (Remove_File _ _ _ Hnamed). eexists. split; [reflexivity|].
    cbn [crypto.fs crypto.slog crypto.with_fs]. split; [reflexivity|].
    pose proof (named_deleted _ _ _ Hnamed) as Hgone. split.
    + unfold LoadSig, os.ReadFile. cbn [crypto.fs crypto.slog crypto.with_fs].
      now rewrite Hgone.
    + unfold RemoveSig, os.Remove. cbn [crypto.fs crypto.slog crypto.with_fs].
      now rewrite Hgone.
Qed.

Lemma sig_round_trip_witness :
  exists w1,
    SaveSig samples.releaseEnv samples.world samples.installed "2026.01"
      [48; 130; 1; 10] = (Ok tt, w1) /\
    (LoadSig samples.releaseEnv w1 samples.installed "2026.01").1
    = Ok (Some [48; 130; 1; 10]).
Proof.
  destruct (SaveSig samples.releaseEnv samples.world samples.installed "2026.01"
              [48; 130; 1; 10]) as [r w1] eqn:E.
  pose proof (f_equal fst E) as Hr. vm_compute in Hr. subst r.
  exists w1. split; [reflexivity|].
  exact (proj1 (sig_round_trip samples.releaseEnv samples.world w1 samples.installed
                  "2026.01" [48; 130; 1; 10] E)).
Defined.

End HelperExtras.

Section LegalfilesExtras.
Import legalfiles.
#[local] Arguments os.WriteFile : simpl never.

(** X25.  Extract looks at the size only.  Where a regular file of as many
    bytes as the data already is, Extract succeeds without writing,
    whatever the file holds.  Where a regular file of another size is, or
    nothing is and the file can be created, the file holds the data
    afterwards.  In each case no other entry changes, and when Extract
    fails the files are as before. *)
Theorem Extract_by_size (w : crypto.World) (path : string) (data : list Z) :
  let out := Extract w path data in
  (forall old, os.named (crypto.fs w) path = Some (os.File old) ->
     length old = length data ->
     out.1 = Ok tt /\ crypto.fs out.2 = crypto.fs w) /\
  (forall old, os.named (crypto.fs w) path = Some (os.File old) ->
     length old <> length data ->
     out.1 = Ok tt /\ os.ReadFile (crypto.fs out.2) path = Ok data) /\
  (os.named (crypto.fs w) path = None -> out.1 = Ok tt ->
     os.ReadFile (crypto.fs out.2) path = Ok data) /\
  (forall k, k <> os.key path -> crypto.fs out.2 !! k = crypto.fs w !! k) /\
  (forall err, out.1 = Err err -> crypto.fs out.2 = crypto.fs w).
Proof.
  cbn zeta. unfold Extract, alreadyExists, os.Stat.
  split; [|split; [|split; [|split]]].
  - intros old -> Hlen. cbn [os.Size]. rewrite Hlen, Nat.eqb_refl. now cbn.
  - intros old Hold Hlen. rewrite Hold. cbn [os.Size].
    apply Nat.eqb_neq in Hlen. rewrite Hlen.
    cbn [negb crypto.fs crypto.slog crypto.with_fs].
    unfold os.WriteFile at 1 2. rewrite Hold. cbn [fst snd crypto.fs crypto.with_fs].
    split; [reflexivity|].
    apply (WriteFile_ReadFile (crypto.fs w)). unfold os.WriteFile. now rewrite Hold.
  - intros Hnone. rewrite Hnone.
    cbn [Is bool_decide orb crypto.fs crypto.slog crypto.with_fs].
    rewrite bool_decide_eq_true_2 by reflexivity.
    cbn [orb crypto.fs crypto.slog crypto.with_fs].
    destruct (os.WriteFile (crypto.fs w) path data) as [fs'|] eqn:Hw;
      [|discriminate].
    intros _. apply (WriteFile_ReadFile _ _ _ _ Hw).
  - intros k Hk.
    assert (Hwrite : forall w0, crypto.fs w0 = crypto.fs w ->
              crypto.fs (match os.WriteFile (crypto.fs w0) path data with
                         | Ok fs' => (Ok tt, crypto.with_fs w0 fs')
                         | Err err =>
                             (Err (Wrap ("could not create legal file "
                                         +:+ strconv.Quote path) err), w0)
                         end).2 !! k = crypto.fs w !! k).
    { intros w0 Hw0. destruct (os.WriteFile _ _ _) as [fs'|] eqn:Hw;
        cbn [snd crypto.fs crypto.with_fs]; [|now rewrite Hw0].
      rewrite (WriteFile_insert _ _ _ _ Hw), Hw0. now apply lookup_insert_ne. }
    destruct (os.named (crypto.fs w) path) as [[|d|]|].
    + destruct (negb _); [apply Hwrite|]; reflexivity.
    + destruct (negb _); [apply Hwrite|]; reflexivity.
    + cbn [Is bool_decide orb]. rewrite bool_decide_eq_false_2 by discriminate.
      apply Hwrite. reflexivity.
    + cbn [Is bool_decide orb]. rewrite bool_decide_eq_true_2 by reflexivity.
      apply Hwrite. reflexivity.
  - intros err.
    assert (Hwrite : forall w0, crypto.fs w0 = crypto.fs w ->
              (match os.WriteFile (crypto.fs w0) path data with
               | Ok fs' => (Ok tt, crypto.with_fs w0 fs')
               | Err err =>
                   (Err (Wrap ("could not create legal file "
                               +:+ strconv.Quote path) err), w0)
               end).1 = Err err ->
              crypto.fs (match os.WriteFile (crypto.fs w0) path data with
                         | Ok fs' => (Ok tt, crypto.with_fs w0 fs')
                         | Err err =>
                             (Err (Wrap ("could not create legal file "
                                         +:+ strconv.Quote path) err), w0)
                         end).2 = crypto.fs w).
    { intros w0 Hw0. now destruct (os.WriteFile _ _ _). }
    destruct (os.named (crypto.fs w) path) as [[|d|]|].
    + destruct (negb _); [apply Hwrite; reflexivity|discriminate].
    + destruct (negb _); [apply Hwrite; reflexivity|discriminate].
    + cbn [Is bool_decide orb]. rewrite bool_decide_eq_false_2 by discriminate.
      apply Hwrite. reflexivity.
    + cbn [Is bool_decide orb]. rewrite bool_decide_eq_true_2 by reflexivity.
      apply Hwrite. reflexivity.
Qed.

End LegalfilesExtras.
(** * internal/update, internal/app and the reporters of internal/download *)
Section UpdateExtras.
Import update.

Lemma list_step_invariant cs : forall l,
  HasBlockingUpdate l = existsb IsBlocking (Updates l) ->
  let l' := fold_left list_step cs l in
  HasBlockingUpdate l' = existsb IsBlocking (Updates l') /\
  Updates l' = since_clear (Updates l) cs.
Proof.
  induction cs as [|[item|] cs IH]; intros l Hl; cbn zeta.
  - now split.
  - cbn [fold_left since_clear list_step]. apply (IH (Add l item)).
    cbn [Add HasBlockingUpdate Updates]. rewrite existsb_app, <- Hl. cbn.
    destruct (IsBlocking item), (HasBlockingUpdate l); reflexivity.
  - cbn [fold_left since_clear list_step]. now apply (IH (Clear l)).
Qed.

(** X26.  The update list.  Starting from the zero List, after any
    sequence of Add and Clear calls HasBlockingUpdate is true exactly when
    one of the listed updates is blocking, the listed updates are those
    added since the last Clear, in the order of the calls, and IsEmpty
    holds exactly when there is none. *)
Theorem List_blocking_invariant (cs : list list_call) :
  let l := fold_left list_step cs zeroList in
  (HasBlockingUpdate l = true <->
   exists item, item ∈ Updates l /\ IsBlocking item = true) /\
  Updates l = since_clear [] cs /\
  (IsEmpty l = true <-> since_clear [] cs = []).
Proof.
  destruct (list_step_invariant cs zeroList eq_refl) as [Hb Hu]. cbn zeta in *.
  split; [|split; [exact Hu|]].
  - rewrite Hb, existsb_exists. split; intros (item & Hin & Hblock);
      exists item; (split; [|exact Hblock]); now apply list_elem_of_In.
  - unfold IsEmpty. rewrite Nat.eqb_eq, length_zero_iff_nil, Hu. reflexivity.
Qed.

End UpdateExtras.

Section AppExtras.
Variable GetDependency : appstate.State -> string -> option appstate.Dep.

(** X27.  ValidateGameFiles never validates.  The checksum map it hands to
    repair.Verify is always empty, so whatever the state and the files, the
    call returns an error and emits nothing: no progress, no
    validate:failed and no validate:success.  With a channel selected and
    the game installed the error is that of Verify, "no checksums provided
    for verification".  The files are never changed. *)
Theorem ValidateGameFiles_never_validates (State : option appstate.State)
    (w : crypto.World) (order : list (string * string)) :
  let out := app.ValidateGameFiles GetDependency State w order in
  is_ok out.1.1 = false /\ out.2 = [] /\ crypto.fs out.1.2 = crypto.fs w /\
  (forall s dep, State = Some s -> GetDependency s "game" = Some dep ->
     out.1.1 = Err (New "no checksums provided for verification")).
Proof.
  cbn zeta. unfold app.ValidateGameFiles.
  destruct State as [s|]; [|repeat split; discriminate].
  destruct (GetDependency s "game") as [dep|] eqn:Hdep;
    [|repeat split; intros s' dep' [= <-]; congruence].
  unfold repair.Verify. rewrite map_size_empty. cbn.
  repeat split.
Qed.

End AppExtras.

Section ReporterExtras.
Import throttle.

Lemma SFcompare_antisym x y :
  SFcompare y x = option_map CompOpp (SFcompare x y).
Proof.
  destruct x as [sx|sx| |sx mx ex], y as [sy|sy| |sy my ey]; cbn;
    try reflexivity; try (now destruct sx); try (now destruct sy);
    try (now destruct sx, sy).
  destruct sx, sy; try reflexivity; f_equal.
  - rewrite (Z.compare_antisym ey ex). destruct (ey ?= ex)%Z; cbn; try reflexivity.
    f_equal. rewrite Pos.compare_cont_antisym. reflexivity.
  - rewrite (Z.compare_antisym ey ex). destruct (ey ?= ex)%Z; cbn; try reflexivity.
    rewrite Pos.compare_cont_antisym. reflexivity.
Qed.

Lemma f64_leb_ltb c d :
  d <> S754_nan -> c <> S754_nan -> f64_leb c d = negb (f64_ltb d c).
Proof.
  intros Hd Hc. unfold f64_leb, f64_ltb, SFleb, SFltb.
  rewrite (SFcompare_antisym c d).
  destruct c as [s|s| |s m e], d as [s'|s'| |s' m' e']; try congruence; cbn;
    try (destruct s); try (destruct s'); cbn; try reflexivity;
    destruct (e ?= e')%Z; cbn; try reflexivity;
    destruct (Pos.compare_cont Eq m m'); reflexivity.
Qed.

(** X28.  The two throttles.  shouldReportProgress of the download
    reporters gives the answer of ProgressGate.Update on a gate whose last
    value is lastProgress, unless the difference of the two values is not
    a number; then, for a value from 0.01 up to but excluding 0.99, Update
    lets the value pass and shouldReportProgress holds it back. *)
Theorem shouldReportProgress_Update (lastProgress currentProgress : float64) :
  let diff := f64_sub currentProgress lastProgress in
  (diff <> S754_nan ->
   download.shouldReportProgress lastProgress currentProgress
   = (Update {| last := lastProgress |} currentProgress).2) /\
  (diff = S754_nan -> boundary currentProgress = false ->
   download.shouldReportProgress lastProgress currentProgress = false /\
   (Update {| last := lastProgress |} currentProgress).2 = true).
Proof.
  cbn zeta. unfold download.shouldReportProgress, Update, boundary. cbn [last].
  split.
  - intros Hdiff. destruct (f64_ltb currentProgress c_0_01); [reflexivity|].
    destruct (f64_leb c_0_99 currentProgress); [reflexivity|]. cbn [orb].
    rewrite (f64_leb_ltb c_0_01 _ Hdiff) by discriminate.
    now destruct (f64_ltb _ c_0_01).
  - intros -> Hb. apply orb_false_iff in Hb as [-> ->]. cbn. now split.
Qed.

End ReporterExtras.
(** * encoding/json: what Marshal writes is read back *)
Section JsonRoundTrip.
Import json.

Lemma to_string_of_string s : bytes.to_string (bytes.of_string s) = s.
Proof.
  unfold bytes.to_string, bytes.of_string. rewrite map_map.
  rewrite <- (string_of_list_ascii_of_string s) at 2. f_equal.
  induction (list_ascii_of_string s) as [|c l IH]; [reflexivity|].
  cbn [map]. now rewrite Nat2Z.id, ascii_nat_embedding, IH.
Qed.

(** One byte, as Marshal writes it, is read back as that byte. *)
Lemma read_string_escape c f rest acc :
  read_string (S f) (escape c ++ rest) acc = read_string f rest (c :: acc).
Proof.
  destruct c as [b0 b1 b2 b3 b4 b5 b6 b7].
  destruct b0, b1, b2, b3, b4, b5, b6, b7; reflexivity.
Qed.

Lemma read_string_quoted s : forall fuel rest acc,
  (length s < fuel)%nat ->
  read_string fuel (flat_map escape s ++ quote_char :: rest) acc
  = Some (string_of_list_ascii (rev acc ++ s), rest).
Proof.
  induction s as [|c s IH]; intros fuel rest acc Hfuel.
  - destruct fuel as [|f]; [cbn in Hfuel; lia|]. cbn. now rewrite app_nil_r.
  - destruct fuel as [|f]; [cbn in Hfuel; lia|].
    cbn [flat_map]. rewrite <- app_assoc, read_string_escape.
    rewrite IH by (cbn in Hfuel; lia). cbn [rev]. now rewrite <- app_assoc.
Qed.

Lemma length_flat_map_escape s : (length s <= length (flat_map escape s))%nat.
Proof.
  induction s as [|c s IH]; [reflexivity|]. cbn [flat_map]. rewrite length_app.
  assert (1 <= length (escape c))%nat.
  { destruct c as [b0 b1 b2 b3 b4 b5 b6 b7].
    destruct b0, b1, b2, b3, b4, b5, b6, b7; vm_compute; lia. }
  cbn [length]. lia.
Qed.

Lemma skip_space_indent d l : skip_space (indent d ++ l) = skip_space l.
Proof.
  unfold indent. cbn [app skip_space]. change (is_space newline) with true. cbv iota.
  induction d as [|d IH]; [reflexivity|]. cbn [repeat concat app skip_space].
  change (is_space " ") with true. cbv iota. exact IH.
Qed.

(** A string literal in front of [rest] is read as a string value. *)
Lemma read_value_Str f s rest :
  read_value (S f) (quoted s ++ rest) = Some (Str s, rest).
Proof.
  unfold quoted. cbn [app read_value skip_space].
  change (is_space quote_char) with false. cbv iota.
  change (Ascii.eqb quote_char "n") with false.
  change (Ascii.eqb quote_char "t") with false.
  change (Ascii.eqb quote_char "f") with false.
  change (Ascii.eqb quote_char quote_char) with true. cbv iota.
  rewrite <- app_assoc. cbn [app].
  rewrite read_string_quoted.
  - cbn [rev app mbind option_bind]. now rewrite string_of_list_ascii_of_string.
  - rewrite length_app. pose proof (length_flat_map_escape (list_ascii_of_string s)).
    cbn [length]. lia.
Qed.

Lemma read_value_space f l : read_value f (" "%char :: l) = read_value f l.
Proof. destruct f as [|f]; reflexivity. Qed.

Lemma read_value_Null f rest :
  read_value (S f) (list_ascii_of_string "null" ++ rest) = Some (Null, rest).
Proof. reflexivity. Qed.

Lemma reads_Str d s : reads d 1 (Str s).
Proof.
  intros f rest Hf. destruct f as [|f]; [lia|]. apply read_value_Str.
Qed.

Lemma reads_Null d : reads d 1 Null.
Proof.
  intros f rest Hf. destruct f as [|f]; [lia|]. apply read_value_Null.
Qed.

(** Reading the fields of an object whose values are read back. *)
Lemma read_fields_render d cost fields : forall acc f rest,
  fields <> [] -> Forall (fun kv => reads (S d) cost kv.2) fields ->
  (length fields + cost <= f)%nat ->
  read_fields f (indent (S d)
                 ++ join (","%char :: indent (S d)) (map (field_text (S d)) fields)
                 ++ indent d ++ "}"%char :: rest) acc
  = Some (rev acc ++ fields, rest).
Proof.
  induction fields as [|[k v] fields IH]; intros acc f rest Hne Hall Hf;
    [congruence|].
  apply Forall_cons in Hall as [Hv Hall]. cbn [fst snd] in Hv.
  destruct f as [|f]; [cbn in Hf; lia|]. cbn [read_fields].
  rewrite skip_space_indent.
  assert (Hkey : forall tail,
            skip_space (field_text (S d) (k, v) ++ tail)
            = quote_char :: flat_map escape (list_ascii_of_string k)
              ++ quote_char :: ":"%char :: " "%char :: render_indent (S d) v ++ tail).
  { intros tail. unfold field_text, quoted. cbn [fst snd app].
    rewrite <- !app_assoc. reflexivity. }
  assert (Hread : forall tail,
            read_string (length (flat_map escape (list_ascii_of_string k)
                                 ++ quote_char :: tail))
              (flat_map escape (list_ascii_of_string k) ++ quote_char :: tail) []
            = Some (k, tail)).
  { intros tail. rewrite read_string_quoted.
    - cbn [rev app]. now rewrite string_of_list_ascii_of_string.
    - rewrite length_app. pose proof (length_flat_map_escape (list_ascii_of_string k)).
      cbn [length]. lia. }
  destruct fields as [|kv' fields'].
  - cbn [map join]. rewrite Hkey. cbv iota.
    change (Ascii.eqb quote_char quote_char) with true. cbv iota.
    rewrite Hread. cbn [mbind option_bind]. cbn [skip_space].
    change (is_space ":") with false. cbv iota.
    change (Ascii.eqb ":" ":") with true. cbv iota.
    rewrite read_value_space, Hv by (cbn in Hf; lia). cbn [mbind option_bind].
    rewrite skip_space_indent. cbn [skip_space].
    change (is_space "}") with false. cbv iota.
    change (Ascii.eqb "}" ",") with false. change (Ascii.eqb "}" "}") with true.
    cbv iota. reflexivity.
  - change (join (","%char :: indent (S d)) (map (field_text (S d)) ((k, v) :: kv' :: fields')))
      with (field_text (S d) (k, v) ++ (","%char :: indent (S d))
            ++ join (","%char :: indent (S d)) (map (field_text (S d)) (kv' :: fields'))).
    rewrite <- !app_assoc. rewrite Hkey. cbv iota.
    change (Ascii.eqb quote_char quote_char) with true. cbv iota.
    rewrite Hread. cbn [mbind option_bind]. cbn [skip_space].
    change (is_space ":") with false. cbv iota.
    change (Ascii.eqb ":" ":") with true. cbv iota.
    rewrite read_value_space, Hv by (cbn in Hf; lia). cbn [mbind option_bind].
    cbn [app skip_space]. change (is_space ",") with false. cbv iota.
    change (Ascii.eqb "," ",") with true. cbv iota.
    rewrite (IH ((k, v) :: acc) f rest);
      [|discriminate|exact Hall|cbn in Hf |- *; lia].
    cbn [rev]. now rewrite <- app_assoc.
Qed.

Lemma reads_more d cost cost' v :
  (cost <= cost')%nat -> reads d cost v -> reads d cost' v.
Proof. intros Hc H f rest Hf. apply H. lia. Qed.

Lemma reads_Object d cost fields :
  Forall (fun kv => reads (S d) cost kv.2) fields ->
  reads d (length fields + cost + 1) (Object fields).
Proof.
  intros Hall f rest Hf. destruct f as [|f]; [lia|].
  destruct fields as [|kv fields]; [reflexivity|].
  change (render_indent d (Object (kv :: fields)))
    with ("{"%char :: indent (S d)
          ++ join (","%char :: indent (S d)) (map (field_text (S d)) (kv :: fields))
          ++ indent d ++ ["}"%char]).
  cbn [app read_value skip_space]. change (is_space "{") with false. cbv iota.
  change (Ascii.eqb "{" "n") with false. change (Ascii.eqb "{" "t") with false.
  change (Ascii.eqb "{" "f") with false.
  change (Ascii.eqb "{" quote_char) with false.
  change (Ascii.eqb "{" "-") with false. change (is_digit "{") with false.
  change (Ascii.eqb "{" "[") with false. change (Ascii.eqb "{" "{") with true.
  cbv iota. rewrite <- !app_assoc. cbn [app].
  rewrite skip_space_indent.
  rewrite (read_fields_render d cost (kv :: fields) [] f rest);
    [|discriminate|exact Hall|cbn [length] in Hf |- *; lia].
  destruct kv as [k v]. destruct fields; reflexivity.
Qed.

Lemma length_join sep parts :
  Forall (fun p => 1 <= length p)%nat parts ->
  (length parts <= length (join sep parts))%nat.
Proof.
  induction 1 as [|p parts Hp Hall IH]; [reflexivity|].
  destruct parts as [|q parts]; [cbn; lia|].
  change (join sep (p :: q :: parts)) with (p ++ sep ++ join sep (q :: parts)).
  rewrite !length_app. cbn [length] in *. lia.
Qed.

Lemma length_render_Object fields :
  (length fields + 2 <= length (render_indent 0 (Object fields)))%nat.
Proof.
  destruct fields as [|kv fields]; [cbn; lia|].
  change (render_indent 0 (Object (kv :: fields)))
    with ("{"%char :: indent 1
          ++ join (","%char :: indent 1) (map (field_text 1) (kv :: fields))
          ++ indent 0 ++ ["}"%char]).
  cbn [length]. rewrite !length_app. cbn [length].
  pose proof (length_join (","%char :: indent 1) (map (field_text 1) (kv :: fields))) as H.
  rewrite length_map in H. cbn [length] in H.
  assert (Hall : Forall (fun p => 1 <= length p)%nat
                   (map (field_text 1) (kv :: fields))).
  { apply Forall_forall. intros p Hp. apply list_elem_of_In, in_map_iff in Hp as (x & <- & _).
    unfold field_text, quoted. cbn [app length]. lia. }
  specialize (H Hall). lia.
Qed.

(** A document that is read back from its indented text is what parse
    finds in the bytes of MarshalIndent. *)
Lemma parse_MarshalIndent v cost :
  reads 0 cost v -> (cost <= 2 * length (render_indent 0 v) + 2)%nat ->
  parse (MarshalIndent v) = Ok v.
Proof.
  intros Hreads Hcost. unfold parse, MarshalIndent.
  rewrite to_string_of_string, list_ascii_of_string_of_list_ascii.
  rewrite <- (app_nil_r (render_indent 0 v)) at 2.
  now rewrite (Hreads _ [] Hcost).
Qed.

















End JsonRoundTrip.
(** * internal/playerprofile: the profile file is read back *)
Section ProfileRoundTrip.
Import playerprofile.

Lemma PlayerProfile_round_trip p :
  PlayerProfile_of_json (PlayerProfile_to_json p) = Ok p.
Proof. destruct p as [[n u c]|]; reflexivity. Qed.

Lemma reads_PlayerProfile d p : reads d 5 (PlayerProfile_to_json p).
Proof.
  destruct p as [[n u c]|]; cbn [PlayerProfile_to_json].
  - exact (reads_Object d 1
             [("name", json.Str n); ("uuid", json.Str u); ("created_at", json.Str c)]
             ltac:(repeat constructor; apply reads_Str)).
  - apply (reads_more d 1); [lia|apply reads_Null].
Qed.

Lemma fold_insert_profiles l : forall acc : gmap string (option PlayerProfile),
  fold_left
    (fun acc kv =>
       ps ← acc; p ← PlayerProfile_of_json kv.2; Ok (<[kv.1 := p]> ps))
    (map (fun kv : string * option PlayerProfile =>
            (kv.1, PlayerProfile_to_json kv.2)) l)
    (Ok acc)
  = Ok (fold_left (fun m kv => <[kv.1 := kv.2]> m) l acc).
Proof.
  induction l as [|[k p] l IH]; intros acc; [reflexivity|].
  cbn [map fold_left fst snd]. cbn [mbind result_bind].
  rewrite PlayerProfile_round_trip. cbn [mbind result_bind]. apply IH.
Qed.

Lemma fold_insert_sorted (ps : gmap string (option PlayerProfile)) :
  fold_left (fun m kv => <[kv.1 := kv.2]> m) (json.sorted_entries ps) ∅ = ps.
Proof.
  rewrite <- fold_left_rev_right.
  change (fold_right _ ∅ (rev (json.sorted_entries ps)))
    with (list_to_map (M := gmap string (option PlayerProfile))
            (rev (json.sorted_entries ps))).
  assert (Hperm : rev (json.sorted_entries ps) ≡ₚ map_to_list ps).
  { rewrite <- Permutation_rev. apply merge_sort_Permutation. }
  assert (Hnd : NoDup (rev (json.sorted_entries ps)).*1).
  { rewrite Hperm. apply NoDup_fst_map_to_list. }
  rewrite (list_to_map_proper (M := gmap string) _ _ Hnd Hperm).
  apply list_to_map_to_list.
Qed.

(** json.Unmarshal reads the map back from what MarshalIndent wrote. *)
Lemma Unmarshal_MarshalIndent ps :
  Unmarshal (json.MarshalIndent (profiles_to_json ps)) = Ok ps.
Proof.
  destruct ps as [ps|]; [|reflexivity]. unfold Unmarshal, profiles_to_json.
  set (fields := map (fun kv : string * option PlayerProfile =>
                        (kv.1, PlayerProfile_to_json kv.2)) (json.sorted_entries ps)).
  assert (Hparse : json.parse (json.MarshalIndent (json.Object fields))
                   = Ok (json.Object fields)).
  { apply (parse_MarshalIndent _ (length fields + 5 + 1)).
    - apply reads_Object. apply Forall_forall. intros kv Hkv.
      apply list_elem_of_In, in_map_iff in Hkv as (x & <- & _).
      apply reads_PlayerProfile.
    - pose proof (length_render_Object fields). lia. }
  rewrite Hparse. cbn [mbind result_bind]. unfold fields.
  rewrite fold_insert_profiles. cbn [mbind result_bind].
  now rewrite fold_insert_sorted.
Qed.

(** X29.  The profile file is read back.  When Save succeeds, Load in a
    new manager for the same file returns no error and holds exactly the
    profiles that were saved: every name with its profile, a nil profile
    as nil, the nil map as the nil map.  The names and the texts of the
    profiles are ASCII. *)
Theorem Save_Load_round_trip (m : Manager) (fs fs' : os.FS)
    (Hascii : forall ps n p, profiles m = Some ps -> ps !! n = Some p ->
                ascii_text n && ascii_profile p = true)
    (Hsave : Save m fs = (Ok tt, fs')) :
  Load (New (filePath m)) fs' = (Ok tt, m).
Proof.
  unfold Load. cbn [filePath New].
  rewrite (saveLocked_file _ _ _ Hsave), Unmarshal_MarshalIndent.
  now destruct m.
Qed.

Lemma Save_Load_round_trip_witness :
  let m := created (New "/tmp/player_profiles.json") "Steve" in
  exists fs', Save m samples.withTmp = (Ok tt, fs') /\
    Load (New "/tmp/player_profiles.json") fs' = (Ok tt, m).
Proof.
  intros m.
  assert (Hascii : forall ps n p, profiles m = Some ps -> ps !! n = Some p ->
                     ascii_text n && ascii_profile p = true).
  { intros ps n p [= <-] Hp. apply lookup_insert_Some in Hp as [[<- <-]|[_ Hp]].
    - vm_compute. reflexivity.
    - rewrite lookup_empty in Hp. discriminate Hp. }
  destruct (Save m samples.withTmp) as [r fs'] eqn:E.
  pose proof (f_equal fst E) as Hr. vm_compute in Hr. subst r.
  exists fs'. split; [reflexivity|].
  exact (Save_Load_round_trip m samples.withTmp fs' Hascii E).
Defined.

End ProfileRoundTrip.
(** * internal/selfupdate: the cleanup note is read back *)
Section NoteRoundTrip.
Import selfupdate.
Variable keyName : string.



End NoteRoundTrip.

Section NoteExamples.
Import selfupdate.


End NoteExamples.
(** * internal/appstate: a saved state is loaded back *)
Section StateRoundTrip.
Import appstate.









End StateRoundTrip.

Section StateExamples.
Import appstate.



End StateExamples.
